(** * ssrs100/logs: a shallow embedding of the logging pipeline

    The development follows the Go sources: [log_utils.go] (level names and
    the record header), [log.go] (registry and dispatcher), the console sink
    and the rotating file sink.  Go [int]/[int64] values are integers in [Z]
    with the 64-bit wrap-around written out ([wrap64]); Go strings are byte
    strings, here [string]; the process environment (file system, clock,
    standard streams, goroutine id) is an explicit [World] that every
    effectful function threads. *)

From Stdlib Require Import ZArith Ascii String DecimalString DecimalZ DecimalPos Lia Bool.
From stdpp Require Import gmap strings list fin_maps sorting.

Local Open Scope Z_scope.

(** ** Machine integers *)

Definition wrap64 (z : Z) : Z := (z + 2 ^ 63) mod 2 ^ 64 - 2 ^ 63.

Definition int64_range (z : Z) : Prop := - 2 ^ 63 <= z < 2 ^ 63.

Definition add64 (a b : Z) : Z := wrap64 (a + b).
Definition sub64 (a b : Z) : Z := wrap64 (a - b).
Definition mul64 (a b : Z) : Z := wrap64 (a * b).

(** ** log.go: levels *)

Definition DEBUG : Z := 0.
Definition INFO : Z := 1.
Definition WARN : Z := 2.
Definition ERROR : Z := 3.
Definition FATAL : Z := 4.

(** ** log_utils.go *)

(** [strconv.Itoa]: decimal digits, a leading minus sign for negatives. *)
Definition strconv_Itoa (z : Z) : string := NilZero.string_of_int (Z.to_int z).

(** [time.Time] as the values its accessors return: the Unix second, the
    nanosecond within the second and the civil fields in the time's own
    location (what [Date], [Clock] and [Format] read). *)
Record Time := mkTime {
  t_unix : Z;
  t_nsec : Z;
  t_year : Z;
  t_month : Z;
  t_day : Z;
  t_hour : Z;
  t_minute : Z;
  t_second : Z
}.

(** The civil fields of a time the Go runtime can produce whose year prints
    on four digits. *)
Definition wf_time (t : Time) : Prop :=
  0 <= t_nsec t < 1000000000 /\
  0 <= t_year t <= 9999 /\ 1 <= t_month t <= 12 /\ 1 <= t_day t <= 31 /\
  0 <= t_hour t <= 23 /\ 0 <= t_minute t <= 59 /\ 0 <= t_second t <= 59.

(** One decimal digit. *)
Definition digit (z : Z) : ascii := ascii_of_N (48 + Z.to_N (z mod 10)).

(** [appendInt(b, x, 2)] and [appendInt(b, x, 4)] of package time for a
    non-negative [x]: zero padding up to the width, more digits when the
    number needs them. *)
Definition pad2 (z : Z) : string :=
  if z <? 10 then String "0" (strconv_Itoa z) else strconv_Itoa z.

Definition pad4 (z : Z) : string :=
  if z <? 10 then "000" +:+ strconv_Itoa z
  else if z <? 100 then "00" +:+ strconv_Itoa z
  else if z <? 1000 then "0" +:+ strconv_Itoa z
  else strconv_Itoa z.

(** [Time.Format] for layouts made of the reference elements 2006, 01, 02,
    15, 04, 05 and literal text, which covers both layouts of this package. *)
Fixpoint time_Format (layout : string) (t : Time) : string :=
  match layout with
  | String "2" (String "0" (String "0" (String "6" rest))) =>
      pad4 (t_year t) +:+ time_Format rest t
  | String "0" (String "1" rest) => pad2 (t_month t) +:+ time_Format rest t
  | String "0" (String "2" rest) => pad2 (t_day t) +:+ time_Format rest t
  | String "1" (String "5" rest) => pad2 (t_hour t) +:+ time_Format rest t
  | String "0" (String "4" rest) => pad2 (t_minute t) +:+ time_Format rest t
  | String "0" (String "5" rest) => pad2 (t_second t) +:+ time_Format rest t
  | String c rest => String c (time_Format rest t)
  | EmptyString => EmptyString
  end.

(** Go's integer division truncates towards zero. *)
Definition go_div (a b : Z) : Z := Z.quot a b.

Definition formatTimeHeader (when : Time) : string * Z :=
  let str := time_Format "2006-01-02 15:04:05" when in
  let d := t_day when in
  let us := go_div (t_nsec when) 1000 in
  ("[" +:+ str +:+ "." +:+ strconv_Itoa us +:+ "]", d).

Definition transLogLevel (level : string) : Z :=
  if decide (level = "DEBUG") then DEBUG
  else if decide (level = "INFO") then INFO
  else if decide (level = "WARN") then WARN
  else if decide (level = "ERROR") then ERROR
  else if decide (level = "FATAL") then FATAL
  else DEBUG.

(** ** The process environment *)

Definition error := string.

Inductive result (A : Type) :=
| Ok (a : A)
| Err (e : error).
Arguments Ok {A} a.
Arguments Err {A} e.

(** A path is its list of components below the working directory. *)
Definition path := list string.

Inductive node :=
| NFile (content : string) (mtime : Time)
| NDir (mtime : Time).

(** [os.FileInfo] *)
Record FileInfo := mkFileInfo {
  fi_Name : string;
  fi_Size : Z;
  fi_ModTime : Time;
  fi_IsDir : bool
}.

(** [os.File]: the sink closes its handle before it renames the file, so a
    handle is the path it was opened on and whether it has been closed. *)
Record File := mkFile {
  f_path : path;
  f_closed : bool
}.

Inductive syscall :=
| SysOpenFile (p : path)
| SysOpen (p : path)
| SysCreate (p : path)
| SysStat (p : path)
| SysLstat (p : path)
| SysRead (p : path)
| SysWrite (p : path) (data : string)
| SysSync (p : path)
| SysClose (p : path)
| SysRename (p q : path)
| SysRemove (p : path).

Record event := Ev {
  ev_call : syscall;
  ev_ok : bool
}.

(** The goroutine started by a rotation. *)
Record task := CompressAndClean {
  task_logName : path;
  task_zipName : path
}.

Record World := mkWorld {
  w_fs : gmap path node;
  (** calls the operating system refuses (permissions, full disk, ...) *)
  w_fault : syscall -> bool;
  (** every system call made so far, oldest first *)
  w_trace : list event;
  w_stdout : list string;
  w_stderr : list string;
  (** successive readings of the wall clock *)
  w_clock : nat -> Time;
  w_tick : nat;
  (** what [getGID] finds on the stack of the calling goroutine *)
  w_gid : string;
  (** [runtime.Caller]: file and line at a stack depth *)
  w_caller : Z -> option (string * Z);
  w_spawned : list task
}.

Definition set_fs (fs : gmap path node) (w : World) : World :=
  mkWorld fs (w_fault w) (w_trace w) (w_stdout w) (w_stderr w)
    (w_clock w) (w_tick w) (w_gid w) (w_caller w) (w_spawned w).
Definition set_trace (tr : list event) (w : World) : World :=
  mkWorld (w_fs w) (w_fault w) tr (w_stdout w) (w_stderr w)
    (w_clock w) (w_tick w) (w_gid w) (w_caller w) (w_spawned w).
Definition set_stdout (out : list string) (w : World) : World :=
  mkWorld (w_fs w) (w_fault w) (w_trace w) out (w_stderr w)
    (w_clock w) (w_tick w) (w_gid w) (w_caller w) (w_spawned w).
Definition set_stderr (err : list string) (w : World) : World :=
  mkWorld (w_fs w) (w_fault w) (w_trace w) (w_stdout w) err
    (w_clock w) (w_tick w) (w_gid w) (w_caller w) (w_spawned w).
Definition set_tick (n : nat) (w : World) : World :=
  mkWorld (w_fs w) (w_fault w) (w_trace w) (w_stdout w) (w_stderr w)
    (w_clock w) n (w_gid w) (w_caller w) (w_spawned w).
Definition set_spawned (ts : list task) (w : World) : World :=
  mkWorld (w_fs w) (w_fault w) (w_trace w) (w_stdout w) (w_stderr w)
    (w_clock w) (w_tick w) (w_gid w) (w_caller w) ts.

(** Effectful code is a state transformer on the world. *)
Definition M (A : Type) : Type := World -> A * World.

Definition ret {A : Type} (a : A) : M A := fun w => (a, w).

Definition bind {A B : Type} (c : M A) (k : A -> M B) : M B :=
  fun w => let (a, w') := c w in k a w'.

Notation "x <- c ;; k" := (bind c (fun x => k))
  (at level 20, c at level 99, k at level 200, only parsing).

(** A system call leaves its outcome in the trace. *)
Definition sys {A : Type} (c : syscall) (ok : bool) (a : A) : M A :=
  fun w => (a, set_trace (w_trace w ++ [Ev c ok]) w).

Definition print_stdout (line : string) : M unit :=
  fun w => (tt, set_stdout (w_stdout w ++ [line]) w).

Definition print_stderr (line : string) : M unit :=
  fun w => (tt, set_stderr (w_stderr w ++ [line]) w).

(** [time.Now()] *)
Definition time_Now : M Time :=
  fun w => (w_clock w (w_tick w), set_tick (S (w_tick w)) w).

(** The time the kernel stamps on a file it modifies. *)
Definition kernel_time (w : World) : Time := w_clock w (w_tick w).

Definition getGID : M string := fun w => (w_gid w, w).

Definition go_spawn (t : task) : M unit :=
  fun w => (tt, set_spawned (w_spawned w ++ [t]) w).

Definition len (s : string) : Z := Z.of_nat (String.length s).

Definition info_of (p : path) (n : node) : FileInfo :=
  match n with
  | NFile content mtime => mkFileInfo (List.last p ".") (len content) mtime false
  | NDir mtime => mkFileInfo (List.last p ".") 4096 mtime true
  end.

(** *** System calls *)

(** [os.OpenFile(name, O_WRONLY|O_APPEND|O_CREATE, perm)] *)
Definition os_OpenFile (p : path) : M (result File) := fun w =>
  let c := SysOpenFile p in
  if w_fault w c then sys c false (Err "open: refused") w
  else match w_fs w !! p with
       | Some (NDir _) => sys c false (Err "open: is a directory") w
       | Some (NFile _ _) => sys c true (Ok (mkFile p false)) w
       | None =>
           sys c true (Ok (mkFile p false))
             (set_fs (<[p := NFile "" (kernel_time w)]> (w_fs w)) w)
       end.

(** [os.Open(name)] *)
Definition os_Open (p : path) : M (result File) := fun w =>
  let c := SysOpen p in
  if w_fault w c then sys c false (Err "open: refused") w
  else match w_fs w !! p with
       | Some _ => sys c true (Ok (mkFile p false)) w
       | None => sys c false (Err "open: no such file") w
       end.

(** [os.Create(name)]: create or truncate. *)
Definition os_Create (p : path) : M (result File) := fun w =>
  let c := SysCreate p in
  if w_fault w c then sys c false (Err "create: refused") w
  else match w_fs w !! p with
       | Some (NDir _) => sys c false (Err "create: is a directory") w
       | _ =>
           sys c true (Ok (mkFile p false))
             (set_fs (<[p := NFile "" (kernel_time w)]> (w_fs w)) w)
       end.

(** [os.Lstat(name)] *)
Definition os_Lstat (p : path) : M (result FileInfo) := fun w =>
  let c := SysLstat p in
  if w_fault w c then sys c false (Err "lstat: refused") w
  else match w_fs w !! p with
       | Some n => sys c true (Ok (info_of p n)) w
       | None => sys c false (Err "lstat: no such file") w
       end.

(** [File.Stat()] *)
Definition File_Stat (f : File) : M (result FileInfo) := fun w =>
  let c := SysStat (f_path f) in
  if f_closed f then sys c false (Err "stat: file already closed") w
  else if w_fault w c then sys c false (Err "stat: refused") w
  else match w_fs w !! f_path f with
       | Some n => sys c true (Ok (info_of (f_path f) n)) w
       | None => sys c false (Err "stat: no such file") w
       end.

(** [File.Write(b)] on a handle opened for appending: all of [b] or an
    error. *)
Definition File_Write (f : File) (data : string) : M (option error) := fun w =>
  let c := SysWrite (f_path f) data in
  if f_closed f then sys c false (Some "write: file already closed") w
  else if w_fault w c then sys c false (Some "write: refused") w
  else match w_fs w !! f_path f with
       | Some (NFile content _) =>
           sys c true None
             (set_fs (<[f_path f := NFile (content +:+ data) (kernel_time w)]> (w_fs w)) w)
       | _ => sys c false (Some "write: bad file") w
       end.

(** Reading a regular file to its end through an open handle. *)
Definition File_ReadAll (f : File) : M (result string) := fun w =>
  let c := SysRead (f_path f) in
  if f_closed f then sys c false (Err "read: file already closed") w
  else if w_fault w c then sys c false (Err "read: refused") w
  else match w_fs w !! f_path f with
       | Some (NFile content _) => sys c true (Ok content) w
       | _ => sys c false (Err "read: is a directory") w
       end.

(** [File.Close()]: the handle is closed afterwards whatever the call
    returns. *)
Definition File_Close (f : File) : M (File * option error) := fun w =>
  let c := SysClose (f_path f) in
  if f_closed f then sys c false (f, Some "close: file already closed") w
  else if w_fault w c then sys c false (mkFile (f_path f) true, Some "close: refused") w
  else sys c true (mkFile (f_path f) true, None) w.

(** [File.Sync()] *)
Definition File_Sync (f : File) : M (option error) := fun w =>
  let c := SysSync (f_path f) in
  if f_closed f then sys c false (Some "sync: file already closed") w
  else if w_fault w c then sys c false (Some "sync: refused") w
  else sys c true None w.

(** [os.Rename(old, new)]: a file replaces a file, never a directory. *)
Definition os_Rename (p q : path) : M (option error) := fun w =>
  let c := SysRename p q in
  if w_fault w c then sys c false (Some "rename: refused") w
  else match w_fs w !! p, w_fs w !! q with
       | None, _ => sys c false (Some "rename: no such file") w
       | Some _, Some (NDir _) => sys c false (Some "rename: file exists") w
       | Some n, _ => sys c true None (set_fs (<[q := n]> (delete p (w_fs w))) w)
       end.

(** The entries strictly below a path. *)
Definition below (fs : gmap path node) (p : path) : list path :=
  filter (fun q => p `prefix_of` q /\ q <> p) (map fst (map_to_list fs)).

(** [os.Remove(name)]: a file, or a directory with nothing below it. *)
Definition os_Remove (p : path) : M (option error) := fun w =>
  let c := SysRemove p in
  if w_fault w c then sys c false (Some "remove: refused") w
  else match w_fs w !! p with
       | None => sys c false (Some "remove: no such file") w
       | Some (NFile _ _) => sys c true None (set_fs (delete p (w_fs w)) w)
       | Some (NDir _) =>
           match below (w_fs w) p with
           | [] => sys c true None (set_fs (delete p (w_fs w)) w)
           | _ :: _ => sys c false (Some "remove: directory not empty") w
           end
       end.

(** *** Package path/filepath, on slash-separated names *)

Fixpoint split_slash (s : string) : list string :=
  match s with
  | EmptyString => [EmptyString]
  | String c r =>
      if decide (c = "/"%char) then EmptyString :: split_slash r
      else match split_slash r with
           | h :: t => String c h :: t
           | [] => [String c EmptyString]
           end
  end.

(** [filepath.Clean] as far as empty and dot elements go; a double dot is
    kept as a name. *)
Definition clean (l : list string) : path :=
  filter (fun c => c <> "" /\ c <> ".") l.

(** The node a file name designates. *)
Definition path_of (name : string) : path := clean (split_slash name).

Definition filepath_Dir (name : string) : path :=
  clean (removelast (split_slash name)).

Definition filepath_Base (name : string) : string :=
  List.last (filter (fun c => c <> "") (split_slash name)) ".".

Fixpoint last_dot (s : string) : option string :=
  match s with
  | EmptyString => None
  | String c r =>
      match last_dot r with
      | Some e => Some e
      | None => if decide (c = "."%char) then Some s else None
      end
  end.

Definition filepath_Ext (name : string) : string :=
  default "" (last_dot (List.last (split_slash name) "")).

Definition filepath_Join (dir : path) (name : string) : path := dir ++ [name].

(** *** Package strings *)

Definition strings_HasPrefix (s pre : string) : bool := String.prefix pre s.

Definition strings_HasSuffix (s suf : string) : bool :=
  bool_decide (String.length suf <= String.length s)%nat &&
  bool_decide (substring (String.length s - String.length suf) (String.length suf) s = suf).

Definition strings_TrimSuffix (s suf : string) : string :=
  if strings_HasSuffix s suf
  then substring 0 (String.length s - String.length suf) s
  else s.

(** [bytes.Count(b, ['\n'])] *)
Fixpoint count_newlines (s : string) : Z :=
  match s with
  | EmptyString => 0
  | String c r => (if decide (c = "010"%char) then 1 else 0) + count_newlines r
  end.

Definition nl : string := String "010"%char EmptyString.
Definition dquote : string := String (ascii_of_nat 34) EmptyString.

(** The verb q of package fmt, for a string that needs no escapes. *)
Definition quote (s : string) : string := dquote +:+ s +:+ dquote.

Definition path_string (p : path) : string := String.concat "/" p.

(** *** Package encoding/json, for the configuration objects of the sinks *)

Inductive json :=
| JString (s : string)
| JNumber (z : Z)
| JBool (b : bool)
| JNull.

(** The configuration text a sink is initialised with, as [json.Unmarshal]
    reads it: nothing at all, text that is not a JSON object, or the members
    of an object in the order they are written. *)
Inductive jsonConfig :=
| JsonEmpty
| JsonInvalid (e : error)
| JsonObject (members : list (string * json)).

Inductive goType := TString | TInt | TInt64 | TUint32 | TBool.

Definition json_fits (t : goType) (v : json) : bool :=
  match t, v with
  | _, JNull => true
  | TString, JString _ => true
  | TInt, JNumber z => bool_decide (int64_range z)
  | TInt64, JNumber z => bool_decide (int64_range z)
  | TUint32, JNumber z => bool_decide (0 <= z < 2 ^ 32)
  | TBool, JBool _ => true
  | _, _ => false
  end.

(** Members are decoded in order: a later member of the same name
    overwrites an earlier one, a null or ill-typed member leaves the field
    as it is.  Names are matched exactly. *)
Definition json_string (k : string) (ms : list (string * json)) (old : string) : string :=
  foldl (fun acc kv => if decide (fst kv = k)
                       then match snd kv with JString s => s | _ => acc end
                       else acc) old ms.

Definition json_number (t : goType) (k : string) (ms : list (string * json)) (old : Z) : Z :=
  foldl (fun acc kv => if decide (fst kv = k)
                       then match snd kv with
                            | JNumber z => if json_fits t (JNumber z) then z else acc
                            | _ => acc
                            end
                       else acc) old ms.

Definition json_bool (k : string) (ms : list (string * json)) (old : bool) : bool :=
  foldl (fun acc kv => if decide (fst kv = k)
                       then match snd kv with JBool b => b | _ => acc end
                       else acc) old ms.

(** [Unmarshal] goes on after an ill-typed member and returns the first such
    error at the end. *)
Fixpoint json_type_error (schema : list (string * goType)) (ms : list (string * json))
  : option error :=
  match ms with
  | [] => None
  | (k, v) :: ms =>
      match list_find (fun f => fst f = k) schema with
      | Some (_, (_, t)) =>
          if json_fits t v then json_type_error schema ms
          else Some ("json: cannot unmarshal value into Go struct field " +:+ k)
      | None => json_type_error schema ms
      end
  end.

(** ** The rotating file sink *)

Definition LOG_PATTERN : string := "2006-01-02-15-04-05".
Definition MB : Z := 1024 * 1024.
Definition ONE_DAY_SECONDS : Z := 60 * 60 * 24.

Module File.

Record fileLogWriter := mkFileLogWriter {
  Filename : string;
  fileWriter : option File;
  MaxLines : Z;
  maxLinesCurLines : Z;
  MaxSize : Z;
  maxSizeCurSize : Z;
  Daily : bool;
  MaxDays : Z;
  dailyOpenDate : Z;
  Rotate : bool;
  LogLevel : string;
  Level : Z;
  Perm : Z;
  fileNameOnly : string;
  MaxTotalSize : Z
}.

Definition set_fileWriter (f : option File) (w : fileLogWriter) : fileLogWriter :=
  mkFileLogWriter (Filename w) f (MaxLines w) (maxLinesCurLines w) (MaxSize w)
    (maxSizeCurSize w) (Daily w) (MaxDays w) (dailyOpenDate w) (Rotate w) (LogLevel w)
    (Level w) (Perm w) (fileNameOnly w) (MaxTotalSize w).

(** The three counters that [initFd] and [WriteMsg] assign. *)
Definition set_counters (lines size day : Z) (w : fileLogWriter) : fileLogWriter :=
  mkFileLogWriter (Filename w) (fileWriter w) (MaxLines w) lines (MaxSize w)
    size (Daily w) (MaxDays w) day (Rotate w) (LogLevel w)
    (Level w) (Perm w) (fileNameOnly w) (MaxTotalSize w).

Definition newFileWriter : fileLogWriter :=
  {| Filename := ""; fileWriter := None;
     MaxLines := 1000000; maxLinesCurLines := 0;
     MaxSize := 256; maxSizeCurSize := 0;
     Daily := true; MaxDays := 7; dailyOpenDate := 0;
     Rotate := true; LogLevel := ""; Level := DEBUG; Perm := 432 (* 0660 *);
     fileNameOnly := ""; MaxTotalSize := 1024 |}.

Definition createLogFile (w : fileLogWriter) : M (result File) :=
  os_OpenFile (path_of (Filename w)).

Fixpoint string_take (n : nat) (s : string) : string :=
  match n, s with
  | S n, String c r => String c (string_take n r)
  | _, _ => EmptyString
  end.

Fixpoint string_drop (n : nat) (s : string) : string :=
  match n, s with
  | S n, String _ r => string_drop n r
  | _, _ => s
  end.

(** The loop of [lines]: one buffer of [bufsize] bytes per [Read]; the read
    that finds nothing left returns [io.EOF] and ends the loop. *)
Fixpoint lines_loop (fuel : nat) (bufsize : nat) (rest : string) (count : Z) : Z :=
  match fuel with
  | O => count
  | S fuel =>
      let buf := string_take bufsize rest in
      let count := add64 count (count_newlines buf) in
      match buf with
      | EmptyString => count
      | _ => lines_loop fuel bufsize (string_drop bufsize rest) count
      end
  end.

Definition lines (w : fileLogWriter) : M (Z * option error) :=
  r <- os_Open (path_of (Filename w)) ;;
  match r with
  | Err e => ret (0, Some e)
  | Ok fd =>
      r <- File_ReadAll fd ;;
      res <- ret (match r with
                  | Err e => (0, Some e)
                  | Ok data =>
                      (lines_loop (S (String.length data)) (Z.to_nat 32768) data 0, None)
                  end) ;;
      _ <- File_Close fd ;;
      ret res
  end.

Definition initFd (w : fileLogWriter) : M (fileLogWriter * option error) :=
  match fileWriter w with
  | None => ret (w, Some ("get stat err: invalid argument" +:+ nl))
  | Some fd =>
      r <- File_Stat fd ;;
      match r with
      | Err e => ret (w, Some ("get stat err: " +:+ e +:+ nl))
      | Ok fInfo =>
          now <- time_Now ;;
          let w := set_counters 0 (fi_Size fInfo) (t_day now) w in
          if 0 <? fi_Size fInfo then
            cr <- lines w ;;
            match cr with
            | (_, Some e) => ret (w, Some e)
            | (count, None) =>
                ret (set_counters count (maxSizeCurSize w) (dailyOpenDate w) w, None)
            end
          else ret (w, None)
      end
  end.

(** The handle the sink holds is closed in place; a nil handle is left. *)
Definition close_fileWriter (w : fileLogWriter) : M fileLogWriter :=
  match fileWriter w with
  | None => ret w
  | Some fd => r <- File_Close fd ;; ret (set_fileWriter (Some (fst r)) w)
  end.

Definition startLogger (w : fileLogWriter) : M (fileLogWriter * option error) :=
  r <- createLogFile w ;;
  match r with
  | Err e => ret (w, Some e)
  | Ok file =>
      w <- close_fileWriter w ;;
      initFd (set_fileWriter (Some file) w)
  end.

Definition needRotate (w : fileLogWriter) (size : Z) (day : Z) : bool :=
  ((0 <? MaxLines w) && (MaxLines w <=? maxLinesCurLines w)) ||
  ((0 <? MaxSize w) && (MaxSize w <=? add64 (maxSizeCurSize w) size)) ||
  (Daily w && negb (day =? dailyOpenDate w)).

(** *** [filepath.Walk] *)

(** [readDirNames]: the names in a directory, sorted. *)
Definition child_names (fs : gmap path node) (p : path) : list string :=
  merge_sort String.le
    (omap (fun q => if decide (q <> [] /\ removelast q = p)
                    then Some (List.last q "") else None)
          (map fst (map_to_list fs))).

Definition readDirNames (p : path) : M (list string) :=
  fun w => (child_names (w_fs w) p, w).

Fixpoint forEach {A B : Type} (f : A -> B -> M A) (l : list B) (a : A) : M A :=
  match l with
  | [] => ret a
  | b :: l => a <- f a b ;; forEach f l a
  end.

(** [walk(path, info, walkFn)] for a callback that returns no error, as the
    one of this package: the callback on the entry, then for a directory its
    entries by name, each after its [Lstat].  An entry whose [Lstat] fails
    is reported without a [FileInfo].  [a] is what the callback closes
    over. *)
Fixpoint walk {A : Type} (fuel : nat) (walkFn : A -> path * option FileInfo -> M A)
    (p : path) (info : FileInfo) (a : A) : M A :=
  match fuel with
  | O => ret a
  | S fuel =>
      if negb (fi_IsDir info) then walkFn a (p, Some info)
      else
        names <- readDirNames p ;;
        a <- walkFn a (p, Some info) ;;
        forEach (fun a name =>
                   let filename := filepath_Join p name in
                   r <- os_Lstat filename ;;
                   match r with
                   | Err _ => walkFn a (filename, None)
                   | Ok fileInfo => walk fuel walkFn filename fileInfo a
                   end) names a
  end.

(** No entry lies deeper than the longest path of the file system. *)
Definition walk_fuel (fs : gmap path node) : nat :=
  S (foldr Nat.max 0%nat (map (fun q => length (fst q)) (map_to_list fs))).

Definition filepath_Walk {A : Type} (root : path)
    (walkFn : A -> path * option FileInfo -> M A) (a : A) : M A :=
  r <- os_Lstat root ;;
  match r with
  | Err _ => walkFn a (root, None)
  | Ok info => fun w => walk (walk_fuel (w_fs w)) walkFn root info a w
  end.

(** *** Retention *)

(** The variables the callback of [deleteOldLog] closes over. *)
Record walkState := mkWalkState {
  totalSize : Z;
  fileTimeMap : gmap string FileInfo;
  timeKeys : list string
}.

Definition walkFn (w : fileLogWriter) (st : walkState) (v : path * option FileInfo)
  : M walkState :=
  let (p, oinfo) := v in
  match oinfo with
  | None =>
      (* info.IsDir() on a nil FileInfo panics; the deferred recover reports it *)
      _ <- print_stderr ("Unable to delete old log '" +:+ path_string p +:+
             "', error: runtime error: invalid memory address or nil pointer dereference"
             +:+ nl) ;;
      ret st
  | Some info =>
      if fi_IsDir info then ret st
      else if negb (strings_HasPrefix (List.last p ".") (fileNameOnly w)) then ret st
      else
        now <- time_Now ;;
        if t_unix (fi_ModTime info) <?
           sub64 (t_unix now) (mul64 ONE_DAY_SECONDS (MaxDays w))
        then _ <- os_Remove p ;; ret st
        else
          let timeKey := time_Format LOG_PATTERN (fi_ModTime info) in
          ret (mkWalkState (add64 (totalSize st) (fi_Size info))
                           (<[timeKey := info]> (fileTimeMap st))
                           (timeKeys st ++ [timeKey]))
  end.

(** The loop over the sorted keys.  Every key was stored in the map by the
    callback; a missing one would be a nil dereference, which ends the
    goroutine. *)
Fixpoint deleteLoop (w : fileLogWriter) (dir : path) (st : walkState)
    (keys : list string) (delSize : Z) : M unit :=
  match keys with
  | [] => ret tt
  | v :: keys =>
      if sub64 (totalSize st) (MaxTotalSize w) <? delSize then ret tt
      else match fileTimeMap st !! v with
           | None => ret tt
           | Some info =>
               let delSize := add64 delSize (fi_Size info) in
               _ <- os_Remove (filepath_Join dir (fi_Name info)) ;;
               deleteLoop w dir st keys delSize
           end
  end.

(** What follows the walk. *)
Definition deleteOldLog_bySize (w : fileLogWriter) (dir : path) (st : walkState) : M unit :=
  if sub64 (totalSize st) (MaxTotalSize w) <=? 0 then ret tt
  else deleteLoop w dir st (merge_sort String.le (timeKeys st)) 0.

Definition deleteOldLog (w : fileLogWriter) : M unit :=
  let dir := filepath_Dir (Filename w) in
  st <- filepath_Walk dir (walkFn w) (mkWalkState 0 ∅ []) ;;
  deleteOldLog_bySize w dir st.

(** *** Compression *)

Section Compression.

(** [compress/gzip]: the stream written for an entry name and its data. *)
Variable gzip_encode : string -> string -> string.

(** The function has three deferred calls; they run last in, first out,
    on every return that follows their registration. *)
Definition compressFile (source target : path) : M (option error) :=
  r <- os_Open source ;;
  match r with
  | Err e => ret (Some e)
  | Ok reader =>
      (* defer: reader.Close(); os.Remove(source) *)
      let deferred_reader : M unit :=
        _ <- File_Close reader ;; _ <- os_Remove source ;; ret tt in
      let filename := List.last source "." in
      r <- os_Create target ;;
      match r with
      | Err e => _ <- deferred_reader ;; ret (Some e)
      | Ok writer =>
          (* defer: writer.Close() *)
          (* defer: archiver.Close(), which writes out what the archiver holds *)
          r <- File_ReadAll reader ;;
          let (err, copied) := match r with
                               | Ok data => (None, data)
                               | Err e => (Some e, "")
                               end in
          _ <- File_Write writer (gzip_encode filename copied) ;;
          _ <- File_Close writer ;;
          _ <- deferred_reader ;;
          ret err
      end
  end.

Definition compressAndClean (w : fileLogWriter) (logName zipName : path) : M unit :=
  _ <- compressFile logName zipName ;;
  deleteOldLog w.

(** Running the goroutine a rotation started. *)
Definition run_task (w : fileLogWriter) (t : task) : M unit :=
  compressAndClean w (task_logName t) (task_zipName t).

End Compression.

(** *** Rotation and writing *)

Definition doRotate (w : fileLogWriter) (logTime : Time)
  : M (fileLogWriter * option error) :=
  r <- os_Lstat (path_of (Filename w)) ;;
  match r with
  | Err e => ret (w, Some e)
  | Ok _ =>
      let zipName := fileNameOnly w +:+ "." +:+ time_Format LOG_PATTERN logTime +:+ ".zip" in
      let logName := fileNameOnly w +:+ "." +:+ time_Format LOG_PATTERN logTime +:+ ".log" in
      w <- close_fileWriter w ;;
      let dir := filepath_Dir (Filename w) in
      let zipName := if decide (dir <> []) then filepath_Join dir zipName else [zipName] in
      let logName := if decide (dir <> []) then filepath_Join dir logName else [logName] in
      renameErr <- os_Rename (path_of (Filename w)) logName ;;
      r <- startLogger w ;;
      let (w, startLoggerErr) := r in
      _ <- go_spawn (CompressAndClean logName zipName) ;;
      match startLoggerErr, renameErr with
      | Some e, _ => ret (w, Some ("Rotate StartLogger: " +:+ e +:+ nl))
      | None, Some e => ret (w, Some ("Rotate: " +:+ e +:+ nl))
      | None, None => ret (w, None)
      end
  end.

(** [w.fileWriter.Write]: a nil handle answers with an error. *)
Definition fileWriter_Write (w : fileLogWriter) (data : string) : M (option error) :=
  match fileWriter w with
  | None => ret (Some "invalid argument")
  | Some fd => File_Write fd data
  end.

(** The line the sink writes for a record. *)
Definition format_line (w : fileLogWriter) (h gid msg : string) : string :=
  if Level w =? DEBUG then h +:+ "[" +:+ gid +:+ "]" +:+ msg +:+ nl
  else h +:+ msg +:+ nl.

(** The rotation block of [WriteMsg]: the check is made once without the
    lock and once more under it. *)
Definition WriteMsg_rotate (w : fileLogWriter) (when : Time) (msg : string) (d : Z)
  : M fileLogWriter :=
  if Rotate w then
    if needRotate w (len msg) d then
      (* Lock *)
      if needRotate w (len msg) d then
        r <- doRotate w when ;;
        match r with
        | (w, Some err) =>
            _ <- print_stderr ("FileLogWriter(" +:+ quote (Filename w) +:+ "): "
                               +:+ err +:+ nl) ;;
            ret w
        | (w, None) => ret w
        end
      else ret w
      (* Unlock *)
    else ret w
  else ret w.

(** The write block of [WriteMsg], under the lock. *)
Definition WriteMsg_write (w : fileLogWriter) (msg : string)
  : M (fileLogWriter * option error) :=
  err <- fileWriter_Write w msg ;;
  match err with
  | None =>
      ret (set_counters (add64 (maxLinesCurLines w) 1)
                        (add64 (maxSizeCurSize w) (len msg))
                        (dailyOpenDate w) w, None)
  | Some e => ret (w, Some e)
  end.

Definition WriteMsg (w : fileLogWriter) (when : Time) (msg : string) (level : Z)
  : M (fileLogWriter * option error) :=
  if level <? Level w then ret (w, None)
  else
    let (h, d) := formatTimeHeader when in
    gid <- (if Level w =? DEBUG then getGID else ret "") ;;
    let msg := format_line w h gid msg in
    w <- WriteMsg_rotate w when msg d ;;
    WriteMsg_write w msg.

Definition Destroy (w : fileLogWriter) : M fileLogWriter := close_fileWriter w.

Definition Flush (w : fileLogWriter) : M unit :=
  match fileWriter w with
  | None => ret tt
  | Some fd => _ <- File_Sync fd ;; ret tt
  end.

(** *** Configuration *)

Definition schema : list (string * goType) :=
  [("filename", TString); ("maxlines", TInt); ("maxsize", TInt); ("daily", TBool);
   ("maxdays", TInt64); ("rotate", TBool); ("logLevel", TString); ("Level", TInt);
   ("perm", TUint32); ("maxTotalSize", TInt64)].

Definition json_Unmarshal (cfg : jsonConfig) (w : fileLogWriter)
  : fileLogWriter * option error :=
  match cfg with
  | JsonEmpty => (w, Some "unexpected end of JSON input")
  | JsonInvalid e => (w, Some e)
  | JsonObject ms =>
      ({| Filename := json_string "filename" ms (Filename w);
          fileWriter := fileWriter w;
          MaxLines := json_number TInt "maxlines" ms (MaxLines w);
          maxLinesCurLines := maxLinesCurLines w;
          MaxSize := json_number TInt "maxsize" ms (MaxSize w);
          maxSizeCurSize := maxSizeCurSize w;
          Daily := json_bool "daily" ms (Daily w);
          MaxDays := json_number TInt64 "maxdays" ms (MaxDays w);
          dailyOpenDate := dailyOpenDate w;
          Rotate := json_bool "rotate" ms (Rotate w);
          LogLevel := json_string "logLevel" ms (LogLevel w);
          Level := json_number TInt "Level" ms (Level w);
          Perm := json_number TUint32 "perm" ms (Perm w);
          fileNameOnly := fileNameOnly w;
          MaxTotalSize := json_number TInt64 "maxTotalSize" ms (MaxTotalSize w) |},
       json_type_error schema ms)
  end.

Definition Init (w : fileLogWriter) (jsonConfig : jsonConfig)
  : M (fileLogWriter * option error) :=
  match json_Unmarshal jsonConfig w with
  | (w, Some err) => ret (w, Some err)
  | (w, None) =>
      if len (Filename w) =? 0 then ret (w, Some "jsonconfig must have filename")
      else
        let suffix := filepath_Ext (Filename w) in
        let w :=
          {| Filename := Filename w;
             fileWriter := fileWriter w;
             MaxLines := MaxLines w;
             maxLinesCurLines := maxLinesCurLines w;
             (* converted to bytes *)
             MaxSize := mul64 (MaxSize w) MB;
             maxSizeCurSize := maxSizeCurSize w;
             Daily := Daily w;
             MaxDays := MaxDays w;
             dailyOpenDate := dailyOpenDate w;
             Rotate := Rotate w;
             LogLevel := LogLevel w;
             Level := transLogLevel (LogLevel w);
             Perm := Perm w;
             fileNameOnly := strings_TrimSuffix (filepath_Base (Filename w)) suffix;
             MaxTotalSize := mul64 (MaxTotalSize w) MB |} in
        startLogger w
  end.

End File.

(** ** The console sink *)

Module Console.

Record consoleWriter := mkConsoleWriter {
  (* writer is os.Stdout *)
  LogLevel : string;
  Level : Z
}.

Definition println (cw : consoleWriter) (when : Time) (msg : string) : M unit :=
  (* Lock *)
  let (h, _) := formatTimeHeader when in
  gid <- getGID ;;
  let h := h +:+ "[" +:+ gid +:+ "]" in
  print_stdout (h +:+ msg +:+ nl)
  (* Unlock *).

Definition NewConsole : consoleWriter :=
  {| LogLevel := "DEBUG"; Level := DEBUG |}.

Definition schema : list (string * goType) :=
  [("logLevel", TString); ("Level", TInt)].

Definition json_Unmarshal (cfg : jsonConfig) (c : consoleWriter)
  : consoleWriter * option error :=
  match cfg with
  | JsonEmpty => (c, Some "unexpected end of JSON input")
  | JsonInvalid e => (c, Some e)
  | JsonObject ms =>
      ({| LogLevel := json_string "logLevel" ms (LogLevel c);
          Level := json_number TInt "Level" ms (Level c) |},
       json_type_error schema ms)
  end.

Definition Init (c : consoleWriter) (jsonConfig : jsonConfig)
  : M (consoleWriter * option error) :=
  match jsonConfig with
  | JsonEmpty => ret (c, None)
  | _ =>
      let (c, err) := json_Unmarshal jsonConfig c in
      ret ({| LogLevel := LogLevel c; Level := transLogLevel (LogLevel c) |}, err)
  end.

Definition WriteMsg (c : consoleWriter) (when : Time) (msg : string) (level : Z)
  : M (consoleWriter * option error) :=
  if level <? Level c then ret (c, None)
  else _ <- println c when msg ;; ret (c, None).

Definition Destroy (c : consoleWriter) : M consoleWriter := ret c.

Definition Flush (c : consoleWriter) : M unit := ret tt.

End Console.

(** ** log.go: the sink interface and the registry *)

(** [LoggerItf], over the state of the implementing type. *)
Class LoggerItf (S : Type) := {
  Init : S -> jsonConfig -> M (S * option error);
  WriteMsg : S -> Time -> string -> Z -> M (S * option error);
  Destroy : S -> M S;
  Flush : S -> M unit
}.

#[export] Instance fileLogWriter_LoggerItf : LoggerItf File.fileLogWriter := {
  Init := File.Init;
  WriteMsg := File.WriteMsg;
  Destroy := File.Destroy;
  Flush := File.Flush
}.

#[export] Instance consoleWriter_LoggerItf : LoggerItf Console.consoleWriter := {
  Init := Console.Init;
  WriteMsg := Console.WriteMsg;
  Destroy := Console.Destroy;
  Flush := Console.Flush
}.

(** A value of interface type: some implementation and its state. *)
Record sink := mkSink {
  sink_type : Type;
  sink_itf : LoggerItf sink_type;
  sink_state : sink_type
}.
Arguments mkSink {sink_type sink_itf} sink_state.

Definition sink_Init (s : sink) (config : jsonConfig) : M (sink * option error) :=
  r <- @Init _ (sink_itf s) (sink_state s) config ;;
  ret (@mkSink _ (sink_itf s) (fst r), snd r).

Definition sink_WriteMsg (s : sink) (t : Time) (msg : string) (level : Z)
  : M (sink * option error) :=
  r <- @WriteMsg _ (sink_itf s) (sink_state s) t msg level ;;
  ret (@mkSink _ (sink_itf s) (fst r), snd r).

Definition sink_Destroy (s : sink) : M sink :=
  st <- @Destroy _ (sink_itf s) (sink_state s) ;;
  ret (@mkSink _ (sink_itf s) st).

Definition sink_Flush (s : sink) : M unit :=
  @Flush _ (sink_itf s) (sink_state s).

(** [loggerType]: a factory makes a fresh sink. *)
Definition loggerType := unit -> sink.

Definition newFileWriter : loggerType := fun _ => mkSink File.newFileWriter.
Definition NewConsole : loggerType := fun _ => mkSink Console.NewConsole.

(** A call either returns or panics. *)
Inductive outcome (A : Type) :=
| Returned (a : A)
| Panicked (msg : string).
Arguments Returned {A} a.
Arguments Panicked {A} msg.

(** [Register] on the package variable [adapters]; a nil factory is [None]. *)
Definition Register (name : string) (log : option loggerType)
    (adapters : gmap string loggerType) (w : World)
  : outcome (gmap string loggerType * World) :=
  match log with
  | None => Panicked ("logs:Register is nil, name:" +:+ name)
  | Some log =>
      match adapters !! name with
      | Some _ =>
          let (_, w) := print_stdout ("logs:Register is dumplicated, name: " +:+ name +:+ nl) w in
          Returned (adapters, w)
      | None => Returned (<[name := log]> adapters, w)
      end
  end.

(** The other operation on the registry: the lookup of [setLogger]. *)
Definition lookup_adapter (name : string) (adapters : gmap string loggerType)
  : option loggerType := adapters !! name.

(** The registry once the [init] functions of the two sinks have run. *)
Definition init_adapters : gmap string loggerType :=
  <["file" := newFileWriter]> (<["console" := NewConsole]> ∅).

(** ** log.go: the dispatcher *)

Record logMsg := mkLogMsg {
  lm_level : Z;
  lm_msg : string;
  lm_time : Time
}.

Record nameLogger := mkNameLogger {
  nl_sink : sink;
  name : string
}.

Record Logger := mkLogger {
  level : Z;
  (** the buffered channels, oldest element first *)
  msgChan : list logMsg;
  signalChan : list string;
  outputs : list nameLogger;
  enableFuncCallDepth : bool;
  loggerFuncCallDepth : Z;
  asynchronous : bool
}.

Definition msgChan_cap : nat := Z.to_nat 10000.
Definition signalChan_cap : nat := 1.

Definition set_outputs (o : list nameLogger) (log : Logger) : Logger :=
  mkLogger (level log) (msgChan log) (signalChan log) o (enableFuncCallDepth log)
    (loggerFuncCallDepth log) (asynchronous log).
Definition set_msgChan (c : list logMsg) (log : Logger) : Logger :=
  mkLogger (level log) c (signalChan log) (outputs log) (enableFuncCallDepth log)
    (loggerFuncCallDepth log) (asynchronous log).
Definition set_signalChan (c : list string) (log : Logger) : Logger :=
  mkLogger (level log) (msgChan log) c (outputs log) (enableFuncCallDepth log)
    (loggerFuncCallDepth log) (asynchronous log).

Definition SetLevel (log : Logger) (l : Z) : Logger :=
  mkLogger l (msgChan log) (signalChan log) (outputs log) (enableFuncCallDepth log)
    (loggerFuncCallDepth log) (asynchronous log).
Definition SetLogFuncCallDepth (log : Logger) (d : Z) : Logger :=
  mkLogger (level log) (msgChan log) (signalChan log) (outputs log)
    (enableFuncCallDepth log) d (asynchronous log).
Definition GetLogFuncCallDepth (log : Logger) : Z := loggerFuncCallDepth log.
Definition EnableFuncCallDepth (log : Logger) (b : bool) : Logger :=
  mkLogger (level log) (msgChan log) (signalChan log) (outputs log) b
    (loggerFuncCallDepth log) (asynchronous log).


Definition setLogger (adapters : gmap string loggerType) (log : Logger)
    (logType : string) (config : jsonConfig) : M (Logger * option error) :=
  (* Lock; defer Unlock *)
  if existsb (fun l => bool_decide (name l = logType)) (outputs log) then
    ret (log, Some ("logs:dumplicate log type is being set, logType " +:+ quote logType))
  else
    match adapters !! logType with
    | None => ret (log, Some ("logs: unkown logType " +:+ quote logType))
    | Some logFun =>
        let logInstance := logFun tt in
        r <- sink_Init logInstance config ;;
        match r with
        | (_, Some err) =>
            ret (log, Some ("logs: SetLogger failed. error: " +:+ quote err))
        | (logInstance, None) =>
            ret (set_outputs (outputs log ++ [mkNameLogger logInstance logType]) log, None)
        end
    end.

Fixpoint DelLogger_loop (adapterName : string) (ls : list nameLogger)
  : M (list nameLogger) :=
  match ls with
  | [] => ret []
  | lg :: ls =>
      if decide (name lg = adapterName) then
        _ <- sink_Destroy (nl_sink lg) ;; DelLogger_loop adapterName ls
      else
        rest <- DelLogger_loop adapterName ls ;; ret (lg :: rest)
  end.

Definition DelLogger (log : Logger) (adapterName : string) : M (Logger * option error) :=
  (* Lock; defer Unlock *)
  outputs' <- DelLogger_loop adapterName (outputs log) ;;
  if (length outputs' =? length (outputs log))%nat then
    ret (log, Some ("logs: unknown adaptername " +:+ quote adapterName
                    +:+ " (forgotten Register?)"))
  else ret (set_outputs outputs' log, None).

(** The loop of [writeToLoggers] over the sinks; each sink is a pointer, so
    what its [WriteMsg] does to it stays in the list. *)
Fixpoint writeToLoggers_loop (ls : list nameLogger) (t : Time) (msg : string) (lvl : Z)
  : M (list nameLogger) :=
  match ls with
  | [] => ret []
  | l :: ls =>
      r <- sink_WriteMsg (nl_sink l) t msg lvl ;;
      _ <- match snd r with
           | Some err =>
               print_stderr ("unable to WriteMsg to adapter:" +:+ name l +:+ ",error:"
                             +:+ err +:+ nl)
           | None => ret tt
           end ;;
      rest <- writeToLoggers_loop ls t msg lvl ;;
      ret (mkNameLogger (fst r) (name l) :: rest)
  end.

Definition writeToLoggers (log : Logger) (t : Time) (msg : string) (lvl : Z) : M Logger :=
  o <- writeToLoggers_loop (outputs log) t msg lvl ;;
  ret (set_outputs o log).

(** [path.Split(file)], the second result. *)
Definition path_Split_file (file : string) : string := List.last (split_slash file) "".

(** A call on the dispatcher returns, or waits on a full channel. *)
Inductive run (A : Type) :=
| Ret (a : A)
| Blocks.
Arguments Ret {A} a.
Arguments Blocks {A}.

Definition writeMsg (log : Logger) (logLevel : Z) (msg : string)
  : M (run (Logger * option error)) :=
  when <- time_Now ;;
  msg <- (if enableFuncCallDepth log then
            fun w =>
              let (file, line) := default ("???", 0) (w_caller w (loggerFuncCallDepth log)) in
              let filename := path_Split_file file in
              ("[" +:+ filename +:+ ":" +:+ strconv_Itoa line +:+ "]" +:+ msg, w)
          else ret msg) ;;
  if asynchronous log then
    if (length (msgChan log) <? msgChan_cap)%nat then
      ret (Ret (set_msgChan (msgChan log ++ [mkLogMsg logLevel msg when]) log, None))
    else ret Blocks
  else
    log <- writeToLoggers log when msg logLevel ;;
    ret (Ret (log, None)).

(** The worker goroutine of [startLogger] takes whichever channel is ready:
    a message, or a signal. *)
Fixpoint flush_drain (msgs : list logMsg) (log : Logger) : M Logger :=
  match msgs with
  | [] => ret log
  | msg :: msgs =>
      log <- writeToLoggers (set_msgChan msgs log) (lm_time msg) (lm_msg msg) (lm_level msg) ;;
      flush_drain msgs log
  end.

Fixpoint flush_sinks (ls : list nameLogger) : M unit :=
  match ls with
  | [] => ret tt
  | l :: ls => _ <- sink_Flush (nl_sink l) ;; flush_sinks ls
  end.

Definition flush (log : Logger) : M Logger :=
  log <- flush_drain (msgChan log) log ;;
  _ <- flush_sinks (outputs log) ;;
  ret log.

Fixpoint destroy_sinks (ls : list nameLogger) : M unit :=
  match ls with
  | [] => ret tt
  | l :: ls => _ <- sink_Destroy (nl_sink l) ;; destroy_sinks ls
  end.

Definition worker_message (log : Logger) : M (run Logger) :=
  match msgChan log with
  | [] => ret Blocks
  | msg :: rest =>
      log <- writeToLoggers (set_msgChan rest log) (lm_time msg) (lm_msg msg) (lm_level msg) ;;
      ret (Ret log)
  end.

(** The second result tells whether the worker loop has ended. *)
Definition worker_signal (log : Logger) : M (run (Logger * bool)) :=
  match signalChan log with
  | [] => ret Blocks
  | sig :: rest =>
      log <- flush (set_signalChan rest log) ;;
      if decide (sig = "close") then
        _ <- destroy_sinks (outputs log) ;;
        ret (Ret (set_outputs [] log, true))
      else ret (Ret (log, false))
  end.

(** [Close] and [Flush]: in asynchronous mode the caller sends the signal
    and waits for the worker to have handled it. *)
Definition Close (log : Logger) : M (run Logger) :=
  if asynchronous log then
    if (length (signalChan log) <? signalChan_cap)%nat then
      r <- worker_signal (set_signalChan (signalChan log ++ ["close"]) log) ;;
      ret (match r with Ret (log, _) => Ret log | Blocks => Blocks end)
    else ret Blocks
  else
    log <- flush log ;;
    _ <- destroy_sinks (outputs log) ;;
    ret (Ret (set_outputs [] log)).


Section Facade.

(** Package fmt: the operands of a call and what [Sprintf] makes of them. *)
Variable operand : Type.
Variable fmt_Sprintf : string -> list operand -> string.

(** The five calls differ in their level and its name only. *)
Definition logf (lvl : Z) (tag : string) (log : Logger) (format : string)
    (v : list operand) : M (run Logger) :=
  if lvl <? level log then ret (Ret log)
  else
    let msg := fmt_Sprintf (tag +:+ format) v in
    r <- writeMsg log lvl msg ;;
    ret (match r with Ret (log, _) => Ret log | Blocks => Blocks end).

Definition Debug := logf DEBUG "[DEBUG] ".
Definition Info := logf INFO "[INFO] ".
Definition Warn := logf WARN "[WARN] ".
Definition Error := logf ERROR "[ERROR] ".
Definition Fatal := logf FATAL "[FATAL] ".

End Facade.

(** * Vocabulary of the statements *)

(** ** Decimal fields *)

Definition is_digit (c : ascii) : bool :=
  (48 <=? Z.of_N (N_of_ascii c)) && (Z.of_N (N_of_ascii c) <=? 57).

Fixpoint all_chars (P : ascii -> bool) (s : string) : bool :=
  match s with
  | EmptyString => true
  | String c r => P c && all_chars P r
  end.

(** The number a decimal field reads as. *)
Definition decimal_value (s : string) : option Z :=
  option_map Z.of_int (NilZero.int_of_string s).

Definition two_digits (z : Z) : string :=
  String (digit (z / 10)) (String (digit z) EmptyString).

Definition four_digits (z : Z) : string :=
  String (digit (z / 1000)) (String (digit (z / 100))
    (String (digit (z / 10)) (String (digit z) EmptyString))).

(** ** Traces and results *)

(** The events of [w'] that [w] does not have yet. *)
Definition new_events (w w' : World) : list event :=
  drop (length (w_trace w)) (w_trace w').

(** [c] only appends to the trace, and only events that satisfy [P]. *)
Definition emits {A : Type} (P : event -> Prop) (c : M A) : Prop :=
  forall w, exists evs, w_trace (snd (c w)) = w_trace w ++ evs /\ Forall P evs.

(** Whatever the world, [c] returns a value that satisfies [Q]. *)
Definition returns {A : Type} (Q : A -> Prop) (c : M A) : Prop :=
  forall w, Q (fst (c w)).

Definition is_write (e : event) : Prop :=
  match ev_call e with SysWrite _ _ => True | _ => False end.

Definition is_lstat (e : event) : Prop :=
  match ev_call e with SysLstat _ => True | _ => False end.

Definition is_remove (e : event) : Prop :=
  match ev_call e with SysRemove _ => True | _ => False end.

(** ** The file sink *)

(** The sink has been given a handle, as a successful [Init] does. *)
Definition has_handle (w : File.fileLogWriter) : Prop := is_Some (File.fileWriter w).

(** The line [WriteMsg] forms for a record: the header, the goroutine tag
    of a sink at level DEBUG, the message and a line feed. *)
Definition record_line (w : File.fileLogWriter) (when : Time) (msg : string)
    (world : World) : string :=
  File.format_line w (fst (formatTimeHeader when))
    (if File.Level w =? DEBUG then w_gid world else "") msg.

(** A rotation starts by the [Lstat] of the sink's file, and nothing else in
    the sink calls it on that path while writing. *)
Definition rotation_attempted (w : File.fileLogWriter) (world world' : World) : Prop :=
  exists ok, Ev (SysLstat (path_of (File.Filename w))) ok ∈ new_events world world'.

(** Some handle was given [line] to write. *)
Definition wrote_line (line : string) (world world' : World) : Prop :=
  exists p ok, Ev (SysWrite p line) ok ∈ new_events world world'.

(** No handle was given anything to write. *)
Definition wrote_nothing (world world' : World) : Prop :=
  Forall (fun e => ~ is_write e) (new_events world world').

(** The sink with another configured level name, all else equal. *)
Definition with_LogLevel (a : string) (w : File.fileLogWriter) : File.fileLogWriter :=
  File.mkFileLogWriter (File.Filename w) (File.fileWriter w) (File.MaxLines w)
    (File.maxLinesCurLines w) (File.MaxSize w) (File.maxSizeCurSize w) (File.Daily w)
    (File.MaxDays w) (File.dailyOpenDate w) (File.Rotate w) a (File.Level w) (File.Perm w)
    (File.fileNameOnly w) (File.MaxTotalSize w).

(** A configuration object that ends with a [logLevel] member. *)
Definition config_with_level (ms : list (string * json)) (s : string) : jsonConfig :=
  JsonObject (ms ++ [("logLevel", JString s)]).

(** [c] leaves the part [f] of the world as it is. *)
Definition keeps {A B : Type} (f : World -> B) (c : M A) : Prop :=
  forall w, f (snd (c w)) = f w.

(** ** The dispatcher *)

(** The five logging calls. *)
Inductive entry := EDebug | EInfo | EWarn | EError | EFatal.

Definition entry_level (e : entry) : Z :=
  match e with
  | EDebug => DEBUG | EInfo => INFO | EWarn => WARN | EError => ERROR | EFatal => FATAL
  end.

Definition entry_call (operand : Type) (fmt_Sprintf : string -> list operand -> string)
    (e : entry) : Logger -> string -> list operand -> M (run Logger) :=
  match e with
  | EDebug => Debug operand fmt_Sprintf
  | EInfo => Info operand fmt_Sprintf
  | EWarn => Warn operand fmt_Sprintf
  | EError => Error operand fmt_Sprintf
  | EFatal => Fatal operand fmt_Sprintf
  end.

(** The line on the diagnostic stream for a sink whose write failed. *)
Definition report_line (l : nameLogger) (err : error) : string :=
  "unable to WriteMsg to adapter:" +:+ name l +:+ ",error:" +:+ err +:+ nl.

(** Delivery of one record to the sinks of a list: the first sink is called
    on the world as it is, its failure if any is reported, and the rest of
    the list is served from the world this leaves, whatever the first sink
    returned. *)
Inductive Fanout (t : Time) (msg : string) (lvl : Z)
  : list nameLogger -> World -> list nameLogger -> World -> Prop :=
| Fanout_nil (w : World) : Fanout t msg lvl [] w [] w
| Fanout_cons (l : nameLogger) (ls ls' : list nameLogger) (s' : sink)
    (err : option error) (w w1 w3 : World) :
    sink_WriteMsg (nl_sink l) t msg lvl w = ((s', err), w1) ->
    Fanout t msg lvl ls
      (match err with
       | Some e => set_stderr (w_stderr w1 ++ [report_line l e]) w1
       | None => w1
       end) ls' w3 ->
    Fanout t msg lvl (l :: ls) w (mkNameLogger s' (name l) :: ls') w3.

(** The record a logging call hands to the sinks: the formatted text behind
    the tag of the level, and before them the call site when that is on. *)
Definition record_text (operand : Type) (fmt_Sprintf : string -> list operand -> string)
    (tag : string) (log : Logger) (format : string) (v : list operand) (world : World)
  : string :=
  let msg := fmt_Sprintf (tag +:+ format) v in
  if enableFuncCallDepth log then
    let (file, line) := default ("???", 0) (w_caller world (loggerFuncCallDepth log)) in
    "[" +:+ path_Split_file file +:+ ":" +:+ strconv_Itoa line +:+ "]" +:+ msg
  else msg.

Definition entry_tag (e : entry) : string :=
  match e with
  | EDebug => "[DEBUG] " | EInfo => "[INFO] " | EWarn => "[WARN] "
  | EError => "[ERROR] " | EFatal => "[FATAL] "
  end.

(** The line the console sink prints for a record. *)
Definition console_line (when : Time) (msg : string) (world : World) : string :=
  (fst (formatTimeHeader when) +:+ "[" +:+ w_gid world +:+ "]") +:+ msg +:+ nl.

(** ** The counters of the file sink *)

(** The sink holds an open handle on its file, the byte counter is the size
    of the file and the line counter the number of line feeds in it. *)
Definition counters_ok (w : File.fileLogWriter) (world : World) : Prop :=
  exists fd content mtime,
    File.fileWriter w = Some fd /\ f_closed fd = false /\
    f_path fd = path_of (File.Filename w) /\
    w_fs world !! f_path fd = Some (NFile content mtime) /\
    File.maxSizeCurSize w = len content /\
    File.maxLinesCurLines w = count_newlines content.

(** The operating system refuses no call. *)
Definition no_faults (world : World) : Prop := forall c, w_fault world c = false.

(** The file of the sink, if any, has a size that fits the counter. *)
Definition file_fits (w : File.fileLogWriter) (world : World) : Prop :=
  forall content mtime,
    w_fs world !! path_of (File.Filename w) = Some (NFile content mtime) ->
    len content < 2 ^ 63.

(** ** A running example *)

(** 27 April 2016, 10:18:51.453993 *)
Definition example_time : Time :=
  {| t_unix := 1461752331; t_nsec := 453993000; t_year := 2016; t_month := 4;
     t_day := 27; t_hour := 10; t_minute := 18; t_second := 51 |}.

(** An empty working directory, an operating system that refuses nothing and
    a clock that stands still. *)
Definition example_world : World :=
  {| w_fs := ∅; w_fault := fun _ => false; w_trace := []; w_stdout := [];
     w_stderr := []; w_clock := fun _ => example_time; w_tick := 0%nat;
     w_gid := "7"; w_caller := fun _ => None; w_spawned := [] |}.

Definition example_config : jsonConfig := JsonObject [("filename", JString "app.log")].

(** The file sink with its defaults on [app.log], once initialised. *)
Definition example_sink : File.fileLogWriter :=
  fst (fst (File.Init File.newFileWriter example_config example_world)).

Definition example_sink_world : World :=
  snd (File.Init File.newFileWriter example_config example_world).

(** ** Compression *)

(** There is a regular file at [p]. *)
Definition is_file (world : World) (p : path) : Prop :=
  exists c m, w_fs world !! p = Some (NFile c m).

(** A call that leaves exactly one event. *)
Definition one_event {A : Type} (call : syscall) (c : M A) : Prop :=
  forall w, exists ok, w_trace (snd (c w)) = w_trace w ++ [Ev call ok].

(** The source stays a file that may be removed. *)
Definition removable (source : path) (world : World) : Prop :=
  is_file world source /\ w_fault world (SysRemove source) = false.

Definition preserves {A : Type} (I : World -> Prop) (c : M A) : Prop :=
  forall w, I w -> I (snd (c w)).

(** A rotated file in a directory where the name of the archive is taken by
    a directory. *)
Definition blocked_world : World :=
  {| w_fs := <[ ["app.1.log"] := NFile "old records" example_time ]>
             (<[ ["app.1.zip"] := NDir example_time ]> ∅);
     w_fault := fun _ => false; w_trace := []; w_stdout := [];
     w_stderr := []; w_clock := fun _ => example_time; w_tick := 0%nat;
     w_gid := "7"; w_caller := fun _ => None; w_spawned := [] |}.

(** A stand-in for the gzip stream of an entry. *)
Definition example_gzip (name data : string) : string := name +:+ ":" +:+ data.

(** A stand-in for [fmt.Sprintf] on string operands. *)
Definition example_Sprintf (format : string) (v : list string) : string :=
  format +:+ String.concat " " v.

(** A synchronous dispatcher at level INFO with the file sink of the example
    and a console sink. *)
Definition example_logger : Logger :=
  {| level := INFO; msgChan := []; signalChan := [];
     outputs := [mkNameLogger (mkSink example_sink) "file";
                 mkNameLogger (mkSink Console.NewConsole) "console"];
     enableFuncCallDepth := false; loggerFuncCallDepth := 2;
     asynchronous := false |}.

(** 28 April 2016, the day after the example, and 27 May 2016, a month
    after it. *)
Definition next_day : Time :=
  {| t_unix := 1461838731; t_nsec := 0; t_year := 2016; t_month := 4;
     t_day := 28; t_hour := 10; t_minute := 18; t_second := 51 |}.

Definition next_month : Time :=
  {| t_unix := 1464344331; t_nsec := 0; t_year := 2016; t_month := 5;
     t_day := 27; t_hour := 10; t_minute := 18; t_second := 51 |}.

(** The calendar day of a time. *)
Definition calendar_day (t : Time) : Z * Z * Z := (t_year t, t_month t, t_day t).

(** ** Retention *)

(** The size the loop of the size rule has accumulated after the files
    recorded under [keys], from [acc]. *)
Definition deleted_size (st : File.walkState) (acc : Z) (keys : list string) : Z :=
  foldl (fun acc k => add64 acc (from_option fi_Size 0 (File.fileTimeMap st !! k))) acc keys.

(** [e] is the removal of the file recorded under the key [k], addressed by
    the directory of the sink and the name of the file. *)
Definition removes_recorded (dir : path) (st : File.walkState) (e : event) (k : string)
  : Prop :=
  exists info, File.fileTimeMap st !! k = Some info /\
               ev_call e = SysRemove (filepath_Join dir (fi_Name info)).

(** Every key of the list is a key of the map. *)
Definition keys_recorded (st : File.walkState) : Prop :=
  forall k, k ∈ File.timeKeys st -> is_Some (File.fileTimeMap st !! k).

(** Three days before the example, two days and one day before it. *)
Definition day24 : Time :=
  {| t_unix := 1461493131; t_nsec := 0; t_year := 2016; t_month := 4;
     t_day := 24; t_hour := 10; t_minute := 18; t_second := 51 |}.
Definition day25 : Time :=
  {| t_unix := 1461579531; t_nsec := 0; t_year := 2016; t_month := 4;
     t_day := 25; t_hour := 10; t_minute := 18; t_second := 51 |}.
Definition day26 : Time :=
  {| t_unix := 1461665931; t_nsec := 0; t_year := 2016; t_month := 4;
     t_day := 26; t_hour := 10; t_minute := 18; t_second := 51 |}.

(** The sink on [app.log] with a budget of 10 MB. *)
Definition budget_config : jsonConfig :=
  JsonObject [("filename", JString "app.log"); ("maxTotalSize", JNumber 10)].

Definition budget_sink : File.fileLogWriter :=
  fst (fst (File.Init File.newFileWriter budget_config example_world)).

(** The files A (oldest, 5 MB), B (7 MB) and C (newest, 3 MB), as the walk
    reports them; by name B comes first and A last. *)
Definition file_A : FileInfo :=
  {| fi_Name := "app.3.zip"; fi_Size := 5 * MB; fi_ModTime := day24; fi_IsDir := false |}.
Definition file_B : FileInfo :=
  {| fi_Name := "app.1.zip"; fi_Size := 7 * MB; fi_ModTime := day25; fi_IsDir := false |}.
Definition file_C : FileInfo :=
  {| fi_Name := "app.2.zip"; fi_Size := 3 * MB; fi_ModTime := day26; fi_IsDir := false |}.

Definition entries_ABC : list (path * option FileInfo) :=
  [(["app.1.zip"], Some file_B); (["app.2.zip"], Some file_C); (["app.3.zip"], Some file_A)].

(** What the callback has gathered after the three files. *)
Definition walked_ABC : File.walkState * World :=
  File.forEach (File.walkFn budget_sink) entries_ABC (File.mkWalkState 0 ∅ []) example_world.

(** The same three files scaled to bytes, in a directory [logs]: A holds 5
    bytes, B 7 and C 3. *)
Definition scaled_world : World :=
  {| w_fs := <[ ["logs"] := NDir day24 ]>
             (<[ ["logs"; "app.3.zip"] := NFile "AAAAA" day24 ]>
             (<[ ["logs"; "app.1.zip"] := NFile "BBBBBBB" day25 ]>
             (<[ ["logs"; "app.2.zip"] := NFile "CCC" day26 ]> ∅)));
     w_fault := fun _ => false; w_trace := []; w_stdout := [];
     w_stderr := []; w_clock := fun _ => example_time; w_tick := 0%nat;
     w_gid := "7"; w_caller := fun _ => None; w_spawned := [] |}.

Definition scaled_config : jsonConfig := JsonObject [("filename", JString "logs/app.log")].

(** The sink on [logs/app.log] with a budget of 10 bytes. *)
Definition scaled_sink : File.fileLogWriter :=
  let w := fst (fst (File.Init File.newFileWriter scaled_config scaled_world)) in
  File.mkFileLogWriter (File.Filename w) (File.fileWriter w) (File.MaxLines w)
    (File.maxLinesCurLines w) (File.MaxSize w) (File.maxSizeCurSize w) (File.Daily w)
    (File.MaxDays w) (File.dailyOpenDate w) (File.Rotate w) (File.LogLevel w) (File.Level w)
    (File.Perm w) (File.fileNameOnly w) 10.

Definition scaled_sink_world : World :=
  snd (File.Init File.newFileWriter scaled_config scaled_world).

(** A log directory with a file of the sink's prefix in a subdirectory and
    an empty directory of the same name next to the log file. *)
Definition nested_world : World :=
  {| w_fs := <[ ["logs"] := NDir day24 ]>
             (<[ ["logs"; "app.log"] := NFile "current" day26 ]>
             (<[ ["logs"; "app.old"] := NDir day25 ]>
             (<[ ["logs"; "sub"] := NDir day24 ]>
             (<[ ["logs"; "sub"; "app.old"] := NFile "older records" day25 ]> ∅))));
     w_fault := fun _ => false; w_trace := []; w_stdout := [];
     w_stderr := []; w_clock := fun _ => example_time; w_tick := 0%nat;
     w_gid := "7"; w_caller := fun _ => None; w_spawned := [] |}.

Definition nested_config : jsonConfig :=
  JsonObject [("filename", JString "logs/app.log"); ("maxTotalSize", JNumber 0)].

Definition nested_sink : File.fileLogWriter :=
  fst (fst (File.Init File.newFileWriter nested_config nested_world)).

Definition nested_sink_world : World :=
  snd (File.Init File.newFileWriter nested_config nested_world).

(** ** The dispatcher without sinks *)

Definition empty_logger : Logger :=
  {| level := DEBUG; msgChan := []; signalChan := []; outputs := [];
     enableFuncCallDepth := false; loggerFuncCallDepth := 2; asynchronous := false |}.

(** The sink with rotation switched off, all else equal. *)
Definition set_Rotate_off (w : File.fileLogWriter) : File.fileLogWriter :=
  File.mkFileLogWriter (File.Filename w) (File.fileWriter w) (File.MaxLines w)
    (File.maxLinesCurLines w) (File.MaxSize w) (File.maxSizeCurSize w) (File.Daily w)
    (File.MaxDays w) (File.dailyOpenDate w) false (File.LogLevel w) (File.Level w)
    (File.Perm w) (File.fileNameOnly w) (File.MaxTotalSize w).

(** ** Rotation *)

(** The name a rotation at [when] gives: the stem of the sink's file, the
    time and the extension, in the directory of the file. *)
Definition rotated_path (w : File.fileLogWriter) (when : Time) (ext : string) : path :=
  let n := File.fileNameOnly w +:+ "." +:+ time_Format LOG_PATTERN when +:+ ext in
  if decide (filepath_Dir (File.Filename w) <> [])
  then filepath_Join (filepath_Dir (File.Filename w)) n
  else [n].

(** The sink of the example after one record. *)
Definition written_sink : File.fileLogWriter :=
  fst (fst (File.WriteMsg example_sink example_time "started" INFO example_sink_world)).

Definition written_world : World :=
  snd (File.WriteMsg example_sink example_time "started" INFO example_sink_world).

(** ** What retention touches *)

(** The calls of retention: [Lstat], and [Remove] of a name that has the
    prefix of the sink. *)
Definition retention_event (w : File.fileLogWriter) (e : event) : Prop :=
  match ev_call e with
  | SysLstat _ => True
  | SysRemove q => strings_HasPrefix (List.last q ".") (File.fileNameOnly w) = true
  | _ => False
  end.

(** Every file the callback has recorded has the prefix of the sink. *)
Definition names_have_prefix (w : File.fileLogWriter) (st : File.walkState) : Prop :=
  forall k info, File.fileTimeMap st !! k = Some info ->
                 strings_HasPrefix (fi_Name info) (File.fileNameOnly w) = true.

(** An entry as [Walk] reports it: the name in the [FileInfo] is the last
    element of the path. *)
Definition named_by_path (v : path * option FileInfo) : Prop :=
  match v with
  | (q, Some info) => fi_Name info = List.last q "."
  | (_, None) => True
  end.

(** What the walk keeps for an entry at [p]: the recorded names have the
    prefix, and the entry is there. *)
Definition spared (w : File.fileLogWriter) (p : path) (n : node)
    (st : File.walkState) (world : World) : Prop :=
  names_have_prefix w st /\ w_fs world !! p = Some n.

(** ** The age rule *)

(** The file at [p] is there as it was, nothing is refused and the clock is
    the one of [world]. *)
Definition present (p : path) (c : string) (m : Time) (world wd : World) : Prop :=
  no_faults wd /\ w_fs wd !! p = Some (NFile c m) /\ w_clock wd = w_clock world.

Definition gone (p : path) (wd : World) : Prop := w_fs wd !! p = None.

(** 7 April 2016, more than seven days before the example, and a directory
    with a file of that time. *)
Definition old_time : Time :=
  {| t_unix := 1460024331; t_nsec := 0; t_year := 2016; t_month := 4;
     t_day := 7; t_hour := 10; t_minute := 18; t_second := 51 |}.

Definition aged_world : World :=
  {| w_fs := <[ ["logs"] := NDir day24 ]>
             (<[ ["logs"; "app.old.zip"] := NFile "old" old_time ]> ∅);
     w_fault := fun _ => false; w_trace := []; w_stdout := [];
     w_stderr := []; w_clock := fun _ => example_time; w_tick := 0%nat;
     w_gid := "7"; w_caller := fun _ => None; w_spawned := [] |}.

Definition aged_sink : File.fileLogWriter :=
  fst (fst (File.Init File.newFileWriter scaled_config aged_world)).

Definition aged_sink_world : World :=
  snd (File.Init File.newFileWriter scaled_config aged_world).

(** ** The order of the retention keys *)

(** The civil date and time of [t] as one number: year, month, day, hour,
    minute and second, two decimal places each below the year.  On
    well-formed times it orders as the calendar does. *)
Definition civil_stamp (t : Time) : Z :=
  ((((t_year t * 100 + t_month t) * 100 + t_day t) * 100 + t_hour t) * 100
   + t_minute t) * 100 + t_second t.

(** Two modification times of the example, a second apart across a change of
    year. *)
Definition old_year : Time := mkTime 1451606399 0 2015 12 31 23 59 59.
Definition new_year : Time := mkTime 1451606400 0 2016 1 1 0 0 0.

(** * Proofs *)

Import File.

(** * Machine integers *)

Lemma wrap64_id z : int64_range z -> wrap64 z = z.
Proof.
  unfold int64_range, wrap64. intros H.
  rewrite Z.mod_small by lia. lia.
Qed.

(** * Decimal output *)

Lemma all_chars_app P s1 s2 :
  all_chars P (s1 +:+ s2) = all_chars P s1 && all_chars P s2.
Proof. induction s1 as [|c s1 IH]; simpl; [done|]. rewrite IH. by rewrite andb_assoc. Qed.

Lemma all_chars_impl (P Q : ascii -> bool) s :
  (forall c, P c = true -> Q c = true) -> all_chars P s = true -> all_chars Q s = true.
Proof.
  intros H. induction s as [|c s IH]; simpl; [done|].
  intros [Hc Hs]%andb_prop. rewrite (H _ Hc), IH; done.
Qed.

Lemma string_of_uint_digits d : all_chars is_digit (NilEmpty.string_of_uint d) = true.
Proof. induction d; simpl; rewrite ?IHd; reflexivity. Qed.

Lemma NilZero_string_of_uint_digits d :
  all_chars is_digit (NilZero.string_of_uint d) = true.
Proof.
  destruct d; [reflexivity| ..];
    match goal with
    | |- all_chars _ (NilZero.string_of_uint ?x) = _ => exact (string_of_uint_digits x)
    end.
Qed.

Lemma Itoa_digits z : 0 <= z -> all_chars is_digit (strconv_Itoa z) = true.
Proof.
  intros Hz. unfold strconv_Itoa.
  destruct z as [|p|p]; [reflexivity| |lia].
  apply NilZero_string_of_uint_digits.
Qed.

Lemma Itoa_value z : decimal_value (strconv_Itoa z) = Some z.
Proof.
  unfold decimal_value, strconv_Itoa.
  rewrite NilZero.isi.
  - simpl. f_equal. apply DecimalZ.of_to.
  - destruct z; simpl; try discriminate.
    intros [= H]. by apply Unsigned.to_uint_nonnil in H.
  - destruct z; simpl; try discriminate.
    intros [= H]. by apply Unsigned.to_uint_nonnil in H.
Qed.

Lemma forall_below (P : Z -> bool) (n : Z) :
  forallb (fun k => P (Z.of_nat k)) (seq 0 (Z.to_nat n)) = true ->
  forall z, 0 <= z < n -> P z = true.
Proof.
  intros H z Hz. rewrite forallb_forall in H.
  specialize (H (Z.to_nat z)). rewrite Z2Nat.id in H by lia.
  apply H, in_seq. lia.
Qed.

Lemma pad2_two_digits z : 0 <= z <= 99 -> pad2 z = two_digits z.
Proof.
  intros Hz.
  apply String.eqb_eq.
  apply (forall_below (fun z => String.eqb (pad2 z) (two_digits z)) 100); [|lia].
  vm_compute. reflexivity.
Qed.

Lemma pad4_four_digits z : 0 <= z <= 9999 -> pad4 z = four_digits z.
Proof.
  intros Hz.
  apply String.eqb_eq.
  apply (forall_below (fun z => String.eqb (pad4 z) (four_digits z)) 10000); [|lia].
  vm_compute. reflexivity.
Qed.

Lemma formatTimeHeader_digits (when : Time) :
  wf_time when ->
  fst (formatTimeHeader when) =
    "[" +:+ four_digits (t_year when) +:+ "-" +:+ two_digits (t_month when) +:+ "-"
        +:+ two_digits (t_day when) +:+ " " +:+ two_digits (t_hour when) +:+ ":"
        +:+ two_digits (t_minute when) +:+ ":" +:+ two_digits (t_second when) +:+ "."
        +:+ strconv_Itoa (t_nsec when / 1000) +:+ "]".
Proof.
  intros (Hn & Hy & Hmo & Hd & Hh & Hmi & Hs).
  unfold formatTimeHeader, go_div. cbn [fst time_Format].
  rewrite Z.quot_div_nonneg by lia.
  rewrite pad4_four_digits, !pad2_two_digits by lia.
  reflexivity.
Qed.

(** * What a call adds to the trace *)

Lemma emits_new_events {A : Type} (P : event -> Prop) (c : M A) w :
  emits P c ->
  w_trace (snd (c w)) = w_trace w ++ new_events w (snd (c w)) /\
  Forall P (new_events w (snd (c w))).
Proof.
  intros H. destruct (H w) as (evs & E & HP). unfold new_events.
  rewrite E, drop_app_length. done.
Qed.

Lemma emits_impl {A : Type} (P Q : event -> Prop) (c : M A) :
  (forall e, P e -> Q e) -> emits P c -> emits Q c.
Proof.
  intros HPQ H w. destruct (H w) as (evs & E & HP).
  exists evs. split; [done|]. eapply Forall_impl; eauto.
Qed.

Lemma emits_ret {A : Type} P (a : A) : emits P (ret a).
Proof. intros w. exists []. simpl. by rewrite app_nil_r. Qed.

Lemma emits_bind {A B : Type} P (c : M A) (k : A -> M B) :
  emits P c -> (forall a, emits P (k a)) -> emits P (bind c k).
Proof.
  intros Hc Hk w. unfold bind. destruct (Hc w) as (e1 & E1 & H1).
  destruct (c w) as [a w']. simpl in E1.
  destruct (Hk a w') as (e2 & E2 & H2).
  exists (e1 ++ e2). rewrite E2, E1, app_assoc. split; [done|].
  by apply Forall_app.
Qed.

Lemma emits_sys {A : Type} (P : event -> Prop) c ok (a : A) :
  P (Ev c ok) -> emits P (sys c ok a).
Proof. intros H w. exists [Ev c ok]. simpl. split; [done|]. by constructor. Qed.

Lemma emits_sys_fs {A : Type} (P : event -> Prop) c ok (a : A) fs w :
  P (Ev c ok) ->
  exists evs, w_trace (snd (sys c ok a (set_fs fs w))) = w_trace w ++ evs /\ Forall P evs.
Proof. intros H. exists [Ev c ok]. simpl. split; [done|]. by constructor. Qed.

Lemma emits_silent {A : Type} (P : event -> Prop) (c : M A) :
  (forall w, w_trace (snd (c w)) = w_trace w) -> emits P c.
Proof. intros H w. exists []. rewrite H, app_nil_r. done. Qed.

Ltac prim_emits :=
  intros HP w;
  cbv beta delta [os_OpenFile os_Open os_Create os_Lstat File_Stat File_Write
    File_ReadAll File_Close File_Sync os_Rename os_Remove]; cbv zeta;
  repeat case_match;
  first [ apply emits_sys; apply HP | apply emits_sys_fs; apply HP ].

Section Primitives.
Context (P : event -> Prop).

Lemma emits_os_OpenFile p : (forall ok, P (Ev (SysOpenFile p) ok)) -> emits P (os_OpenFile p).
Proof. prim_emits. Qed.
Lemma emits_os_Open p : (forall ok, P (Ev (SysOpen p) ok)) -> emits P (os_Open p).
Proof. prim_emits. Qed.
Lemma emits_os_Create p : (forall ok, P (Ev (SysCreate p) ok)) -> emits P (os_Create p).
Proof. prim_emits. Qed.
Lemma emits_os_Lstat p : (forall ok, P (Ev (SysLstat p) ok)) -> emits P (os_Lstat p).
Proof. prim_emits. Qed.
Lemma emits_File_Stat f : (forall ok, P (Ev (SysStat (f_path f)) ok)) -> emits P (File_Stat f).
Proof. prim_emits. Qed.
Lemma emits_File_Write f d :
  (forall ok, P (Ev (SysWrite (f_path f) d) ok)) -> emits P (File_Write f d).
Proof. prim_emits. Qed.
Lemma emits_File_ReadAll f :
  (forall ok, P (Ev (SysRead (f_path f)) ok)) -> emits P (File_ReadAll f).
Proof. prim_emits. Qed.
Lemma emits_File_Close f :
  (forall ok, P (Ev (SysClose (f_path f)) ok)) -> emits P (File_Close f).
Proof. prim_emits. Qed.
Lemma emits_File_Sync f :
  (forall ok, P (Ev (SysSync (f_path f)) ok)) -> emits P (File_Sync f).
Proof. prim_emits. Qed.
Lemma emits_os_Rename p q :
  (forall ok, P (Ev (SysRename p q) ok)) -> emits P (os_Rename p q).
Proof. prim_emits. Qed.
Lemma emits_os_Remove p : (forall ok, P (Ev (SysRemove p) ok)) -> emits P (os_Remove p).
Proof. prim_emits. Qed.
Lemma emits_print_stderr s : emits P (print_stderr s).
Proof. by apply emits_silent. Qed.
Lemma emits_print_stdout s : emits P (print_stdout s).
Proof. by apply emits_silent. Qed.
Lemma emits_time_Now : emits P time_Now.
Proof. by apply emits_silent. Qed.
Lemma emits_getGID : emits P getGID.
Proof. by apply emits_silent. Qed.
Lemma emits_go_spawn t : emits P (go_spawn t).
Proof. by apply emits_silent. Qed.

End Primitives.

Create HintDb emits.
#[export] Hint Resolve emits_ret emits_print_stderr emits_print_stdout emits_time_Now
  emits_getGID emits_go_spawn : emits.

(** One step through a computation whose parts are known to emit [P]. *)
Ltac emits_step :=
  first
    [ solve [eauto with emits]
    | apply emits_ret
    | apply emits_bind; [|intros ?]
    | match goal with
      | |- emits _ (match ?x with _ => _ end) => destruct x
      | |- emits _ (if ?x then _ else _) => destruct x
      | |- emits _ (let (_, _) := ?x in _) => destruct x
      end
    | progress cbv zeta
    | apply emits_os_OpenFile | apply emits_os_Open | apply emits_os_Create
    | apply emits_os_Lstat | apply emits_File_Stat | apply emits_File_Write
    | apply emits_File_ReadAll | apply emits_File_Close | apply emits_File_Sync
    | apply emits_os_Rename | apply emits_os_Remove ].

Ltac emits_tac := repeat emits_step.

(** ** The file sink writes nothing but in the write block *)

Lemma emits_lines P w :
  (forall e, ~ is_write e -> P e) -> emits P (lines w).
Proof. intros H. unfold lines. emits_tac; intros; apply H; simpl; tauto. Qed.
#[export] Hint Resolve emits_lines : emits.

Lemma emits_initFd P w :
  (forall e, ~ is_write e -> P e) -> emits P (initFd w).
Proof.
  intros H. unfold initFd. emits_tac; intros; apply H; simpl; tauto.
Qed.
#[export] Hint Resolve emits_initFd : emits.

Lemma emits_close_fileWriter P w :
  (forall e, ~ is_write e -> P e) -> emits P (close_fileWriter w).
Proof. intros H. unfold close_fileWriter. emits_tac; intros; apply H; simpl; tauto. Qed.
#[export] Hint Resolve emits_close_fileWriter : emits.

Lemma emits_startLogger P w :
  (forall e, ~ is_write e -> P e) -> emits P (startLogger w).
Proof.
  intros H. unfold startLogger, createLogFile. emits_tac; intros; apply H; simpl; tauto.
Qed.
#[export] Hint Resolve emits_startLogger : emits.

Lemma emits_doRotate P w t :
  (forall e, ~ is_write e -> P e) -> emits P (doRotate w t).
Proof.
  intros H. unfold doRotate. emits_tac; intros; apply H; simpl; tauto.
Qed.
#[export] Hint Resolve emits_doRotate : emits.

(** * What a call returns *)

Lemma returns_ret {A : Type} (Q : A -> Prop) a : Q a -> returns Q (ret a).
Proof. intros H w. exact H. Qed.

Lemma returns_bind {A B : Type} (Q1 : A -> Prop) (Q : B -> Prop) (c : M A) (k : A -> M B) :
  returns Q1 c -> (forall a, Q1 a -> returns Q (k a)) -> returns Q (bind c k).
Proof.
  intros Hc Hk w. unfold bind. specialize (Hc w).
  destruct (c w) as [a w']. by apply Hk.
Qed.

Lemma returns_any {A : Type} (c : M A) : returns (fun _ => True) c.
Proof. by intros w. Qed.

(** ** The handle of the sink stays non-nil *)

Lemma close_fileWriter_handle w :
  has_handle w -> returns has_handle (close_fileWriter w).
Proof.
  intros [fd H] world. unfold close_fileWriter. rewrite H.
  unfold bind. destruct (File_Close fd world) as [[fd' e] world']. simpl.
  unfold has_handle. simpl. eauto.
Qed.

Lemma initFd_handle w :
  has_handle w -> returns (fun r => has_handle (fst r)) (initFd w).
Proof.
  intros [fd H]. unfold initFd. rewrite H.
  eapply returns_bind; [apply returns_any|]. intros [info|e] _.
  - eapply returns_bind; [apply returns_any|]. intros now _. cbv zeta.
    destruct (0 <? fi_Size info).
    + eapply returns_bind; [apply returns_any|]. intros [count [e|]] _;
        apply returns_ret; unfold has_handle; simpl; rewrite H; eauto.
    + apply returns_ret. unfold has_handle; simpl; rewrite H; eauto.
  - apply returns_ret. unfold has_handle; simpl; rewrite H; eauto.
Qed.

Lemma startLogger_handle w :
  has_handle w -> returns (fun r => has_handle (fst r)) (startLogger w).
Proof.
  intros Hw. unfold startLogger.
  eapply returns_bind; [apply returns_any|]. intros [file|e] _.
  - eapply returns_bind; [apply returns_any|]. intros w' _.
    apply initFd_handle. unfold has_handle. simpl. eauto.
  - by apply returns_ret.
Qed.

Lemma doRotate_handle w t :
  has_handle w -> returns (fun r => has_handle (fst r)) (doRotate w t).
Proof.
  intros Hw. unfold doRotate.
  eapply returns_bind; [apply returns_any|]. intros [info|e] _; [|by apply returns_ret].
  cbv zeta.
  eapply returns_bind; [by apply close_fileWriter_handle|]. intros w1 H1.
  eapply returns_bind; [apply returns_any|]. intros renameErr _.
  eapply returns_bind; [by apply startLogger_handle|]. intros [w2 e2] H2.
  eapply returns_bind; [apply returns_any|]. intros _ _.
  destruct e2, renameErr; by apply returns_ret.
Qed.

Lemma WriteMsg_rotate_handle w t line d :
  has_handle w -> returns has_handle (WriteMsg_rotate w t line d).
Proof.
  intros Hw. unfold WriteMsg_rotate.
  destruct (Rotate w); [|by apply returns_ret].
  destruct (needRotate w (len line) d); [|by apply returns_ret].
  eapply returns_bind; [by apply doRotate_handle|]. intros [w1 [e|]] H1.
  - eapply returns_bind; [apply returns_any|]. intros _ _. by apply returns_ret.
  - by apply returns_ret.
Qed.

(** ** The rotation block *)

Lemma os_Lstat_event p w :
  exists ok, w_trace (snd (os_Lstat p w)) = w_trace w ++ [Ev (SysLstat p) ok].
Proof. unfold os_Lstat. cbv zeta. repeat case_match; eexists; reflexivity. Qed.

Lemma bind_first_event {A B : Type} (P : event -> Prop) (c : M A) (k : A -> M B) w ev :
  w_trace (snd (c w)) = w_trace w ++ [ev] ->
  (forall a, emits P (k a)) ->
  exists rest, w_trace (snd (bind c k w)) = w_trace w ++ ev :: rest /\ Forall P rest.
Proof.
  intros E Hk. unfold bind. destruct (c w) as [a w1]. simpl in E.
  destruct (Hk a w1) as (evs & E2 & HF).
  exists evs. rewrite E2, E, <- app_assoc. done.
Qed.

Lemma doRotate_events w t world :
  exists ok rest,
    w_trace (snd (doRotate w t world)) =
      w_trace world ++ Ev (SysLstat (path_of (Filename w))) ok :: rest /\
    Forall (fun e => ~ is_write e) rest.
Proof.
  destruct (os_Lstat_event (path_of (Filename w)) world) as [ok E].
  exists ok. unfold doRotate.
  eapply bind_first_event; [exact E|].
  intros r. emits_tac; simpl; tauto.
Qed.

Lemma WriteMsg_rotate_no w t line d world :
  Rotate w && needRotate w (len line) d = false ->
  WriteMsg_rotate w t line d world = (w, world).
Proof.
  intros H. unfold WriteMsg_rotate.
  destruct (Rotate w); [|reflexivity].
  simpl in H. rewrite H. reflexivity.
Qed.

Lemma WriteMsg_rotate_yes w t line d world :
  Rotate w && needRotate w (len line) d = true ->
  exists ok rest,
    w_trace (snd (WriteMsg_rotate w t line d world)) =
      w_trace world ++ Ev (SysLstat (path_of (Filename w))) ok :: rest /\
    Forall (fun e => ~ is_write e) rest.
Proof.
  intros [HR HN]%andb_prop. unfold WriteMsg_rotate. rewrite HR, HN.
  unfold bind at 1.
  destruct (doRotate_events w t world) as (ok & rest & E & HF).
  destruct (doRotate w t world) as [[w1 e] world1]. simpl in E.
  exists ok, rest. destruct e; simpl; rewrite E; done.
Qed.

(** ** The write block *)

Lemma WriteMsg_write_nil w line world :
  fileWriter w = None ->
  WriteMsg_write w line world = ((w, Some "invalid argument"), world).
Proof. intros H. unfold WriteMsg_write, fileWriter_Write. rewrite H. reflexivity. Qed.

Lemma WriteMsg_write_event w line world fd :
  fileWriter w = Some fd ->
  exists ok,
    w_trace (snd (WriteMsg_write w line world)) =
      w_trace world ++ [Ev (SysWrite (f_path fd) line) ok] /\
    (ok = true -> exists content mtime,
        w_fs world !! f_path fd = Some (NFile content mtime) /\
        WriteMsg_write w line world =
          ((set_counters (add64 (maxLinesCurLines w) 1)
                         (add64 (maxSizeCurSize w) (len line))
                         (dailyOpenDate w) w, None),
           set_trace (w_trace world ++ [Ev (SysWrite (f_path fd) line) true])
             (set_fs (<[f_path fd := NFile (content +:+ line) (kernel_time world)]>
                        (w_fs world)) world))) /\
    (ok = false -> exists e,
        WriteMsg_write w line world =
          ((w, Some e), set_trace (w_trace world ++ [Ev (SysWrite (f_path fd) line) false]) world)).
Proof.
  intros H. unfold WriteMsg_write, fileWriter_Write, File_Write. rewrite H.
  unfold bind. cbv zeta.
  destruct (f_closed fd); [exists false; split; [done|]; split; [done|]; eauto|].
  destruct (w_fault world _); [exists false; split; [done|]; split; [done|]; eauto|].
  destruct (w_fs world !! f_path fd) as [[content mtime|mtime]|] eqn:E.
  - exists true. split; [done|]. split; [|done]. intros _. exists content, mtime. done.
  - exists false; split; [done|]; split; [done|]; eauto.
  - exists false; split; [done|]; split; [done|]; eauto.
Qed.

(** * [WriteMsg] of the file sink *)

Lemma WriteMsg_below w when msg level world :
  level < Level w -> WriteMsg w when msg level world = ((w, None), world).
Proof.
  intros H. unfold WriteMsg.
  destruct (Z.ltb_spec level (Level w)); [reflexivity | lia].
Qed.

Lemma WriteMsg_at_level w when msg level world :
  Level w <= level ->
  WriteMsg w when msg level world =
    (let line := record_line w when msg world in
     let (w1, world1) := WriteMsg_rotate w when line (t_day when) world in
     WriteMsg_write w1 line world1).
Proof.
  intros H. unfold WriteMsg, record_line.
  destruct (Z.ltb_spec level (Level w)); [lia|].
  unfold formatTimeHeader. cbv zeta. cbn [fst].
  unfold bind at 1.
  destruct (Level w =? DEBUG); reflexivity.
Qed.

Lemma new_events_app w w' evs :
  w_trace w' = w_trace w ++ evs -> new_events w w' = evs.
Proof. intros E. unfold new_events. by rewrite E, drop_app_length. Qed.

(** The events of a write that passes the filter: those of a rotation, if
    one is due, then the write of the line. *)
Lemma WriteMsg_events w when msg level world :
  Level w <= level ->
  let line := record_line w when msg world in
  exists rot wr,
    new_events world (snd (WriteMsg w when msg level world)) = rot ++ wr /\
    Forall (fun e => ~ is_write e) rot /\
    (wr = [] \/ exists p ok, wr = [Ev (SysWrite p line) ok]) /\
    (has_handle w -> wr <> []) /\
    (if Rotate w && needRotate w (len line) (t_day when)
     then exists ok' rest, rot = Ev (SysLstat (path_of (Filename w))) ok' :: rest
     else rot = []).
Proof.
  intros Hl line. rewrite WriteMsg_at_level by done. fold line. cbv zeta.
  pose proof (WriteMsg_rotate_handle w when line (t_day when)) as Hh1.
  assert (Hwr : forall w1 world1, exists wr,
    w_trace (snd (WriteMsg_write w1 line world1)) = w_trace world1 ++ wr /\
    (wr = [] \/ exists p ok, wr = [Ev (SysWrite p line) ok]) /\
    (has_handle w1 -> wr <> [])).
  { intros w1 world1. destruct (fileWriter w1) as [fd|] eqn:Hfd.
    - destruct (WriteMsg_write_event w1 line world1 fd Hfd) as (ok & Ew & _).
      exists [Ev (SysWrite (f_path fd) line) ok]. split; [done|]. split; [eauto|done].
    - rewrite (WriteMsg_write_nil w1 line world1 Hfd). exists []. simpl.
      rewrite app_nil_r. split; [done|]. split; [by left|].
      intros [? ?]. unfold has_handle in *. congruence. }
  destruct (Rotate w && needRotate w (len line) (t_day when)) eqn:Hrot.
  - destruct (WriteMsg_rotate_yes w when line (t_day when) world Hrot) as (ok' & rest & E & HF).
    assert (Hh2 : has_handle w -> has_handle (WriteMsg_rotate w when line (t_day when) world).1).
    { intros Hh. by apply Hh1. }
    destruct (WriteMsg_rotate w when line (t_day when) world) as [w1 world1].
    simpl in *.
    destruct (Hwr w1 world1) as (wr & Ew & Hshape & Hne).
    exists (Ev (SysLstat (path_of (Filename w))) ok' :: rest), wr.
    refine (conj _ (conj _ (conj Hshape (conj _ _)))).
    + apply new_events_app. rewrite Ew, E, <- app_assoc. done.
    + constructor; [simpl; tauto | done].
    + eauto.
    + eauto.
  - rewrite (WriteMsg_rotate_no w when line (t_day when) world Hrot).
    destruct (Hwr w world) as (wr & Ew & Hshape & Hne).
    exists [], wr.
    refine (conj _ (conj _ (conj Hshape (conj Hne _)))); [|done..].
    apply new_events_app. rewrite Ew. done.
Qed.

Lemma emits_WriteMsg w when msg level : emits (fun _ => True) (WriteMsg w when msg level).
Proof. unfold WriteMsg, WriteMsg_rotate, WriteMsg_write, fileWriter_Write. emits_tac; auto. Qed.

Lemma WriteMsg_trace w when msg level world :
  w_trace (snd (WriteMsg w when msg level world)) =
  w_trace world ++ new_events world (snd (WriteMsg w when msg level world)).
Proof. apply (emits_new_events _ _ _ (emits_WriteMsg w when msg level)). Qed.

Lemma needRotate_spec w size day :
  int64_range (maxSizeCurSize w + size) ->
  needRotate w size day = true <->
  (0 < MaxLines w /\ MaxLines w <= maxLinesCurLines w) \/
  (0 < MaxSize w /\ MaxSize w <= maxSizeCurSize w + size) \/
  (Daily w = true /\ day <> dailyOpenDate w).
Proof.
  intros Hr. unfold needRotate, add64. rewrite wrap64_id by done.
  rewrite !orb_true_iff, !andb_true_iff, negb_true_iff.
  rewrite !Z.ltb_lt, !Z.leb_le, Z.eqb_neq. tauto.
Qed.

(** C5, with the day of the month for the calendar day: a write that
    passes the sink's filter attempts a rotation exactly when the rotate flag is set and one of three conditions holds:
    the line limit is positive and reached by the lines counted so far; the
    size limit is positive and reached by the bytes counted so far plus the
    length of the formatted record; daily rotation is on and the day of the
    month of the record differs from the day of the month at which the file
    was opened. *)
Theorem WriteMsg_rotates_iff (w : fileLogWriter) (when : Time) (msg : string)
    (level : Z) (world : World) :
  Level w <= level ->
  int64_range (maxSizeCurSize w + len (record_line w when msg world)) ->
  rotation_attempted w world (snd (WriteMsg w when msg level world)) <->
  Rotate w = true /\
  ((0 < MaxLines w /\ MaxLines w <= maxLinesCurLines w) \/
   (0 < MaxSize w /\ MaxSize w <= maxSizeCurSize w + len (record_line w when msg world)) \/
   (Daily w = true /\ t_day when <> dailyOpenDate w)).
Proof.
  intros Hl Hr.
  destruct (WriteMsg_events w when msg level world Hl) as (rot & wr & E & Hrot & Hwr & _ & Hshape).
  cbv zeta in *. unfold rotation_attempted. rewrite E.
  rewrite <- (needRotate_spec w _ (t_day when) Hr), <- andb_true_iff.
  destruct (Rotate w && needRotate w _ _).
  - split; [done|]. intros _. destruct Hshape as (ok' & rest & ->).
    exists ok'. apply elem_of_app. left. apply elem_of_cons. by left.
  - split; [|done]. subst rot. intros [ok Hin]. simpl in Hin.
    destruct Hwr as [->|(p & ok1 & ->)].
    + by apply elem_of_nil in Hin.
    + apply list_elem_of_singleton in Hin. discriminate.
Qed.

(** C8: the header is the bracketed date and time of the record on four and
    two digits, a dot, and the microseconds of the second in decimal; the
    file sink hands its handle the header, the goroutine tag exactly when
    its level is DEBUG, the message and a line feed. *)
Theorem header_form (when : Time) (w : fileLogWriter) (msg : string) (level : Z)
    (world : World) :
  wf_time when -> has_handle w -> Level w <= level ->
  let h := fst (formatTimeHeader when) in
  let us := t_nsec when / 1000 in
  h = "[" +:+ four_digits (t_year when) +:+ "-" +:+ two_digits (t_month when) +:+ "-"
          +:+ two_digits (t_day when) +:+ " " +:+ two_digits (t_hour when) +:+ ":"
          +:+ two_digits (t_minute when) +:+ ":" +:+ two_digits (t_second when) +:+ "."
          +:+ strconv_Itoa us +:+ "]" /\
  0 <= us <= 999999 /\
  all_chars is_digit (strconv_Itoa us) = true /\
  decimal_value (strconv_Itoa us) = Some us /\
  exists p ok,
    last (w_trace (snd (WriteMsg w when msg level world))) =
    Some (Ev (SysWrite p
                (if bool_decide (Level w = DEBUG)
                 then h +:+ "[" +:+ w_gid world +:+ "]" +:+ msg +:+ nl
                 else h +:+ msg +:+ nl)) ok).
Proof.
  intros Hwf Hh Hl h us.
  assert (Hus : 0 <= us <= 999999).
  { destruct Hwf as (Hn & _). subst us. split; [apply Z.div_pos; lia|].
    apply Z.lt_succ_r. apply Z.div_lt_upper_bound; lia. }
  split; [by apply formatTimeHeader_digits|].
  split; [done|]. split; [apply Itoa_digits; lia|]. split; [apply Itoa_value|].
  destruct (WriteMsg_events w when msg level world Hl) as (rot & wr & E & _ & Hwr & Hne & _).
  specialize (Hne Hh). destruct Hwr as [->|(p & ok & ->)]; [done|].
  exists p, ok. rewrite WriteMsg_trace, E, !app_assoc, last_snoc.
  do 3 f_equal. unfold record_line, format_line. fold h.
  case_bool_decide as Hd.
  - rewrite Hd. reflexivity.
  - destruct (Z.eqb_spec (Level w) DEBUG); [done|reflexivity].
Qed.

(** * The level names *)

Lemma transLogLevel_other s :
  s ∉ ["DEBUG"; "INFO"; "WARN"; "ERROR"; "FATAL"] -> transLogLevel s = DEBUG.
Proof.
  intros H. unfold transLogLevel.
  repeat case_decide; try reflexivity; subst; exfalso; apply H;
    rewrite !elem_of_cons; tauto.
Qed.

(** * Decoding a configuration that ends with a level name *)

Lemma json_string_last k ms s old :
  json_string k (ms ++ [(k, JString s)]) old = s.
Proof. unfold json_string. rewrite foldl_app. simpl. by rewrite decide_True. Qed.

Lemma json_string_other k k' ms s old :
  k <> k' -> json_string k (ms ++ [(k', JString s)]) old = json_string k ms old.
Proof. intros H. unfold json_string. rewrite foldl_app. simpl. by rewrite decide_False. Qed.

Lemma json_number_string t k k' ms s old :
  json_number t k (ms ++ [(k', JString s)]) old = json_number t k ms old.
Proof. unfold json_number. rewrite foldl_app. simpl. by case_decide. Qed.

Lemma json_bool_string k k' ms s old :
  json_bool k (ms ++ [(k', JString s)]) old = json_bool k ms old.
Proof. unfold json_bool. rewrite foldl_app. simpl. by case_decide. Qed.

Lemma json_type_error_last schema ms k t v :
  list_find (fun f => fst f = k) schema = Some t -> json_fits (snd (snd t)) v = true ->
  json_type_error schema (ms ++ [(k, v)]) = json_type_error schema ms.
Proof.
  intros Hk Hv. induction ms as [|[k0 v0] ms IH]; simpl.
  - rewrite Hk. destruct t as [i [k1 t1]]. simpl in Hv. by rewrite Hv.
  - by rewrite IH.
Qed.


Lemma json_Unmarshal_level ms s w :
  json_Unmarshal (config_with_level ms s) w =
  (with_LogLevel s (fst (json_Unmarshal (config_with_level ms "DEBUG") w)),
   snd (json_Unmarshal (config_with_level ms "DEBUG") w)).
Proof.
  unfold json_Unmarshal, config_with_level, with_LogLevel. cbn [fst snd].
  rewrite !json_string_last, !json_number_string, !json_bool_string.
  rewrite !(json_string_other "filename" "logLevel") by done.
  f_equal.
  rewrite !(json_type_error_last schema ms "logLevel" (6%nat, ("logLevel", TString))) by done.
  reflexivity.
Qed.

(** ** Opening the file does not look at the level name *)

Lemma lines_level a w : lines (with_LogLevel a w) = lines w.
Proof. reflexivity. Qed.

Lemma initFd_level a w world :
  initFd (with_LogLevel a w) world =
  (let '((w', e), world') := initFd w world in ((with_LogLevel a w', e), world')).
Proof.
  unfold initFd. cbn [fileWriter with_LogLevel].
  destruct (fileWriter w) as [fd|]; [|reflexivity].
  unfold bind. destruct (File_Stat fd world) as [[info|e] world1]; [|reflexivity].
  destruct (time_Now world1) as [now world2]. cbv zeta.
  destruct (0 <? fi_Size info); [|reflexivity].
  unfold lines. cbn [Filename set_counters with_LogLevel].
  match goal with |- context [bind ?c ?k world2] =>
    destruct (bind c k world2) as [[count [e|]] world3] end;
    reflexivity.
Qed.

Lemma close_fileWriter_level a w world :
  close_fileWriter (with_LogLevel a w) world =
  (let (w', world') := close_fileWriter w world in (with_LogLevel a w', world')).
Proof.
  unfold close_fileWriter. cbn [fileWriter with_LogLevel].
  destruct (fileWriter w) as [fd|]; [|reflexivity].
  unfold bind. destruct (File_Close fd world) as [[fd' e] world2]. reflexivity.
Qed.

Lemma startLogger_level a w world :
  startLogger (with_LogLevel a w) world =
  (let '((w', e), world') := startLogger w world in ((with_LogLevel a w', e), world')).
Proof.
  unfold startLogger, createLogFile. cbn [Filename with_LogLevel].
  unfold bind at 1 3. destruct (os_OpenFile (path_of (Filename w)) world) as [[file|e] world1];
    [|reflexivity].
  unfold bind. rewrite (close_fileWriter_level a w world1).
  destruct (close_fileWriter w world1) as [w1 world2].
  apply (initFd_level a (set_fileWriter (Some file) w1)).
Qed.

Lemma startLogger_Level w world : Level (fst (fst (startLogger w world))) = Level w.
Proof.
  unfold startLogger, createLogFile, initFd, close_fileWriter, bind, ret.
  repeat (case_match; simplify_eq; cbn [fst snd Level set_fileWriter set_counters fileWriter] in * );
    try reflexivity.
Qed.

Lemma json_Unmarshal_LogLevel ms s w :
  LogLevel (fst (json_Unmarshal (config_with_level ms s) w)) = s.
Proof. unfold json_Unmarshal, config_with_level. cbn [fst LogLevel]. apply json_string_last. Qed.

Lemma Init_level ms s w world :
  transLogLevel s = DEBUG ->
  Init w (config_with_level ms s) world =
  (let '((w', e), world') := Init w (config_with_level ms "DEBUG") world in
   ((with_LogLevel s w', e), world')).
Proof.
  intros Hs. unfold Init. rewrite json_Unmarshal_level.
  pose proof (json_Unmarshal_LogLevel ms "DEBUG" w) as HL.
  destruct (json_Unmarshal (config_with_level ms "DEBUG") w) as [w0 [err|]];
    cbn [fst snd] in *; [reflexivity|].
  cbn [Filename with_LogLevel].
  destruct (len (Filename w0) =? 0); [reflexivity|].
  cbv zeta. cbn [Filename MaxSize MaxTotalSize LogLevel with_LogLevel fileWriter MaxLines
    maxLinesCurLines maxSizeCurSize Daily MaxDays dailyOpenDate Rotate Perm fileNameOnly].
  rewrite Hs, HL.
  match goal with |- _ = _ (startLogger ?x world) =>
    rewrite <- (startLogger_level s x world)
  | |- _ = match startLogger ?x world with _ => _ end =>
    rewrite <- (startLogger_level s x world) end.
  reflexivity.
Qed.

Lemma Init_Level_ok ms s w world w' world' :
  Init w (config_with_level ms s) world = ((w', None), world') ->
  Level w' = transLogLevel s.
Proof.
  unfold Init. pose proof (json_Unmarshal_LogLevel ms s w) as HL.
  destruct (json_Unmarshal (config_with_level ms s) w) as [w0 [err|]];
    cbn [fst] in HL; [intros [=]|].
  destruct (len (Filename w0) =? 0); [intros [=]|].
  cbv zeta. intros E.
  match type of E with startLogger ?x world = _ =>
    pose proof (startLogger_Level x world) as H end.
  rewrite E in H. cbn [fst Level] in H. by rewrite H, HL.
Qed.

(** C10: [transLogLevel] maps the five level names to their ordinals and
    every other string to DEBUG; a sink configured with such a string fails
    or succeeds its [Init] exactly as with the name DEBUG, and runs at level
    DEBUG when it succeeds. *)
Theorem invalid_logLevel_runs_at_DEBUG (s : string) (ms : list (string * json))
    (w : fileLogWriter) (c : Console.consoleWriter) (world : World) :
  s ∉ ["DEBUG"; "INFO"; "WARN"; "ERROR"; "FATAL"] ->
  (transLogLevel "DEBUG" = DEBUG /\ transLogLevel "INFO" = INFO /\
   transLogLevel "WARN" = WARN /\ transLogLevel "ERROR" = ERROR /\
   transLogLevel "FATAL" = FATAL) /\
  transLogLevel s = DEBUG /\
  Init w (config_with_level ms s) world =
    (let '((w', e), world') := Init w (config_with_level ms "DEBUG") world in
     ((with_LogLevel s w', e), world')) /\
  (forall w' world', Init w (config_with_level ms s) world = ((w', None), world') ->
                     Level w' = DEBUG) /\
  Console.Init c (config_with_level ms s) world =
    ((Console.mkConsoleWriter s DEBUG, json_type_error Console.schema ms), world).
Proof.
  intros Hs. pose proof (transLogLevel_other s Hs) as Ht.
  split; [repeat split|]. split; [done|]. split; [by apply Init_level|]. split.
  - intros w' world' E. rewrite <- Ht. by eapply Init_Level_ok.
  - unfold Console.Init, config_with_level, Console.json_Unmarshal.
    cbn [Console.LogLevel Console.Level ret].
    rewrite json_string_last, Ht.
    rewrite (json_type_error_last Console.schema ms "logLevel" (0%nat, ("logLevel", TString)))
      by done.
    reflexivity.
Qed.

(** * The registry *)

(** C9: [Register] with a nil factory panics whatever the name and the
    registry, so also for a name that is registered; with a factory it
    returns: a name that is taken leaves the registry as it is and prints a
    warning, a free name is bound. The lookup is a total function. *)
Theorem Register_nil_panics (name : string) (adapters : gmap string loggerType)
    (log : loggerType) (world : World) :
  Register name None adapters world = Panicked ("logs:Register is nil, name:" +:+ name) /\
  match adapters !! name with
  | Some old =>
      Register name (Some log) adapters world =
        Returned (adapters,
                  set_stdout (w_stdout world ++
                              ["logs:Register is dumplicated, name: " +:+ name +:+ nl]) world) /\
      lookup_adapter name adapters = Some old
  | None =>
      Register name (Some log) adapters world = Returned (<[name := log]> adapters, world) /\
      lookup_adapter name (<[name := log]> adapters) = Some log
  end.
Proof.
  split; [reflexivity|]. unfold Register, lookup_adapter.
  destruct (adapters !! name) as [old|] eqn:E.
  - split; [reflexivity|done].
  - split; [reflexivity|]. apply lookup_insert_eq.
Qed.

(** * Parts of the world a call leaves alone *)

Lemma keeps_ret {A B : Type} (f : World -> B) (a : A) : keeps f (ret a).
Proof. by intros w. Qed.

Lemma keeps_bind {A B C : Type} (f : World -> C) (c : M A) (k : A -> M B) :
  keeps f c -> (forall a, keeps f (k a)) -> keeps f (bind c k).
Proof.
  intros Hc Hk w. unfold bind. specialize (Hc w).
  destruct (c w) as [a w']. simpl in Hc. by rewrite Hk.
Qed.

Ltac prim_keeps :=
  intros w;
  cbv beta delta [os_OpenFile os_Open os_Create os_Lstat File_Stat File_Write
    File_ReadAll File_Close File_Sync os_Rename os_Remove time_Now getGID go_spawn
    print_stdout print_stderr]; cbv zeta;
  repeat case_match; reflexivity.

Section KeepsStreams.
(** The system calls, the clock and the goroutines touch neither stream. *)
Context {B : Type} (f : World -> B).
Hypothesis f_fs : forall fs w, f (set_fs fs w) = f w.
Hypothesis f_trace : forall tr w, f (set_trace tr w) = f w.
Hypothesis f_tick : forall n w, f (set_tick n w) = f w.
Hypothesis f_spawned : forall ts w, f (set_spawned ts w) = f w.

Ltac prim :=
  intros w;
  cbv beta delta [os_OpenFile os_Open os_Create os_Lstat File_Stat File_Write
    File_ReadAll File_Close File_Sync os_Rename os_Remove time_Now getGID go_spawn sys];
  cbv zeta; repeat case_match; cbn [snd]; rewrite ?f_trace, ?f_fs, ?f_tick, ?f_spawned;
  reflexivity.

Lemma keeps_os_OpenFile p : keeps f (os_OpenFile p). Proof. prim. Qed.
Lemma keeps_os_Open p : keeps f (os_Open p). Proof. prim. Qed.
Lemma keeps_os_Create p : keeps f (os_Create p). Proof. prim. Qed.
Lemma keeps_os_Lstat p : keeps f (os_Lstat p). Proof. prim. Qed.
Lemma keeps_File_Stat x : keeps f (File_Stat x). Proof. prim. Qed.
Lemma keeps_File_Write x d : keeps f (File_Write x d). Proof. prim. Qed.
Lemma keeps_File_ReadAll x : keeps f (File_ReadAll x). Proof. prim. Qed.
Lemma keeps_File_Close x : keeps f (File_Close x). Proof. prim. Qed.
Lemma keeps_File_Sync x : keeps f (File_Sync x). Proof. prim. Qed.
Lemma keeps_os_Rename p q : keeps f (os_Rename p q). Proof. prim. Qed.
Lemma keeps_os_Remove p : keeps f (os_Remove p). Proof. prim. Qed.
Lemma keeps_time_Now : keeps f time_Now. Proof. prim. Qed.
Lemma keeps_getGID : keeps f getGID. Proof. prim. Qed.
Lemma keeps_go_spawn t : keeps f (go_spawn t). Proof. prim. Qed.

End KeepsStreams.

Create HintDb keeps.
#[export] Hint Resolve keeps_ret : keeps.

Ltac keeps_step :=
  first
    [ solve [eauto with keeps]
    | apply keeps_ret
    | apply keeps_bind; [|intros ?]
    | match goal with
      | |- keeps _ (match ?x with _ => _ end) => destruct x
      | |- keeps _ (if ?x then _ else _) => destruct x
      | |- keeps _ (let (_, _) := ?x in _) => destruct x
      end
    | progress cbv zeta
    | (first [ apply keeps_os_OpenFile | apply keeps_os_Open | apply keeps_os_Create
             | apply keeps_os_Lstat | apply keeps_File_Stat | apply keeps_File_Write
             | apply keeps_File_ReadAll | apply keeps_File_Close | apply keeps_File_Sync
             | apply keeps_os_Rename | apply keeps_os_Remove | apply keeps_time_Now
             | apply keeps_getGID | apply keeps_go_spawn ]; reflexivity) ].

Ltac keeps_tac := repeat keeps_step.

Lemma keeps_stdout_print_stderr s : keeps w_stdout (print_stderr s).
Proof. by intros w. Qed.
Lemma keeps_stderr_print_stdout s : keeps w_stderr (print_stdout s).
Proof. by intros w. Qed.
Lemma keeps_trace_print_stderr s : keeps w_trace (print_stderr s).
Proof. by intros w. Qed.
Lemma keeps_trace_print_stdout s : keeps w_trace (print_stdout s).
Proof. by intros w. Qed.
#[export] Hint Resolve keeps_stdout_print_stderr keeps_stderr_print_stdout
  keeps_trace_print_stderr keeps_trace_print_stdout : keeps.

Section KeepsFile.
(** The file sink changes the file system, the trace, the clock, the list of
    goroutines and the diagnostic stream, and nothing else. *)
Context {B : Type} (f : World -> B).
Hypothesis f_fs : forall fs w, f (set_fs fs w) = f w.
Hypothesis f_trace : forall tr w, f (set_trace tr w) = f w.
Hypothesis f_tick : forall n w, f (set_tick n w) = f w.
Hypothesis f_spawned : forall ts w, f (set_spawned ts w) = f w.
Hypothesis f_stderr : forall e w, f (set_stderr e w) = f w.

Lemma keeps_print_stderr s : keeps f (print_stderr s).
Proof. intros w. apply f_stderr. Qed.

Ltac file_keeps :=
  repeat first
    [ apply keeps_ret
    | apply keeps_print_stderr
    | apply keeps_bind; [|intros ?]
    | match goal with
      | |- keeps _ (match ?x with _ => _ end) => destruct x
      | |- keeps _ (if ?x then _ else _) => destruct x
      | |- keeps _ (let (_, _) := ?x in _) => destruct x
      end
    | progress cbv zeta
    | (first [ apply keeps_os_OpenFile | apply keeps_os_Open | apply keeps_os_Create
             | apply keeps_os_Lstat | apply keeps_File_Stat | apply keeps_File_Write
             | apply keeps_File_ReadAll | apply keeps_File_Close | apply keeps_File_Sync
             | apply keeps_os_Rename | apply keeps_os_Remove | apply keeps_time_Now
             | apply keeps_getGID | apply keeps_go_spawn ]; assumption) ].

Lemma File_close_fileWriter_keeps w : keeps f (File.close_fileWriter w).
Proof. unfold File.close_fileWriter. file_keeps. Qed.

Lemma File_initFd_keeps w : keeps f (File.initFd w).
Proof. unfold File.initFd. file_keeps. Qed.

Lemma File_startLogger_keeps w : keeps f (File.startLogger w).
Proof.
  unfold File.startLogger. file_keeps;
    first [apply File_close_fileWriter_keeps | apply File_initFd_keeps].
Qed.

Lemma File_doRotate_keeps w t : keeps f (File.doRotate w t).
Proof.
  unfold File.doRotate. file_keeps;
    first [apply File_close_fileWriter_keeps | apply File_initFd_keeps
          | apply File_startLogger_keeps].
Qed.

Lemma File_WriteMsg_keeps w when msg level : keeps f (File.WriteMsg w when msg level).
Proof.
  unfold File.WriteMsg, File.WriteMsg_rotate, File.WriteMsg_write, File.fileWriter_Write.
  file_keeps;
    first [apply File_close_fileWriter_keeps | apply File_initFd_keeps
          | apply File_startLogger_keeps | apply File_doRotate_keeps].
Qed.

End KeepsFile.

(** * The dispatcher *)

Lemma writeToLoggers_loop_cons l ls t msg lvl w :
  writeToLoggers_loop (l :: ls) t msg lvl w =
  (let '((s', err), w1) := sink_WriteMsg (nl_sink l) t msg lvl w in
   let (rest, w3) :=
     writeToLoggers_loop ls t msg lvl
       (match err with
        | Some e => set_stderr (w_stderr w1 ++ [report_line l e]) w1
        | None => w1
        end) in
   (mkNameLogger s' (name l) :: rest, w3)).
Proof.
  cbn [writeToLoggers_loop]. unfold bind.
  destruct (sink_WriteMsg (nl_sink l) t msg lvl w) as [[s' err] w1]. cbn [fst snd].
  destruct err; reflexivity.
Qed.

Lemma writeToLoggers_loop_Fanout ls t msg lvl w :
  Fanout t msg lvl ls w (fst (writeToLoggers_loop ls t msg lvl w))
    (snd (writeToLoggers_loop ls t msg lvl w)).
Proof.
  revert w. induction ls as [|l ls IH]; intros w.
  - constructor.
  - rewrite writeToLoggers_loop_cons.
    destruct (sink_WriteMsg (nl_sink l) t msg lvl w) as [[s' err] w1] eqn:E.
    match goal with |- context [writeToLoggers_loop ls t msg lvl ?x] =>
      specialize (IH x); destruct (writeToLoggers_loop ls t msg lvl x) as [rest w3] end.
    cbn [fst snd] in *. econstructor; [exact E|exact IH].
Qed.

Lemma Fanout_names t msg lvl ls w ls' w' :
  Fanout t msg lvl ls w ls' w' -> map name ls' = map name ls.
Proof. induction 1; simpl; congruence. Qed.

Lemma Fanout_fun t msg lvl ls w ls1 w1 ls2 w2 :
  Fanout t msg lvl ls w ls1 w1 -> Fanout t msg lvl ls w ls2 w2 -> ls1 = ls2 /\ w1 = w2.
Proof.
  intros H. revert ls2 w2. induction H; intros ls2 w2 H2; inversion H2; subst.
  - done.
  - match goal with H1 : sink_WriteMsg _ _ _ _ _ = _, H2 : sink_WriteMsg _ _ _ _ _ = _ |- _ =>
      rewrite H1 in H2; inversion H2; subst end.
    edestruct IHFanout as [-> ->]; [eassumption|done].
Qed.

Section Facade.
Context (operand : Type) (fmt_Sprintf : string -> list operand -> string).

Lemma entry_call_logf e :
  entry_call operand fmt_Sprintf e = logf operand fmt_Sprintf (entry_level e) (entry_tag e).
Proof. by destruct e. Qed.

Lemma entry_call_below e log format v world :
  entry_level e < level log ->
  entry_call operand fmt_Sprintf e log format v world = (Ret log, world).
Proof.
  intros H. rewrite entry_call_logf. unfold logf.
  destruct (Z.ltb_spec (entry_level e) (level log)); [reflexivity|lia].
Qed.

Lemma writeMsg_sync log lvl msg world :
  asynchronous log = false ->
  writeMsg log lvl msg world =
  (let (o, world') :=
     writeToLoggers_loop (outputs log) (w_clock world (w_tick world))
       (if enableFuncCallDepth log then
          let (file, line) := default ("???", 0) (w_caller world (loggerFuncCallDepth log)) in
          "[" +:+ path_Split_file file +:+ ":" +:+ strconv_Itoa line +:+ "]" +:+ msg
        else msg) lvl (set_tick (S (w_tick world)) world) in
   (Ret (set_outputs o log, None), world')).
Proof.
  intros Hs. unfold writeMsg, writeToLoggers. rewrite Hs.
  unfold bind, time_Now, ret. cbn [w_caller set_tick].
  destruct (enableFuncCallDepth log).
  - destruct (default _ _) as [file line].
    destruct (writeToLoggers_loop _ _ _ _ _) as [o world']. reflexivity.
  - destruct (writeToLoggers_loop _ _ _ _ _) as [o world']. reflexivity.
Qed.

Lemma writeMsg_async log lvl msg world :
  asynchronous log = true ->
  writeMsg log lvl msg world =
  (let text :=
     if enableFuncCallDepth log then
       let (file, line) := default ("???", 0) (w_caller world (loggerFuncCallDepth log)) in
       "[" +:+ path_Split_file file +:+ ":" +:+ strconv_Itoa line +:+ "]" +:+ msg
     else msg in
   (if (length (msgChan log) <? msgChan_cap)%nat
    then Ret (set_msgChan (msgChan log ++ [mkLogMsg lvl text (w_clock world (w_tick world))])
                log, None)
    else Blocks,
    set_tick (S (w_tick world)) world)).
Proof.
  intros Ha. unfold writeMsg. rewrite Ha.
  unfold bind, time_Now, ret. cbn [w_caller set_tick].
  destruct (enableFuncCallDepth log).
  - destruct (default _ _) as [file line].
    destruct (length (msgChan log) <? msgChan_cap)%nat; reflexivity.
  - destruct (length (msgChan log) <? msgChan_cap)%nat; reflexivity.
Qed.

(** C7: in synchronous mode a call that passes the filter of the dispatcher
    serves the sinks in the order of the list, each from the world the
    earlier ones left and whether or not they failed; a failure is a line on
    the diagnostic stream; the call returns, and [writeMsg] returns no
    error. *)
Theorem sync_fanout (e : entry) (log : Logger) (format : string) (v : list operand)
    (world : World) :
  asynchronous log = false ->
  level log <= entry_level e ->
  exists outputs' world',
    entry_call operand fmt_Sprintf e log format v world =
      (Ret (set_outputs outputs' log), world') /\
    writeMsg log (entry_level e) (fmt_Sprintf (entry_tag e +:+ format) v) world =
      (Ret (set_outputs outputs' log, None), world') /\
    Fanout (w_clock world (w_tick world))
      (record_text operand fmt_Sprintf (entry_tag e) log format v world) (entry_level e)
      (outputs log) (set_tick (S (w_tick world)) world) outputs' world' /\
    map name outputs' = map name (outputs log).
Proof.
  intros Hs Hl.
  pose proof (writeToLoggers_loop_Fanout (outputs log) (w_clock world (w_tick world))
    (record_text operand fmt_Sprintf (entry_tag e) log format v world) (entry_level e)
    (set_tick (S (w_tick world)) world)) as HF.
  rewrite entry_call_logf. unfold logf.
  destruct (Z.ltb_spec (entry_level e) (level log)); [lia|].
  unfold bind. rewrite (writeMsg_sync log _ _ world Hs).
  unfold record_text in HF. cbv zeta in HF.
  destruct (writeToLoggers_loop _ _ _ _ _) as [o world'].
  exists o, world'. cbn [fst snd] in HF.
  split; [reflexivity|]. split; [reflexivity|]. split; [exact HF|].
  eapply Fanout_names, HF.
Qed.

End Facade.

(** * Level filtering *)

Lemma new_events_same w w' : w_trace w' = w_trace w -> new_events w w' = [].
Proof. intros E. unfold new_events. rewrite E. apply drop_all. Qed.

Lemma Console_WriteMsg_spec c when msg lvl world :
  Console.WriteMsg c when msg lvl world =
  ((c, None),
   if lvl <? Console.Level c then world
   else set_stdout (w_stdout world ++ [console_line when msg world]) world).
Proof.
  unfold Console.WriteMsg, Console.println, console_line, formatTimeHeader.
  cbv zeta. cbn [fst].
  destruct (lvl <? Console.Level c); reflexivity.
Qed.

Lemma File_wrote_iff w when msg lvl world :
  has_handle w ->
  wrote_line (record_line w when msg world) world (snd (File.WriteMsg w when msg lvl world)) <->
  File.Level w <= lvl.
Proof.
  intros Hh. split.
  - intros (p & ok & Hin). destruct (Z.le_gt_cases (File.Level w) lvl) as [|Hlt]; [done|].
    rewrite WriteMsg_below in Hin by lia. cbn [snd] in Hin.
    rewrite new_events_same in Hin by done. by apply elem_of_nil in Hin.
  - intros Hl.
    destruct (WriteMsg_events w when msg lvl world Hl) as (rot & wr & E & _ & Hwr & Hne & _).
    specialize (Hne Hh). destruct Hwr as [->|(p & ok & ->)]; [done|].
    exists p, ok. rewrite E. apply elem_of_app. right. by apply list_elem_of_singleton.
Qed.

Lemma sink_WriteMsg_file w t msg lvl world :
  sink_WriteMsg (mkSink w) t msg lvl world =
  (let '((w', e), world') := File.WriteMsg w t msg lvl world in ((mkSink w', e), world')).
Proof.
  unfold sink_WriteMsg, bind, ret. cbn -[File.WriteMsg].
  destruct (File.WriteMsg w t msg lvl world) as [[w' e] world']. reflexivity.
Qed.

Lemma sink_WriteMsg_console c t msg lvl world :
  sink_WriteMsg (mkSink c) t msg lvl world =
  ((mkSink c, None),
   if lvl <? Console.Level c then world
   else set_stdout (w_stdout world ++ [console_line t msg world]) world).
Proof.
  unfold sink_WriteMsg, bind, ret. cbn -[Console.WriteMsg].
  rewrite Console_WriteMsg_spec. reflexivity.
Qed.

Section Facade.
Context (operand : Type) (fmt_Sprintf : string -> list operand -> string).

(** C1: a call at level L on a dispatcher with threshold T does nothing when
    L < T; otherwise it hands the record to the sinks at level L, at once in
    synchronous mode and through the queue and the worker in asynchronous
    mode.  A file sink gives a record to its handle exactly when L is at
    least its own level, the console sink prints it exactly when L is at
    least its own level, and a sink that filters the record returns no error
    and changes nothing.  For a synchronous dispatcher with a file sink and
    a console sink this makes each of them write the record if and only if
    T <= L and its own level is at most L. *)
Theorem level_filtering (e : entry) (log : Logger) (format : string) (v : list operand)
    (world : World) :
  let L := entry_level e in
  let r := entry_call operand fmt_Sprintf e log format v world in
  let when := w_clock world (w_tick world) in
  let text := record_text operand fmt_Sprintf (entry_tag e) log format v world in
  (L < level log -> r = (Ret log, world)) /\
  (level log <= L -> asynchronous log = false ->
   r = (let (log', world') := writeToLoggers log when text L (set_tick (S (w_tick world)) world)
        in (Ret log', world'))) /\
  (level log <= L -> asynchronous log = true ->
   r = (if (length (msgChan log) <? msgChan_cap)%nat
        then Ret (set_msgChan (msgChan log ++ [mkLogMsg L text when]) log)
        else Blocks,
        set_tick (S (w_tick world)) world)) /\
  (forall (m : logMsg) (rest : list logMsg) (world0 : World),
      msgChan log = m :: rest ->
      worker_message log world0 =
      (let (log', world') :=
         writeToLoggers (set_msgChan rest log) (lm_time m) (lm_msg m) (lm_level m) world0
       in (Ret log', world'))) /\
  (forall (w : File.fileLogWriter) (t : Time) (msg : string) (world0 : World),
      has_handle w ->
      (wrote_line (record_line w t msg world0) world0
                  (snd (File.WriteMsg w t msg L world0)) <-> File.Level w <= L) /\
      (L < File.Level w -> File.WriteMsg w t msg L world0 = ((w, None), world0))) /\
  (forall (c : Console.consoleWriter) (t : Time) (msg : string) (world0 : World),
      Console.WriteMsg c t msg L world0 =
      ((c, None),
       if L <? Console.Level c then world0
       else set_stdout (w_stdout world0 ++ [console_line t msg world0]) world0)) /\
  (forall (w : File.fileLogWriter) (c : Console.consoleWriter) (nf nc : string),
      asynchronous log = false ->
      has_handle w ->
      outputs log = [mkNameLogger (mkSink w) nf; mkNameLogger (mkSink c) nc] ->
      (wrote_line (record_line w when text world) world (snd r) <->
       level log <= L /\ File.Level w <= L) /\
      w_stdout (snd r) =
        (if (level log <=? L) && (Console.Level c <=? L)
         then w_stdout world ++ [console_line when text world]
         else w_stdout world) /\
      (L < level log \/ L < File.Level w ->
       wrote_nothing world (snd r) /\ w_stderr (snd r) = w_stderr world /\
       w_fs (snd r) = w_fs world)).
Proof.
  intros L r when text.
  assert (Hr : level log <= L -> asynchronous log = false ->
    r = (let (log', world') := writeToLoggers log when text L (set_tick (S (w_tick world)) world)
         in (Ret log', world'))).
  { intros Hl Hs. subst r. rewrite entry_call_logf. unfold logf. fold L.
    destruct (Z.ltb_spec L (level log)); [lia|].
    unfold bind. rewrite (writeMsg_sync log _ _ world Hs). unfold writeToLoggers, bind, ret.
    fold when. unfold text, record_text. cbv zeta.
    destruct (writeToLoggers_loop _ _ _ _ _) as [o world']. reflexivity. }
  split; [apply entry_call_below|]. split; [exact Hr|].
  split.
  { intros Hl Ha. subst r. rewrite entry_call_logf. unfold logf. fold L.
    destruct (Z.ltb_spec L (level log)); [lia|].
    unfold bind. rewrite (writeMsg_async log _ _ world Ha).
    fold when. unfold text, record_text. cbv zeta.
    destruct (length (msgChan log) <? msgChan_cap)%nat; reflexivity. }
  split.
  { intros m rest world0 Hm. unfold worker_message. rewrite Hm. unfold bind, ret.
    destruct (writeToLoggers _ _ _ _ _) as [log' world']. reflexivity. }
  split.
  { intros w t msg world0 Hh. split; [by apply File_wrote_iff|].
    intros Hlt. by apply WriteMsg_below. }
  split; [intros; apply Console_WriteMsg_spec|].
  intros w c nf nc Hs Hh Ho.
  destruct (Z.lt_ge_cases L (level log)) as [Hlt|Hge].
  { (* the dispatcher filters the record *)
    assert (E : r = (Ret log, world)) by (by apply entry_call_below).
    rewrite E. cbn [snd].
    destruct (Z.leb_spec (level log) L); [lia|]. cbn [andb].
    split; [|split; [done|]].
    - split; [|lia]. intros (p & ok & Hin).
      rewrite new_events_same in Hin by done. by apply elem_of_nil in Hin.
    - intros _. unfold wrote_nothing. rewrite new_events_same by done. done. }
  rewrite (Hr Hge Hs). unfold writeToLoggers, bind, ret. rewrite Ho.
  rewrite writeToLoggers_loop_cons. cbn [nl_sink].
  rewrite sink_WriteMsg_file.
  set (world0 := set_tick (S (w_tick world)) world).
  pose proof (File_wrote_iff w when text L world0 Hh) as Hiff.
  pose proof (File_WriteMsg_keeps w_stdout (fun _ _ => eq_refl) (fun _ _ => eq_refl)
    (fun _ _ => eq_refl) (fun _ _ => eq_refl) (fun _ _ => eq_refl) w when text L world0) as Hout.
  pose proof (File_WriteMsg_keeps w_gid (fun _ _ => eq_refl) (fun _ _ => eq_refl)
    (fun _ _ => eq_refl) (fun _ _ => eq_refl) (fun _ _ => eq_refl) w when text L world0) as Hgid.
  pose proof (WriteMsg_below w when text L world0) as Hbelow.
  destruct (File.WriteMsg w when text L world0) as [[w' err] wA] eqn:EA.
  cbn [snd] in *. cbv beta iota zeta.
  set (wB := match err with
             | Some e0 => set_stderr (w_stderr wA ++ [report_line (mkNameLogger (mkSink w) nf) e0]) wA
             | None => wA
             end).
  assert (HB : w_trace wB = w_trace wA /\ w_stdout wB = w_stdout wA /\ w_gid wB = w_gid wA)
    by (subst wB; destruct err; done).
  destruct HB as (HBt & HBo & HBg).
  rewrite writeToLoggers_loop_cons. cbn [nl_sink name writeToLoggers_loop].
  rewrite sink_WriteMsg_console. unfold ret. cbn [snd].
  set (wC := if L <? Console.Level c then wB
             else set_stdout (w_stdout wB ++ [console_line when text wB]) wB).
  assert (HC : w_trace wC = w_trace wA) by (subst wC; destruct (L <? Console.Level c); done).
  assert (Hne : new_events world wC = new_events world0 wA)
    by (unfold new_events; rewrite HC; reflexivity).
  cbv beta iota zeta. cbn [snd].
  destruct (Z.leb_spec (level log) L); [|lia]. cbn [andb].
  split; [|split].
  - unfold wrote_line in *. rewrite Hne.
    change (record_line w when text world) with (record_line w when text world0).
    rewrite Hiff. tauto.
  - subst wC. rewrite Z.leb_antisym.
    destruct (L <? Console.Level c); cbn [negb]; cbn [w_stdout set_stdout].
    + rewrite HBo, Hout. reflexivity.
    + rewrite HBo, Hout. unfold console_line. rewrite HBg, Hgid. reflexivity.
  - intros [Hlt|Hlt]; [lia|]. specialize (Hbelow Hlt). inversion Hbelow; subst.
    unfold wrote_nothing. rewrite Hne, new_events_same by done.
    split; [done|]. subst wC wB. destruct (L <? Console.Level c); done.
Qed.

End Facade.

(** * Counting line feeds *)

Lemma count_newlines_app s1 s2 :
  count_newlines (s1 +:+ s2) = count_newlines s1 + count_newlines s2.
Proof. induction s1 as [|c s1 IH]; simpl; [done|]. rewrite IH. lia. Qed.

Lemma len_app s1 s2 : len (s1 +:+ s2) = len s1 + len s2.
Proof. unfold len. induction s1 as [|c s1 IH]; simpl String.length; [done|]. lia. Qed.

Lemma len_nonneg s : 0 <= len s.
Proof. unfold len. lia. Qed.

Lemma count_newlines_bounds s : 0 <= count_newlines s <= len s.
Proof.
  unfold len. induction s as [|c s IH]; simpl count_newlines; simpl String.length; [lia|].
  case_decide; lia.
Qed.

Lemma count_newlines_digits s : all_chars is_digit s = true -> count_newlines s = 0.
Proof.
  induction s as [|c s IH]; simpl; [done|].
  intros [Hc Hs]%andb_prop. rewrite IH by done.
  case_decide as E; [|done]. subst c. discriminate.
Qed.

Lemma string_of_uint_no_newline d : count_newlines (NilEmpty.string_of_uint d) = 0.
Proof. apply count_newlines_digits, string_of_uint_digits. Qed.

Lemma Itoa_no_newline z : count_newlines (strconv_Itoa z) = 0.
Proof.
  unfold strconv_Itoa. destruct z as [|p|p]; [reflexivity| |].
  - apply count_newlines_digits, NilZero_string_of_uint_digits.
  - simpl. apply count_newlines_digits, NilZero_string_of_uint_digits.
Qed.

Lemma pad2_no_newline z : count_newlines (pad2 z) = 0.
Proof. unfold pad2. destruct (z <? 10); simpl; rewrite ?Itoa_no_newline; done. Qed.

Lemma pad4_no_newline z : count_newlines (pad4 z) = 0.
Proof.
  unfold pad4. repeat case_match; rewrite ?count_newlines_app, ?Itoa_no_newline; done.
Qed.

Lemma header_no_newline when : count_newlines (fst (formatTimeHeader when)) = 0.
Proof.
  unfold formatTimeHeader. cbn [fst].
  change (time_Format "2006-01-02 15:04:05" when) with
    (pad4 (t_year when) +:+ "-" +:+ pad2 (t_month when) +:+ "-" +:+ pad2 (t_day when) +:+
     " " +:+ pad2 (t_hour when) +:+ ":" +:+ pad2 (t_minute when) +:+ ":" +:+
     pad2 (t_second when) +:+ "").
  rewrite !count_newlines_app.
  rewrite pad4_no_newline, !pad2_no_newline, Itoa_no_newline. reflexivity.
Qed.

Lemma record_line_newlines w when msg world :
  count_newlines msg = 0 -> count_newlines (w_gid world) = 0 ->
  count_newlines (record_line w when msg world) = 1.
Proof.
  intros Hm Hg. unfold record_line, format_line.
  destruct (Level w =? DEBUG); rewrite !count_newlines_app, header_no_newline, Hm, ?Hg;
    reflexivity.
Qed.

(** * The loop of [lines] *)

Lemma string_take_drop n s : string_take n s +:+ string_drop n s = s.
Proof.
  revert s. induction n as [|n IH]; intros [|c s]; try reflexivity.
  cbn [string_take string_drop]. change (String c (string_take n s) +:+ string_drop n s)
    with (String c (string_take n s +:+ string_drop n s)). by rewrite IH.
Qed.

Lemma string_drop_length n s :
  (0 < n)%nat -> s <> EmptyString ->
  (String.length (string_drop n s) < String.length s)%nat.
Proof.
  revert s. induction n as [|n IH]; intros [|c s] Hn Hs; simpl; try done; try lia.
  destruct n; [destruct s; simpl; lia|].
  destruct s as [|c' s']; [simpl; lia|].
  specialize (IH (String c' s') ltac:(lia) ltac:(done)). simpl in *. lia.
Qed.

Lemma string_take_empty n s : (0 < n)%nat -> string_take n s = EmptyString -> s = EmptyString.
Proof. destruct n; [lia|]. by destruct s. Qed.

Lemma lines_loop_count fuel bufsize s count :
  (0 < bufsize)%nat -> (String.length s < fuel)%nat ->
  0 <= count -> count + len s < 2 ^ 63 ->
  lines_loop fuel bufsize s count = count + count_newlines s.
Proof.
  intros Hb. revert s count. induction fuel as [|fuel IH]; intros s count Hf Hc Hr; [lia|].
  cbn [lines_loop].
  pose proof (count_newlines_bounds (string_take bufsize s)) as Hb1.
  pose proof (count_newlines_bounds (string_drop bufsize s)) as Hb2.
  pose proof (string_take_drop bufsize s) as Htd.
  assert (Hlen : len s = len (string_take bufsize s) + len (string_drop bufsize s))
    by (by rewrite <- len_app, Htd).
  assert (Hcnt : count_newlines s =
                 count_newlines (string_take bufsize s) + count_newlines (string_drop bufsize s))
    by (by rewrite <- count_newlines_app, Htd).
  unfold add64. rewrite wrap64_id by (unfold int64_range; lia).
  destruct (string_take bufsize s) as [|c r] eqn:E.
  - apply string_take_empty in E; [|done]. subst s. simpl. lia.
  - rewrite IH.
    + rewrite Hcnt. lia.
    + assert (s <> EmptyString) by (intros ->; by destruct bufsize).
      pose proof (string_drop_length bufsize s Hb ltac:(done)). lia.
    + lia.
    + lia.
Qed.

(** * Opening the file establishes the counters *)

Lemma os_OpenFile_Ok p fd world world1 :
  os_OpenFile p world = (Ok fd, world1) ->
  fd = mkFile p false /\ exists c m, w_fs world1 !! p = Some (NFile c m).
Proof.
  unfold os_OpenFile, sys. intros H.
  destruct (w_fault world (SysOpenFile p)); [discriminate|].
  destruct (w_fs world !! p) as [[c m|m]|] eqn:E; simplify_eq; split; try done.
  - by exists c, m.
  - eexists _, _. cbn. apply lookup_insert_eq.
Qed.

Lemma close_fileWriter_fs w : keeps w_fs (close_fileWriter w).
Proof.
  intros world. unfold close_fileWriter, bind, ret, File_Close, sys.
  repeat case_match; simplify_eq; reflexivity.
Qed.

Lemma close_fileWriter_Filename w world :
  Filename (fst (close_fileWriter w world)) = Filename w.
Proof.
  unfold close_fileWriter, bind, ret. repeat case_match; simplify_eq; reflexivity.
Qed.

Lemma lines_spec w world n world' :
  lines w world = ((n, None), world') ->
  w_fs world' = w_fs world /\
  exists c m, w_fs world !! path_of (Filename w) = Some (NFile c m) /\
              n = lines_loop (S (String.length c)) (Z.to_nat 32768) c 0.
Proof.
  unfold lines, bind, ret, os_Open, File_ReadAll, File_Close, sys. cbn [f_path f_closed].
  intros H. repeat case_match; simplify_eq; cbn in *; simplify_eq.
  all: split; [done|]; eauto.
Qed.

Lemma initFd_counters w fd world w' world' :
  initFd w world = ((w', None), world') ->
  fileWriter w = Some fd -> f_path fd = path_of (Filename w) ->
  file_fits w world' -> counters_ok w' world'.
Proof.
  unfold initFd. intros H Hfd Hp Hfit. rewrite Hfd in H. unfold bind in H.
  destruct (File_Stat fd world) as [[info|e] world1] eqn:E1; [|discriminate].
  assert (f_closed fd = false /\ w_fs world1 = w_fs world /\
          exists n, w_fs world !! f_path fd = Some n /\ info = info_of (f_path fd) n)
    as (Hopen & Hfs1 & n & Hn & ->).
  { unfold File_Stat, sys in E1. repeat case_match; simplify_eq; eauto. }
  unfold time_Now in H. cbn [fst snd] in H.
  destruct (0 <? fi_Size (info_of (f_path fd) n)) eqn:Hsz.
  - destruct (lines _ _) as [[cnt [e|]] world2] eqn:E2; [discriminate|].
    apply lines_spec in E2 as (Hfs2 & c & m & Hc & ->).
    unfold ret in H. simplify_eq.
    cbn [Filename set_counters w_fs set_tick] in Hfs2, Hc. rewrite Hfs1 in Hc, Hfs2.
    exists fd, c, m.
    cbn [Filename set_counters w_fs set_tick fileWriter maxSizeCurSize maxLinesCurLines].
    rewrite Hfd, Hp, Hfs2, Hc.
    rewrite Hp, Hc in Hn. simplify_eq.
    specialize (Hfit c m). rewrite Hfs2 in Hfit. specialize (Hfit Hc).
    rewrite lines_loop_count by (unfold len in *; lia).
    repeat split; try done.
  - unfold ret in H. simplify_eq. destruct n as [c m|m]; [|discriminate].
    cbn [info_of fi_Size] in Hsz. apply Z.ltb_ge in Hsz.
    assert (c = EmptyString) as -> by (destruct c; [done|unfold len in Hsz; simpl in Hsz; lia]).
    exists fd, EmptyString, m.
    cbn [Filename set_counters w_fs set_tick fileWriter maxSizeCurSize maxLinesCurLines
         info_of fi_Size].
    rewrite Hfd, Hfs1, Hn. done.
Qed.

Lemma startLogger_counters w world w' world' :
  startLogger w world = ((w', None), world') ->
  file_fits w world' -> counters_ok w' world'.
Proof.
  unfold startLogger, createLogFile. intros H Hfit. unfold bind in H.
  destruct (os_OpenFile _ world) as [[fd|e] world1] eqn:E1; [|discriminate].
  apply os_OpenFile_Ok in E1 as (-> & c & m & Hc).
  pose proof (close_fileWriter_Filename w world1) as HF.
  destruct (close_fileWriter w world1) as [w1 world2]. cbn [fst] in HF.
  eapply initFd_counters; [exact H|reflexivity|cbn; by rewrite HF|].
  intros c' m'. cbn. rewrite HF. apply Hfit.
Qed.

(** * Writing keeps the counters *)

Lemma no_faults_keeps {A : Type} (c : M A) world :
  keeps w_fault c -> no_faults world -> no_faults (snd (c world)).
Proof. intros Hk Hnf call. rewrite Hk. apply Hnf. Qed.

Lemma counters_ok_fs w world world' :
  w_fs world' = w_fs world -> counters_ok w world -> counters_ok w world'.
Proof.
  intros Hfs (fd & c & m & H). exists fd, c, m. by rewrite Hfs.
Qed.

(** The system calls on files that are there, when nothing is refused. *)

Lemma os_Lstat_ok p n world :
  no_faults world ->
  w_fs world !! p = Some n ->
  os_Lstat p world = (Ok (info_of p n), set_trace (w_trace world ++ [Ev (SysLstat p) true]) world).
Proof. intros Hnf H. unfold os_Lstat, sys. by rewrite Hnf, H. Qed.

Lemma os_Open_ok p n world :
  no_faults world ->
  w_fs world !! p = Some n ->
  os_Open p world
  = (Ok (mkFile p false), set_trace (w_trace world ++ [Ev (SysOpen p) true]) world).
Proof. intros Hnf H. unfold os_Open, sys. by rewrite Hnf, H. Qed.

Lemma File_Stat_ok f n world :
  no_faults world ->
  f_closed f = false -> w_fs world !! f_path f = Some n ->
  File_Stat f world
  = (Ok (info_of (f_path f) n),
     set_trace (w_trace world ++ [Ev (SysStat (f_path f)) true]) world).
Proof. intros Hnf Ho H. unfold File_Stat, sys. by rewrite Ho, Hnf, H. Qed.

Lemma File_ReadAll_ok f c m world :
  no_faults world ->
  f_closed f = false -> w_fs world !! f_path f = Some (NFile c m) ->
  File_ReadAll f world
  = (Ok c, set_trace (w_trace world ++ [Ev (SysRead (f_path f)) true]) world).
Proof. intros Hnf Ho H. unfold File_ReadAll, sys. by rewrite Ho, Hnf, H. Qed.

Lemma File_Close_ok f world :
  no_faults world ->
  f_closed f = false ->
  File_Close f world
  = ((mkFile (f_path f) true, None),
     set_trace (w_trace world ++ [Ev (SysClose (f_path f)) true]) world).
Proof. intros Hnf Ho. unfold File_Close, sys. by rewrite Ho, Hnf. Qed.

Lemma File_Write_ok f data c m world :
  no_faults world ->
  f_closed f = false -> w_fs world !! f_path f = Some (NFile c m) ->
  File_Write f data world
  = (None,
     set_trace (w_trace world ++ [Ev (SysWrite (f_path f) data) true])
       (set_fs (<[f_path f := NFile (c +:+ data) (kernel_time world)]> (w_fs world)) world)).
Proof. intros Hnf Ho H. unfold File_Write, sys. by rewrite Ho, Hnf, H. Qed.


Lemma lines_ok w c m world :
  no_faults world ->
  w_fs world !! path_of (Filename w) = Some (NFile c m) ->
  exists n world', lines w world = ((n, None), world') /\ w_fs world' = w_fs world.
Proof.
  intros Hnf Hc. unfold lines, bind.
  rewrite (os_Open_ok _ (NFile c m)) by done.
  rewrite (File_ReadAll_ok _ c m) by (done || intros ?; apply Hnf).
  unfold ret at 1.
  rewrite File_Close_ok by (done || intros ?; apply Hnf).
  unfold ret. eauto.
Qed.

Lemma initFd_ok w fd c m world :
  no_faults world -> fileWriter w = Some fd -> f_closed fd = false ->
  f_path fd = path_of (Filename w) ->
  w_fs world !! f_path fd = Some (NFile c m) ->
  exists w' world', initFd w world = ((w', None), world') /\ w_fs world' = w_fs world.
Proof.
  intros Hnf Hfd Hopen Hp Hc. unfold initFd. rewrite Hfd.
  unfold bind. rewrite (File_Stat_ok _ (NFile c m)) by done.
  unfold time_Now. cbn [info_of fi_Size].
  destruct (0 <? len c); [|unfold ret; eauto].
  match goal with |- context [lines ?w ?wd] =>
    destruct (lines_ok w c m wd) as (n & world' & -> & Hfs)
  end.
  - intros ?; apply Hnf.
  - cbn [Filename set_counters]. rewrite <- Hp. exact Hc.
  - unfold ret. eauto.
Qed.

Lemma startLogger_ok w c m world :
  no_faults world ->
  w_fs world !! path_of (Filename w) = Some (NFile c m) \/
  w_fs world !! path_of (Filename w) = None ->
  exists w' world', startLogger w world = ((w', None), world') /\
    exists c' m', w_fs world' !! path_of (Filename w) = Some (NFile c' m') /\
                  len c' <= len c.
Proof.
  intros Hnf Hc. unfold startLogger, createLogFile, bind.
  destruct (os_OpenFile _ world) as [r world1] eqn:E1.
  assert (r = Ok (mkFile (path_of (Filename w)) false) /\ no_faults world1 /\
          exists c' m', w_fs world1 !! path_of (Filename w) = Some (NFile c' m') /\
                        len c' <= len c) as (-> & Hnf1 & c' & m' & Hc' & Hle).
  { unfold os_OpenFile, sys in E1. rewrite Hnf in E1.
    destruct Hc as [Hc|Hc]; rewrite Hc in E1; simplify_eq.
    - repeat split; [done|]. exists c, m. split; [done|lia].
    - repeat split; [done|]. eexists EmptyString, _. cbn [w_fs set_trace set_fs].
      rewrite lookup_insert_eq. split; [done|]. apply len_nonneg. }
  pose proof (close_fileWriter_Filename w world1) as HF.
  pose proof (close_fileWriter_fs w world1) as Hfs2.
  assert (no_faults (snd (close_fileWriter w world1))) as Hnf2
    by (apply no_faults_keeps; [by apply File_close_fileWriter_keeps|done]).
  destruct (close_fileWriter w world1) as [w1 world2]. cbn [fst snd] in *.
  destruct (initFd_ok (set_fileWriter (Some (mkFile (path_of (Filename w)) false)) w1)
              (mkFile (path_of (Filename w)) false) c' m' world2)
    as (w' & world' & E & Hfs'); try done.
  - cbn. by rewrite HF.
  - cbn [f_path]. by rewrite Hfs2.
  - exists w', world'. split; [done|]. exists c', m'. by rewrite Hfs', Hfs2.
Qed.

Lemma startLogger_Filename w world : Filename (fst (fst (startLogger w world))) = Filename w.
Proof.
  unfold startLogger, createLogFile, initFd, close_fileWriter, bind, ret.
  repeat (case_match; simplify_eq;
          cbn [fst snd Filename set_fileWriter set_counters fileWriter] in * );
    try reflexivity.
Qed.

Lemma os_Rename_file p q c m world :
  no_faults world -> w_fs world !! p = Some (NFile c m) ->
  no_faults (snd (os_Rename p q world)) /\
  (w_fs (snd (os_Rename p q world)) !! p = Some (NFile c m) \/
   w_fs (snd (os_Rename p q world)) !! p = None).
Proof.
  intros Hnf Hc. split.
  - apply no_faults_keeps; [by apply keeps_os_Rename|done].
  - unfold os_Rename, sys. rewrite Hnf, Hc.
    destruct (w_fs world !! q) as [[c' m'|m']|] eqn:Hq; cbn [snd w_fs set_trace set_fs];
      try (by left).
    all: destruct (decide (q = p)) as [->|Hne];
      [left; apply lookup_insert_eq
      |right; rewrite lookup_insert_ne by done; apply lookup_delete_eq].
Qed.

Lemma doRotate_counters w when world w' e world' :
  doRotate w when world = ((w', e), world') ->
  counters_ok w world -> no_faults world -> maxSizeCurSize w < 2 ^ 63 ->
  counters_ok w' world' /\ maxSizeCurSize w' <= maxSizeCurSize w.
Proof.
  intros H (fd & c & m & Hfd & Hopen & Hp & Hc & Hsz & Hln) Hnf Hlt.
  rewrite Hp in Hc.
  unfold doRotate, bind in H. rewrite (os_Lstat_ok _ (NFile c m)) in H by done.
  unfold close_fileWriter at 1 in H. rewrite Hfd in H. unfold bind in H.
  rewrite File_Close_ok in H by (done || intros ?; apply Hnf).
  unfold ret at 1 in H. cbn [fst] in H. cbv zeta in H.
  cbn [Filename set_fileWriter fileNameOnly] in H.
  match type of H with context [os_Rename ?p ?q ?wd] =>
    destruct (os_Rename_file p q c m wd) as (Hnf3 & Hc3);
      [intros ?; apply Hnf|exact Hc|];
    destruct (os_Rename p q wd) as [renameErr world3]
  end.
  cbn [snd] in Hnf3, Hc3.
  match type of H with context [startLogger ?w1 world3] =>
    pose proof (startLogger_Filename w1 world3) as HF;
    destruct (startLogger_ok w1 c m world3 Hnf3 Hc3) as (w2 & world4 & E & c' & m' & Hc' & Hle);
    pose proof (startLogger_counters w1 world3 w2 world4 E) as Hok
  end.
  rewrite E in HF, H. cbn [fst Filename set_fileWriter] in HF, Hc'.
  assert (counters_ok w2 world4) as Hok'.
  { apply Hok. intros c2 m2. cbn [Filename set_fileWriter]. rewrite Hc'.
    intros [= <- <-]. lia. }
  assert (maxSizeCurSize w2 <= maxSizeCurSize w) as Hle'.
  { destruct Hok' as (fd' & c2 & m2 & _ & _ & Hp' & Hc2 & -> & _).
    rewrite Hp', HF, Hc' in Hc2. simplify_eq. lia. }
  unfold go_spawn in H. destruct renameErr; unfold ret in H; simplify_eq;
    (split; [|done]); by eapply counters_ok_fs.
Qed.

Lemma WriteMsg_rotate_counters w when line d world w' world' :
  WriteMsg_rotate w when line d world = (w', world') ->
  counters_ok w world -> no_faults world -> maxSizeCurSize w < 2 ^ 63 ->
  counters_ok w' world' /\ maxSizeCurSize w' <= maxSizeCurSize w.
Proof.
  intros H Hok Hnf Hlt. unfold WriteMsg_rotate in H.
  destruct (Rotate w); [|unfold ret in H; simplify_eq; split; [done|lia]].
  destruct (needRotate w (len line) d); [|unfold ret in H; simplify_eq; split; [done|lia]].
  unfold bind in H.
  destruct (doRotate w when world) as [[w1 e] world1] eqn:E.
  destruct (doRotate_counters _ _ _ _ _ _ E Hok Hnf Hlt) as [H1 H2].
  destruct e; unfold print_stderr, ret in H; simplify_eq; (split; [|done]);
    by eapply counters_ok_fs.
Qed.

Lemma WriteMsg_write_adds w line world w' world' :
  WriteMsg_write w line world = ((w', None), world') ->
  maxLinesCurLines w' = add64 (maxLinesCurLines w) 1 /\
  maxSizeCurSize w' = add64 (maxSizeCurSize w) (len line) /\
  exists fd, fileWriter w = Some fd /\
    new_events world world' = [Ev (SysWrite (f_path fd) line) true].
Proof.
  unfold WriteMsg_write, fileWriter_Write, bind. intros H.
  destruct (fileWriter w) as [fd|] eqn:Hfd; [|discriminate].
  destruct (File_Write fd line world) as [[e|] world1] eqn:E; [discriminate|].
  unfold ret in H. simplify_eq. cbn [maxLinesCurLines maxSizeCurSize set_counters].
  repeat split; try done. exists fd. split; [done|].
  unfold File_Write, sys in E. unfold new_events.
  repeat case_match; simplify_eq; cbn [w_trace set_trace set_fs];
    by rewrite drop_app_length.
Qed.

Lemma WriteMsg_write_counters w line world :
  counters_ok w world -> no_faults world ->
  count_newlines line = 1 -> maxSizeCurSize w + len line < 2 ^ 63 ->
  snd (fst (WriteMsg_write w line world)) = None /\
  counters_ok (fst (fst (WriteMsg_write w line world))) (snd (WriteMsg_write w line world)).
Proof.
  intros (fd & c & m & Hfd & Hopen & Hp & Hc & Hsz & Hln) Hnf Hone Hlt.
  unfold WriteMsg_write, fileWriter_Write, bind. rewrite Hfd.
  rewrite (File_Write_ok _ _ c m) by done. unfold ret. cbn [fst snd]. split; [done|].
  exists fd, (c +:+ line), (kernel_time world).
  cbn [fileWriter Filename set_counters maxSizeCurSize maxLinesCurLines w_fs set_trace set_fs].
  pose proof (count_newlines_bounds c). pose proof (len_nonneg line).
  pose proof (len_nonneg c). pose proof (count_newlines_bounds line).
  repeat split; try done.
  - apply lookup_insert_eq.
  - unfold add64. rewrite wrap64_id, len_app by (unfold int64_range; lia). lia.
  - unfold add64. rewrite wrap64_id, count_newlines_app by (unfold int64_range; lia). lia.
Qed.

Lemma example_sink_counters : counters_ok example_sink example_sink_world.
Proof.
  exists (mkFile ["app.log"] false), EmptyString, example_time.
  vm_compute. repeat split.
Qed.

(** C4, as the code has it: a successful (re)open sets both counters from the
    file, a successful write adds the length of the line to the byte counter
    and one to the line counter, and so a write keeps the counters equal to
    the size and the number of line feeds of the open file when no call is
    refused and neither the message nor the goroutine tag holds a line
    feed. *)
Theorem counters_invariant (w : fileLogWriter) (when : Time) (msg : string)
    (level : Z) (world : World) :
  counters_ok w world -> no_faults world ->
  count_newlines msg = 0 -> count_newlines (w_gid world) = 0 ->
  maxSizeCurSize w + len (record_line w when msg world) < 2 ^ 63 ->
  (snd (fst (WriteMsg w when msg level world)) = None /\
   counters_ok (fst (fst (WriteMsg w when msg level world)))
               (snd (WriteMsg w when msg level world))) /\
  (forall w0 world0 w' world',
      startLogger w0 world0 = ((w', None), world') -> file_fits w0 world' ->
      counters_ok w' world') /\
  (forall w0 line world0 w' world',
      WriteMsg_write w0 line world0 = ((w', None), world') ->
      maxLinesCurLines w' = add64 (maxLinesCurLines w0) 1 /\
      maxSizeCurSize w' = add64 (maxSizeCurSize w0) (len line) /\
      exists fd, fileWriter w0 = Some fd /\
        new_events world0 world' = [Ev (SysWrite (f_path fd) line) true]).
Proof.
  intros Hok Hnf Hmsg Hgid Hlt. split; [|split].
  - destruct (Z.lt_ge_cases level (Level w)) as [Hlow|Hhigh].
    { rewrite WriteMsg_below by done. done. }
    rewrite WriteMsg_at_level by lia. cbv zeta.
    pose proof (record_line_newlines w when msg world Hmsg Hgid) as Hone.
    set (line := record_line w when msg world) in *.
    destruct (WriteMsg_rotate w when line (t_day when) world) as [w1 world1] eqn:E1.
    pose proof (len_nonneg line).
    destruct (WriteMsg_rotate_counters _ _ _ _ _ _ _ E1 Hok Hnf ltac:(lia)) as [Hok1 Hle].
    apply WriteMsg_write_counters; try done; [|lia].
    replace world1 with (snd (WriteMsg_rotate w when line (t_day when) world))
      by (by rewrite E1).
    apply no_faults_keeps; [|done].
    unfold WriteMsg_rotate. intros wd.
    repeat (case_match; try reflexivity).
    all: unfold bind; try reflexivity.
    all: match goal with |- context [doRotate ?a ?b ?c] =>
           pose proof (File_doRotate_keeps w_fault ltac:(done) ltac:(done) ltac:(done)
                         ltac:(done) a b c) as Hk;
           destruct (doRotate a b c) as [[? [?|]] ?] end;
         cbn [snd] in *; unfold print_stderr, ret; cbn [snd]; try done.
  - apply startLogger_counters.
  - apply WriteMsg_write_adds.
Qed.

(** The sink of the example keeps its counters over a record. *)
Lemma counters_invariant_witness :
  counters_ok example_sink example_sink_world /\
  counters_ok
    (fst (fst (WriteMsg example_sink example_time "started" INFO example_sink_world)))
    (snd (WriteMsg example_sink example_time "started" INFO example_sink_world)).
Proof.
  split; [apply example_sink_counters|].
  apply (counters_invariant example_sink example_time "started" INFO example_sink_world).
  - apply example_sink_counters.
  - intros c. reflexivity.
  - reflexivity.
  - reflexivity.
  - vm_compute. reflexivity.
Defined.

(** C4 does not hold as stated: a record with a line break inside is written
    as two lines and counted as one. *)
Lemma counters_miss_line_break :
  counters_ok example_sink example_sink_world /\
  snd (fst (WriteMsg example_sink example_time ("a" +:+ nl +:+ "b") INFO example_sink_world))
  = None /\
  maxLinesCurLines
    (fst (fst (WriteMsg example_sink example_time ("a" +:+ nl +:+ "b") INFO example_sink_world)))
  = 1 /\
  (exists c m,
      w_fs (snd (WriteMsg example_sink example_time ("a" +:+ nl +:+ "b") INFO
                   example_sink_world)) !! ["app.log"] = Some (NFile c m) /\
      count_newlines c = 2) /\
  ~ counters_ok
      (fst (fst (WriteMsg example_sink example_time ("a" +:+ nl +:+ "b") INFO
                   example_sink_world)))
      (snd (WriteMsg example_sink example_time ("a" +:+ nl +:+ "b") INFO example_sink_world)).
Proof.
  split; [apply example_sink_counters|].
  split; [vm_compute; reflexivity|].
  split; [vm_compute; reflexivity|].
  split.
  - eexists _, _. split; vm_compute; reflexivity.
  - intros (fd & c & m & Hfd & _ & _ & Hc & _ & Hl).
    vm_compute in Hfd. injection Hfd as <-.
    vm_compute in Hl. vm_compute in Hc. injection Hc as <- _.
    vm_compute in Hl. discriminate.
Qed.

(** * Compression *)

Lemma os_Open_cases p world :
  (exists e, os_Open p world
             = (Err e, set_trace (w_trace world ++ [Ev (SysOpen p) false]) world)) \/
  os_Open p world
  = (Ok (mkFile p false), set_trace (w_trace world ++ [Ev (SysOpen p) true]) world).
Proof. unfold os_Open, sys. repeat case_match; eauto. Qed.

Lemma os_Create_cases p world :
  (exists e, os_Create p world
             = (Err e, set_trace (w_trace world ++ [Ev (SysCreate p) false]) world)) \/
  os_Create p world
  = (Ok (mkFile p false),
     set_trace (w_trace world ++ [Ev (SysCreate p) true])
       (set_fs (<[p := NFile "" (kernel_time world)]> (w_fs world)) world)).
Proof. unfold os_Create, sys. repeat case_match; eauto. Qed.

Lemma one_event_File_ReadAll f : one_event (SysRead (f_path f)) (File_ReadAll f).
Proof. intros w. unfold File_ReadAll, sys. repeat case_match; cbn; eauto. Qed.
Lemma one_event_File_Write f d : one_event (SysWrite (f_path f) d) (File_Write f d).
Proof. intros w. unfold File_Write, sys. repeat case_match; cbn; eauto. Qed.
Lemma one_event_File_Close f : one_event (SysClose (f_path f)) (File_Close f).
Proof. intros w. unfold File_Close, sys. repeat case_match; cbn; eauto. Qed.
Lemma one_event_os_Remove p : one_event (SysRemove p) (os_Remove p).
Proof. intros w. unfold os_Remove, sys. repeat case_match; cbn; eauto. Qed.

Lemma preserves_File_ReadAll source f : preserves (removable source) (File_ReadAll f).
Proof. intros w H. unfold File_ReadAll, sys. repeat case_match; exact H. Qed.
Lemma preserves_File_Close source f : preserves (removable source) (File_Close f).
Proof. intros w H. unfold File_Close, sys. repeat case_match; exact H. Qed.
Lemma preserves_File_Write source f d : preserves (removable source) (File_Write f d).
Proof.
  intros w [(c & m & Hc) Hf]. unfold File_Write, sys.
  repeat case_match; (split; [|exact Hf]); unfold is_file; cbn [snd w_fs set_trace set_fs];
    eauto.
  destruct (decide (f_path f = source)) as [<-|Hne].
  - rewrite lookup_insert_eq. eauto.
  - rewrite lookup_insert_ne by done. eauto.
Qed.
Lemma preserves_create source p world :
  removable source world ->
  removable source
    (set_trace (w_trace world ++ [Ev (SysCreate p) true])
       (set_fs (<[p := NFile "" (kernel_time world)]> (w_fs world)) world)).
Proof.
  intros [(c & m & Hc) Hf]. split; [|exact Hf]. unfold is_file. cbn [w_fs set_trace set_fs].
  destruct (decide (p = source)) as [<-|Hne].
  - rewrite lookup_insert_eq. eauto.
  - rewrite lookup_insert_ne by done. eauto.
Qed.

Lemma os_Remove_removable source world :
  removable source world ->
  fst (os_Remove source world) = None /\
  w_fs (snd (os_Remove source world)) !! source = None /\
  w_trace (snd (os_Remove source world)) = w_trace world ++ [Ev (SysRemove source) true].
Proof.
  intros [(c & m & Hc) Hf]. unfold os_Remove, sys. rewrite Hf, Hc. cbn.
  split; [done|]. split; [apply lookup_delete_eq|done].
Qed.

Section Compression.
Variable gzip_encode : string -> string -> string.

(** The deferred calls on the source. *)
Lemma deferred_reader_spec source world :
  let c : M unit :=
    bind (File_Close (mkFile source false)) (fun _ => bind (os_Remove source) (fun _ => ret tt)) in
  (exists okc okr,
      w_trace (snd (c world))
      = w_trace world ++ [Ev (SysClose source) okc; Ev (SysRemove source) okr]) /\
  (removable source world ->
   w_fs (snd (c world)) !! source = None /\
   w_trace (snd (c world))
   = w_trace world ++ [Ev (SysClose source) (negb (w_fault world (SysClose source)));
                       Ev (SysRemove source) true]).
Proof.
  cbv zeta. unfold bind.
  destruct (one_event_File_Close (mkFile source false) world) as [okc Hc].
  pose proof (preserves_File_Close source (mkFile source false) world) as Hp.
  assert (okc = negb (w_fault world (SysClose source))) as Hokc.
  { revert Hc. unfold File_Close, sys. cbn [f_closed f_path].
    destruct (w_fault world (SysClose source)); cbn [snd w_trace set_trace];
      intros H%app_inv_head; by simplify_eq. }
  destruct (File_Close (mkFile source false) world) as [r1 world1]. cbn [snd f_path] in *.
  destruct (one_event_os_Remove source world1) as [okr Hr].
  pose proof (os_Remove_removable source world1) as Hrm.
  destruct (os_Remove source world1) as [r2 world2]. cbn [snd fst] in *.
  unfold ret. cbn [snd]. split.
  - exists okc, okr. rewrite Hr, Hc, <- app_assoc. done.
  - intros Hrem. destruct (Hrm (Hp Hrem)) as (_ & Hgone & Htr).
    split; [done|]. rewrite Htr, Hc, <- app_assoc, Hokc. done.
Qed.

Lemma os_Open_removable source world :
  removable source world -> w_fault world (SysOpen source) = false ->
  os_Open source world
  = (Ok (mkFile source false), set_trace (w_trace world ++ [Ev (SysOpen source) true]) world).
Proof.
  intros [(c & m & Hc) _] Hf. unfold os_Open, sys. by rewrite Hf, Hc.
Qed.

(** C2, as the code has it: the removal of the source is deferred from the
    moment the source is open, so it is the last call of every run that
    could open the source, whether or not the archive could be created,
    written and closed; only a source that cannot be opened is left. *)
Theorem compressFile_removes_source (source target : path) (world : World) :
  let r := compressFile gzip_encode source target world in
  let evs := new_events world (snd r) in
  ((evs = [Ev (SysOpen source) false] /\ fst r <> None /\ w_fs (snd r) = w_fs world) \/
   (exists okc okr,
       evs = [Ev (SysOpen source) true; Ev (SysCreate target) false;
              Ev (SysClose source) okc; Ev (SysRemove source) okr] /\
       fst r <> None) \/
   (exists okrd data okw okc1 okc2 okr,
       evs = [Ev (SysOpen source) true; Ev (SysCreate target) true;
              Ev (SysRead source) okrd; Ev (SysWrite target data) okw;
              Ev (SysClose target) okc1;
              Ev (SysClose source) okc2; Ev (SysRemove source) okr])) /\
  (is_file world source -> w_fault world (SysOpen source) = false ->
   w_fault world (SysRemove source) = false ->
   w_fs (snd r) !! source = None /\ last evs = Some (Ev (SysRemove source) true)).
Proof.
  cbv zeta. destruct (compressFile gzip_encode source target world) as [res wf] eqn:Hrun.
  cbn [fst snd]. unfold compressFile in Hrun. cbv zeta in Hrun. unfold bind at 1 in Hrun.
  assert (Hopen : is_file world source -> w_fault world (SysOpen source) = false ->
                  w_fault world (SysRemove source) = false ->
                  os_Open source world
                  = (Ok (mkFile source false),
                     set_trace (w_trace world ++ [Ev (SysOpen source) true]) world))
    by (intros; by apply os_Open_removable).
  destruct (os_Open_cases source world) as [[e E]|E]; rewrite E in *.
  { unfold ret in Hrun. simplify_eq. split.
    - left. repeat split; try done. by apply new_events_app.
    - intros H1 H2 H3. specialize (Hopen H1 H2 H3). discriminate. }
  clear Hopen E.
  set (world1 := set_trace (w_trace world ++ [Ev (SysOpen source) true]) world) in *.
  assert (Hrem1 : is_file world source -> w_fault world (SysRemove source) = false ->
                  removable source world1) by (intros; by split).
  assert (Htr1 : w_trace world1 = w_trace world ++ [Ev (SysOpen source) true]) by done.
  clearbody world1. unfold bind at 1 in Hrun.
  destruct (os_Create_cases target world1) as [[e E1]|E1]; rewrite E1 in Hrun; clear E1.
  { unfold bind at 1 in Hrun.
    match type of Hrun with context [bind ?c ?k ?wd] =>
      destruct (deferred_reader_spec source wd) as ((okc & okr & Htr) & Hgone);
      cbv zeta in Htr, Hgone; fold (bind c k) in Htr, Hgone;
      destruct (bind c k wd) as [[] world3] end.
    cbn [snd] in *. unfold ret in Hrun. simplify_eq. split.
    - right. left. exists okc, okr. split; [|done].
      apply new_events_app. rewrite Htr. cbn [w_trace set_trace].
      rewrite Htr1, <- !app_assoc. done.
    - intros H1 H2 H3. destruct Hgone as [Hg Ht]; [by apply Hrem1|].
      split; [done|]. erewrite new_events_app;
        [|rewrite Ht; cbn [w_trace set_trace]; rewrite Htr1, <- !app_assoc; reflexivity].
      done. }
  cbv beta iota in Hrun. unfold bind at 1 in Hrun.
  match type of Hrun with context [File_ReadAll _ ?wd] => set (world2 := wd) in * end.
  assert (Hrem2 : is_file world source -> w_fault world (SysRemove source) = false ->
                  removable source world2)
    by (intros; apply preserves_create; by apply Hrem1).
  assert (Htr2 : w_trace world2
                 = w_trace world ++ [Ev (SysOpen source) true; Ev (SysCreate target) true])
    by (subst world2; cbn [w_trace set_trace set_fs]; by rewrite Htr1, <- app_assoc).
  clearbody world2.
  destruct (one_event_File_ReadAll (mkFile source false) world2) as [okrd Htr3].
  pose proof (preserves_File_ReadAll source (mkFile source false) world2) as Hrem3.
  destruct (File_ReadAll (mkFile source false) world2) as [rd world3]. cbn [snd f_path] in *.
  set (data := gzip_encode (List.last source ".")
                 (match rd with Ok d => d | Err _ => "" end)).
  assert (forall (B : Type) (k : option error -> string -> B),
             (let (err, copied) := match rd with
                                   | Ok data => (None, data)
                                   | Err e => (Some e, "")
                                   end in k err copied)
             = k (match rd with Ok _ => None | Err e => Some e end)
                 (match rd with Ok d => d | Err _ => "" end)) as Hlet
    by (intros; by destruct rd).
  rewrite Hlet in Hrun. clear Hlet. fold data in Hrun. unfold bind at 1 in Hrun.
  destruct (one_event_File_Write (mkFile target false) data world3) as [okw Htr4].
  pose proof (preserves_File_Write source (mkFile target false) data world3) as Hrem4.
  destruct (File_Write (mkFile target false) data world3) as [wr world4].
  cbn [snd f_path] in *. unfold bind at 1 in Hrun.
  destruct (one_event_File_Close (mkFile target false) world4) as [okc1 Htr5].
  pose proof (preserves_File_Close source (mkFile target false) world4) as Hrem5.
  destruct (File_Close (mkFile target false) world4) as [cl world5].
  cbn [snd f_path] in *. unfold bind at 1 in Hrun.
  match type of Hrun with context [bind ?c ?k ?wd] =>
    destruct (deferred_reader_spec source wd) as ((okc & okr & Htr) & Hgone);
    cbv zeta in Htr, Hgone; fold (bind c k) in Htr, Hgone;
    destruct (bind c k wd) as [[] world6] end.
  cbn [snd] in *. unfold ret in Hrun. simplify_eq.
  assert (Htr5' : w_trace world5
                  = w_trace world ++ [Ev (SysOpen source) true; Ev (SysCreate target) true;
                                      Ev (SysRead source) okrd; Ev (SysWrite target data) okw;
                                      Ev (SysClose target) okc1])
    by (rewrite Htr5, Htr4, Htr3, Htr2, <- !app_assoc; done).
  split.
  - right. right. exists okrd, data, okw, okc1, okc, okr.
    apply new_events_app. rewrite Htr, Htr5', <- !app_assoc. done.
  - intros H1 H2 H3. destruct Hgone as [Hg Ht].
    { apply Hrem5, Hrem4, Hrem3, Hrem2; done. }
    split; [done|]. erewrite new_events_app;
      [|rewrite Ht, Htr5', <- !app_assoc; reflexivity].
    done.
Qed.

End Compression.

(** The rotated file of the example is gone after the run. *)
Lemma compressFile_removes_source_witness :
  w_fs (snd (compressFile example_gzip ["app.1.log"] ["app.1.zip"] blocked_world))
    !! ["app.1.log"] = None.
Proof.
  apply (compressFile_removes_source example_gzip ["app.1.log"] ["app.1.zip"] blocked_world).
  - exists "old records", example_time. vm_compute. reflexivity.
  - reflexivity.
  - reflexivity.
Defined.

(** C2 does not hold as stated: the archive cannot be created, since its
    name is taken by a directory, and the source is removed all the same. *)
Lemma source_removed_without_archive :
  is_file blocked_world ["app.1.log"] /\
  Ev (SysCreate ["app.1.zip"]) false
    ∈ w_trace (snd (compressFile example_gzip ["app.1.log"] ["app.1.zip"] blocked_world)) /\
  fst (compressFile example_gzip ["app.1.log"] ["app.1.zip"] blocked_world)
  = Some "create: is a directory" /\
  ~ is_file (snd (compressFile example_gzip ["app.1.log"] ["app.1.zip"] blocked_world))
      ["app.1.zip"] /\
  w_fs (snd (compressFile example_gzip ["app.1.log"] ["app.1.zip"] blocked_world))
    !! ["app.1.log"] = None.
Proof.
  split; [exists "old records", example_time; vm_compute; reflexivity|].
  split; [vm_compute; set_solver|].
  split; [vm_compute; reflexivity|].
  split; [|vm_compute; reflexivity].
  intros (c & m & H). vm_compute in H. discriminate.
Qed.

(** * The example *)

Lemma example_sink_handle : has_handle example_sink.
Proof. exists (mkFile ["app.log"] false). vm_compute. reflexivity. Qed.

Lemma example_sink_Level : Level example_sink = DEBUG.
Proof. vm_compute. reflexivity. Qed.

Lemma example_time_wf : wf_time example_time.
Proof. unfold wf_time, example_time. cbn. lia. Qed.

(** A warning reaches the file of the example, a debug call is dropped. *)
Lemma level_filtering_witness :
  wrote_line (record_line example_sink example_time "[WARN] disk full" example_sink_world)
    example_sink_world
    (snd (entry_call string example_Sprintf EWarn example_logger "disk full" []
            example_sink_world)) /\
  entry_call string example_Sprintf EDebug example_logger "disk full" [] example_sink_world
  = (Ret example_logger, example_sink_world).
Proof.
  split.
  - pose proof (level_filtering string example_Sprintf EWarn example_logger "disk full" []
                  example_sink_world) as H.
    cbv zeta in H. destruct H as (_ & _ & _ & _ & _ & _ & H).
    destruct (H example_sink Console.NewConsole "file" "console" eq_refl example_sink_handle
                eq_refl) as (Hw & _).
    apply Hw. split; [vm_compute; discriminate|]. rewrite example_sink_Level.
    vm_compute; discriminate.
  - apply (level_filtering string example_Sprintf EDebug example_logger "disk full" []
             example_sink_world).
    reflexivity.
Defined.

(** A warning on the dispatcher of the example serves both sinks. *)
Lemma sync_fanout_witness :
  exists outputs' world',
    entry_call string example_Sprintf EWarn example_logger "disk full" [] example_sink_world
    = (Ret (set_outputs outputs' example_logger), world') /\
    map name outputs' = ["file"; "console"].
Proof.
  destruct (sync_fanout string example_Sprintf EWarn example_logger "disk full" []
              example_sink_world eq_refl ltac:(vm_compute; discriminate))
    as (o & world' & H1 & _ & _ & H4).
  exists o, world'. split; [exact H1|exact H4].
Defined.

(** The header and the line of the example. *)
Lemma header_form_witness :
  fst (formatTimeHeader example_time) = "[2016-04-27 10:18:51.453993]" /\
  exists p ok,
    last (w_trace (snd (WriteMsg example_sink example_time "started" INFO example_sink_world)))
    = Some (Ev (SysWrite p "[2016-04-27 10:18:51.453993][7]started
") ok).
Proof.
  pose proof (header_form example_time example_sink "started" INFO example_sink_world
                example_time_wf example_sink_handle
                ltac:(rewrite example_sink_Level; vm_compute; discriminate)) as H.
  cbv zeta in H. destruct H as (_ & _ & _ & _ & p & ok & H).
  split; [reflexivity|]. exists p, ok. rewrite H. reflexivity.
Defined.

(** A console sink configured with the level name VERBOSE. *)
Lemma invalid_logLevel_runs_at_DEBUG_witness :
  transLogLevel "VERBOSE" = DEBUG /\
  Console.Init Console.NewConsole (config_with_level [] "VERBOSE") example_world
  = ((Console.mkConsoleWriter "VERBOSE" DEBUG, None), example_world).
Proof.
  pose proof (invalid_logLevel_runs_at_DEBUG "VERBOSE" [] newFileWriter Console.NewConsole
                example_world ltac:(compute_done)) as (_ & H1 & _ & _ & H2).
  split; [exact H1|exact H2].
Defined.

(** A record of the next day makes the sink of the example rotate. *)
Lemma WriteMsg_rotates_iff_witness :
  rotation_attempted example_sink example_sink_world
    (snd (WriteMsg example_sink next_day "started" INFO example_sink_world)).
Proof.
  apply (WriteMsg_rotates_iff example_sink next_day "started" INFO example_sink_world).
  - rewrite example_sink_Level. vm_compute. discriminate.
  - unfold int64_range. split; vm_compute; [discriminate|reflexivity].
  - split; [reflexivity|]. right. right. split; [reflexivity|]. vm_compute. discriminate.
Defined.

(** C5 does not hold as stated: the file was opened on 27 April, the record
    is of 27 May, daily rotation is on and no other trigger holds, and no
    rotation is attempted. *)
Lemma no_rotation_a_month_later :
  Rotate example_sink = true /\ Daily example_sink = true /\
  w_clock example_world 0%nat = example_time /\
  calendar_day next_month <> calendar_day example_time /\
  ~ rotation_attempted example_sink example_sink_world
      (snd (WriteMsg example_sink next_month "started" INFO example_sink_world)).
Proof.
  split; [reflexivity|]. split; [reflexivity|]. split; [reflexivity|].
  split; [discriminate|].
  intros [ok H]. vm_compute in H.
  apply list_elem_of_singleton in H. discriminate.
Qed.

(** * Retention *)

Lemma deleteLoop_spec w dir st keys acc world :
  (forall k, k ∈ keys -> is_Some (fileTimeMap st !! k)) ->
  exists n,
    (n <= length keys)%nat /\
    Forall2 (removes_recorded dir st)
            (new_events world (snd (deleteLoop w dir st keys acc world))) (take n keys) /\
    (forall m, (m < n)%nat ->
               deleted_size st acc (take m keys) <= sub64 (totalSize st) (MaxTotalSize w)) /\
    (n = length keys \/
     sub64 (totalSize st) (MaxTotalSize w) < deleted_size st acc (take n keys)).
Proof.
  revert acc world. induction keys as [|v keys IH]; intros acc world Hrec.
  - exists 0%nat. cbn [deleteLoop ret snd take length]. unfold new_events.
    rewrite drop_all. repeat split; [lia|constructor|intros; lia|by left].
  - cbn [deleteLoop].
    destruct (Z.ltb_spec (sub64 (totalSize st) (MaxTotalSize w)) acc) as [Hlt|Hge].
    { exists 0%nat. cbn [ret snd take length]. unfold new_events. rewrite drop_all.
      repeat split; [lia|constructor|intros; lia|by right]. }
    destruct (Hrec v) as [info Hinfo]; [by left|]. rewrite Hinfo. unfold bind.
    destruct (one_event_os_Remove (filepath_Join dir (fi_Name info)) world) as [ok Htr].
    destruct (os_Remove _ world) as [r world1]. cbn [snd] in Htr.
    destruct (IH (add64 acc (fi_Size info)) world1) as (n & Hn & Hev & Hbelow & Hstop).
    { intros k Hk. apply Hrec. by right. }
    exists (S n). cbn [take length].
    assert (Hstep : forall l, deleted_size st acc (v :: l)
                              = deleted_size st (add64 acc (fi_Size info)) l)
      by (intros l; unfold deleted_size; cbn [foldl]; by rewrite Hinfo).
    split; [lia|]. split; [|split].
    + assert (new_events world (snd (deleteLoop w dir st keys (add64 acc (fi_Size info)) world1))
              = Ev (SysRemove (filepath_Join dir (fi_Name info))) ok ::
                new_events world1
                  (snd (deleteLoop w dir st keys (add64 acc (fi_Size info)) world1))) as ->.
      { pose proof (emits_new_events (fun _ => True)
                      (deleteLoop w dir st keys (add64 acc (fi_Size info))) world1) as He.
        assert (emits (fun _ => True)
                  (deleteLoop w dir st keys (add64 acc (fi_Size info)))) as Hem.
        { clear. generalize (add64 acc (fi_Size info)). induction keys as [|k keys IHk];
            intros a; cbn [deleteLoop]; [apply emits_ret|].
          destruct (_ <? _); [apply emits_ret|].
          destruct (fileTimeMap st !! k); [|apply emits_ret].
          apply emits_bind; [|intros; apply IHk].
          intros wd. destruct (one_event_os_Remove (filepath_Join dir (fi_Name f)) wd)
            as [ok' H']. eexists. split; [exact H'|]. by repeat constructor. }
        destruct (Hem world1) as (evs & Hevs & _).
        unfold new_events. rewrite Hevs, Htr. rewrite drop_app_length.
        rewrite <- app_assoc, drop_app_length. reflexivity. }
      constructor; [by exists info|exact Hev].
    + intros [|m] Hm.
      * cbn [take]. unfold deleted_size. cbn [foldl]. lia.
      * cbn [take]. rewrite Hstep. apply Hbelow. lia.
    + destruct Hstop as [->|Hstop]; [by left|right]. by rewrite Hstep.
Qed.

(** ** What the callback keeps *)

Lemma forEach_inv {A B : Type} (I : A -> Prop) (f : A -> B -> M A) :
  (forall a b w, I a -> I (fst (f a b w))) ->
  forall l a w, I a -> I (fst (forEach f l a w)).
Proof.
  intros Hf l. induction l as [|b l IH]; intros a w Ha; cbn [forEach]; [done|].
  unfold bind. specialize (Hf a b w Ha). destruct (f a b w) as [a' w']. by apply IH.
Qed.

Lemma walk_inv {A : Type} (I : A -> Prop) (fn : A -> path * option FileInfo -> M A) :
  (forall a v w, I a -> I (fst (fn a v w))) ->
  forall fuel p info a w, I a -> I (fst (walk fuel fn p info a w)).
Proof.
  intros Hf fuel. induction fuel as [|fuel IH]; intros p info a w Ha; cbn [walk]; [done|].
  destruct (negb (fi_IsDir info)); [by apply Hf|].
  unfold bind, readDirNames.
  pose proof (Hf a (p, Some info) w Ha) as Ha'. destruct (fn a (p, Some info) w) as [a' w'].
  apply forEach_inv; [|done]. intros a0 name w0 Ha0.
  destruct (os_Lstat (filepath_Join p name) w0) as [[fileInfo|e] w1]; [by apply IH|].
  by apply Hf.
Qed.

Lemma walkFn_keys_recorded w st v world :
  keys_recorded st -> keys_recorded (fst (walkFn w st v world)).
Proof.
  intros Hst. unfold walkFn. destruct v as [p [info|]]; [|by unfold bind, ret, print_stderr].
  destruct (fi_IsDir info); [done|].
  destruct (negb _); [done|].
  unfold bind, time_Now. destruct (_ <? _).
  - by destruct (os_Remove p _).
  - unfold ret. cbn [fst]. intros k Hk. cbn [timeKeys fileTimeMap] in *.
    destruct (decide (k = time_Format LOG_PATTERN (fi_ModTime info))) as [->|Hne].
    + rewrite lookup_insert_eq. by eexists.
    + rewrite lookup_insert_ne by done. apply Hst.
      apply elem_of_app in Hk as [Hk|Hk]; [done|].
      apply list_elem_of_singleton in Hk. done.
Qed.

(** The walk of [deleteOldLog] records every key it lists. *)
Lemma deleteOldLog_keys_recorded w world :
  keys_recorded
    (fst (filepath_Walk (filepath_Dir (Filename w)) (walkFn w) (mkWalkState 0 ∅ []) world)).
Proof.
  assert (keys_recorded (mkWalkState 0 ∅ [])) as H0
    by (intros k Hk; by apply elem_of_nil in Hk).
  unfold filepath_Walk, bind.
  destruct (os_Lstat _ world) as [[info|e] world1].
  - apply (walk_inv keys_recorded); [|done]. intros. by apply walkFn_keys_recorded.
  - by apply walkFn_keys_recorded.
Qed.

(** ** The age rule of the callback *)

Lemma walkFn_skips w st p info world :
  fi_IsDir info = true \/ strings_HasPrefix (List.last p ".") (fileNameOnly w) = false ->
  walkFn w st (p, Some info) world = (st, world).
Proof.
  intros [H|H]; unfold walkFn; [by rewrite H|].
  destruct (fi_IsDir info); [done|]. by rewrite H.
Qed.

Lemma walkFn_expired w st p info world :
  fi_IsDir info = false -> strings_HasPrefix (List.last p ".") (fileNameOnly w) = true ->
  t_unix (fi_ModTime info)
  < sub64 (t_unix (w_clock world (w_tick world))) (mul64 ONE_DAY_SECONDS (MaxDays w)) ->
  fst (walkFn w st (p, Some info) world) = st /\
  exists ok, new_events world (snd (walkFn w st (p, Some info) world)) = [Ev (SysRemove p) ok].
Proof.
  intros Hd Hp Hold. unfold walkFn. rewrite Hd, Hp. cbn [negb].
  unfold bind, time_Now.
  destruct (Z.ltb_spec (t_unix (fi_ModTime info))
              (sub64 (t_unix (w_clock world (w_tick world)))
                 (mul64 ONE_DAY_SECONDS (MaxDays w)))); [|lia].
  destruct (one_event_os_Remove p (set_tick (S (w_tick world)) world)) as [ok Htr].
  destruct (os_Remove p _) as [r world1]. cbn [snd] in Htr. unfold ret. cbn [fst snd].
  split; [done|]. exists ok. by apply new_events_app.
Qed.

Lemma walkFn_kept w st p info world :
  fi_IsDir info = false -> strings_HasPrefix (List.last p ".") (fileNameOnly w) = true ->
  sub64 (t_unix (w_clock world (w_tick world))) (mul64 ONE_DAY_SECONDS (MaxDays w))
  <= t_unix (fi_ModTime info) ->
  totalSize (fst (walkFn w st (p, Some info) world)) = add64 (totalSize st) (fi_Size info) /\
  new_events world (snd (walkFn w st (p, Some info) world)) = [].
Proof.
  intros Hd Hp Hnew. unfold walkFn. rewrite Hd, Hp. cbn [negb].
  unfold bind, time_Now.
  destruct (Z.ltb_spec (t_unix (fi_ModTime info))
              (sub64 (t_unix (w_clock world (w_tick world)))
                 (mul64 ONE_DAY_SECONDS (MaxDays w)))); [lia|].
  unfold ret. cbn [fst snd totalSize]. split; [done|].
  unfold new_events. cbn [w_trace set_tick]. apply drop_all.
Qed.

Lemma walked_ABC_keys : keys_recorded (fst walked_ABC).
Proof.
  unfold walked_ABC. apply forEach_inv.
  - intros. by apply walkFn_keys_recorded.
  - intros k Hk. by apply elem_of_nil in Hk.
Qed.

(** C3: the size rule goes through the time keys in ascending order and
    removes the file recorded under each, adding its size to the deleted
    size, until the deleted size strictly exceeds the total size less the
    budget; it removes nothing when the total is within the budget.  For
    A (oldest, 5 MB), B (7 MB) and C (newest, 3 MB) and a budget of 10 MB it
    removes A, then B, and leaves C; so does a whole run on three such files
    of 5, 7 and 3 bytes under a budget of 10 bytes. *)
Theorem size_rule_oldest_first (w : fileLogWriter) (dir : path) (st : walkState)
    (world : World) :
  keys_recorded st ->
  let excess := sub64 (totalSize st) (MaxTotalSize w) in
  let keys := merge_sort String.le (timeKeys st) in
  let evs := new_events world (snd (deleteOldLog_bySize w dir st world)) in
  (Sorted String.le keys /\ keys ≡ₚ timeKeys st) /\
  (excess <= 0 -> evs = []) /\
  (0 < excess ->
   exists n, (n <= length keys)%nat /\
     Forall2 (removes_recorded dir st) evs (take n keys) /\
     (forall m, (m < n)%nat -> deleted_size st 0 (take m keys) <= excess) /\
     (n = length keys \/ excess < deleted_size st 0 (take n keys))) /\
  (forall world0,
      keys_recorded
        (fst (filepath_Walk (filepath_Dir (Filename w)) (walkFn w) (mkWalkState 0 ∅ [])
                world0)) /\
      deleteOldLog w world0
      = (let (st0, world1) :=
           filepath_Walk (filepath_Dir (Filename w)) (walkFn w) (mkWalkState 0 ∅ []) world0 in
         deleteOldLog_bySize w (filepath_Dir (Filename w)) st0 world1)) /\
  (map fi_Size [file_A; file_B; file_C] = [5 * MB; 7 * MB; 3 * MB] /\
   MaxTotalSize budget_sink = 10 * MB /\
   totalSize (fst walked_ABC) = 15 * MB /\
   map ev_call
     (new_events (snd walked_ABC)
        (snd (deleteOldLog_bySize budget_sink [] (fst walked_ABC) (snd walked_ABC))))
   = [SysRemove ["app.3.zip"]; SysRemove ["app.1.zip"]]) /\
  (MaxTotalSize scaled_sink = 10 /\
   new_events scaled_sink_world (snd (deleteOldLog scaled_sink scaled_sink_world))
   = [Ev (SysLstat ["logs"]) true; Ev (SysLstat ["logs"; "app.1.zip"]) true;
      Ev (SysLstat ["logs"; "app.2.zip"]) true; Ev (SysLstat ["logs"; "app.3.zip"]) true;
      Ev (SysLstat ["logs"; "app.log"]) true;
      Ev (SysRemove ["logs"; "app.3.zip"]) true; Ev (SysRemove ["logs"; "app.1.zip"]) true] /\
   w_fs (snd (deleteOldLog scaled_sink scaled_sink_world)) !! ["logs"; "app.3.zip"] = None /\
   w_fs (snd (deleteOldLog scaled_sink scaled_sink_world)) !! ["logs"; "app.1.zip"] = None /\
   w_fs (snd (deleteOldLog scaled_sink scaled_sink_world)) !! ["logs"; "app.2.zip"]
   = Some (NFile "CCC" day26)).
Proof.
  intros Hrec excess keys evs.
  split; [split; [apply Sorted_merge_sort; apply _|apply merge_sort_Permutation]|].
  split; [|split; [|split; [|split]]].
  - intros Hle. subst evs. unfold deleteOldLog_bySize. fold excess.
    destruct (Z.leb_spec excess 0); [|lia]. unfold new_events, ret. cbn [snd]. apply drop_all.
  - intros Hlt. subst evs. unfold deleteOldLog_bySize. fold excess keys.
    destruct (Z.leb_spec excess 0); [lia|].
    apply deleteLoop_spec. intros k Hk. apply Hrec.
    subst keys. by rewrite merge_sort_Permutation in Hk.
  - intros world0. split; [apply deleteOldLog_keys_recorded|reflexivity].
  - repeat split; vm_compute; reflexivity.
  - repeat split; vm_compute; reflexivity.
Qed.

(** The keys of the three files are sorted and their total is over the budget. *)
Lemma size_rule_oldest_first_witness :
  Sorted String.le (merge_sort String.le (timeKeys (fst walked_ABC))) /\
  0 < sub64 (totalSize (fst walked_ABC)) (MaxTotalSize budget_sink).
Proof.
  split; [|vm_compute; reflexivity].
  apply (size_rule_oldest_first budget_sink [] (fst walked_ABC) (snd walked_ABC)
           walked_ABC_keys).
Defined.

(** C6, at an input where the code departs from it: the sink is on
    [logs/app.log] with no budget, a file [app.old] lies in the
    subdirectory [logs/sub] and an empty directory [logs/app.old] next to
    the log file.  The walk records the file under its name; the size rule
    joins that name to the directory of the sink and removes the empty
    directory, while the file stays. *)
Theorem retention_removes_directory :
  w_fs nested_sink_world !! ["logs"; "app.old"] = Some (NDir day25) /\
  below (w_fs nested_sink_world) ["logs"; "app.old"] = [] /\
  w_fs nested_sink_world !! ["logs"; "sub"; "app.old"] = Some (NFile "older records" day25) /\
  Ev (SysRemove ["logs"; "app.old"]) true
    ∈ new_events nested_sink_world (snd (deleteOldLog nested_sink nested_sink_world)) /\
  w_fs (snd (deleteOldLog nested_sink nested_sink_world)) !! ["logs"; "app.old"] = None /\
  w_fs (snd (deleteOldLog nested_sink nested_sink_world)) !! ["logs"; "sub"; "app.old"]
  = Some (NFile "older records" day25).
Proof.
  repeat split; try (vm_compute; reflexivity).
  vm_compute. set_solver.
Qed.

(** * Attaching and detaching sinks *)

Lemma existsb_name logType (ls : list nameLogger) :
  existsb (fun l => bool_decide (name l = logType)) ls = true <-> logType ∈ map name ls.
Proof.
  induction ls as [|l ls IH]; cbn [existsb map].
  - split; [discriminate|]. intros H. by apply elem_of_nil in H.
  - rewrite orb_true_iff, IH, elem_of_cons, bool_decide_eq_true. split; intros [H|H]; auto.
Qed.

Lemma DelLogger_loop_filter a ls world :
  fst (DelLogger_loop a ls world) = filter (fun l => name l <> a) ls.
Proof.
  revert world. induction ls as [|l ls IH]; intros world; cbn [DelLogger_loop]; [done|].
  destruct (decide (name l = a)) as [E|E].
  - unfold bind. destruct (sink_Destroy (nl_sink l) world) as [s world1].
    rewrite IH. by rewrite filter_cons_False by (intros H; by apply H).
  - unfold bind. specialize (IH world).
    destruct (DelLogger_loop a ls world) as [rest world1]. cbn [fst] in *. unfold ret.
    cbn [fst]. rewrite filter_cons_True by done. by rewrite IH.
Qed.

Lemma DelLogger_loop_absent a ls world :
  a ∉ map name ls -> DelLogger_loop a ls world = (ls, world).
Proof.
  revert world. induction ls as [|l ls IH]; intros world Hn; cbn [DelLogger_loop]; [done|].
  cbn [map] in Hn. apply not_elem_of_cons in Hn as [Hne Hn].
  destruct (decide (name l = a)) as [E|E]; [done|].
  unfold bind. by rewrite IH.
Qed.

Lemma filter_name_length a (ls : list nameLogger) :
  length (filter (fun l => name l <> a) ls) = length ls <-> a ∉ map name ls.
Proof.
  induction ls as [|l ls IH]; cbn [map length].
  - split; [intros _ H; by apply elem_of_nil in H|done].
  - pose proof (length_filter (fun l => name l <> a) ls) as Hle.
    rewrite not_elem_of_cons. destruct (decide (name l = a)) as [E|E].
    + rewrite filter_cons_False by (intros H; by apply H). split; [lia|]. intros [H _]. done.
    + rewrite filter_cons_True by done. cbn [length]. rewrite <- IH. split.
      * intros H. split; [done|lia].
      * intros [_ H]. lia.
Qed.

Lemma filter_name_absent a (ls : list nameLogger) :
  a ∉ map name (filter (fun l => name l <> a) ls).
Proof.
  intros H. apply list_elem_of_fmap in H as (l & -> & Hl).
  apply list_elem_of_filter in Hl as [Hne _]. by apply Hne.
Qed.

Lemma filter_name_id a (ls : list nameLogger) :
  a ∉ map name ls -> filter (fun l => name l <> a) ls = ls.
Proof.
  induction ls as [|l ls IH]; [done|]. cbn [map]. intros [Hne Hn]%not_elem_of_cons.
  rewrite filter_cons_True by done. by rewrite IH.
Qed.

Lemma DelLogger_present log adapterName world :
  adapterName ∈ map name (outputs log) ->
  snd (fst (DelLogger log adapterName world)) = None /\
  fst (fst (DelLogger log adapterName world))
  = set_outputs (filter (fun l => name l <> adapterName) (outputs log)) log.
Proof.
  intros Hin. unfold DelLogger, bind.
  pose proof (DelLogger_loop_filter adapterName (outputs log) world) as Hf.
  destruct (DelLogger_loop adapterName (outputs log) world) as [o world1]. cbn [fst] in Hf.
  subst o. destruct (Nat.eqb_spec (length (filter (fun l => name l <> adapterName)
                                             (outputs log))) (length (outputs log))) as [E|E].
  - apply filter_name_length in E. done.
  - unfold ret. cbn [fst snd]. done.
Qed.

(** [DelLogger] keeps exactly the sinks of another name, as they are and in
    their order; it fails, and does nothing at all, exactly when no sink has
    the name. *)
Theorem DelLogger_filters (log : Logger) (adapterName : string) (world : World) :
  (adapterName ∉ map name (outputs log) ->
   DelLogger log adapterName world
   = ((log, Some ("logs: unknown adaptername " +:+ quote adapterName
                  +:+ " (forgotten Register?)")), world)) /\
  (adapterName ∈ map name (outputs log) ->
   snd (fst (DelLogger log adapterName world)) = None /\
   fst (fst (DelLogger log adapterName world))
   = set_outputs (filter (fun l => name l <> adapterName) (outputs log)) log /\
   adapterName ∉ map name (outputs (fst (fst (DelLogger log adapterName world))))).
Proof.
  split.
  - intros Hn. unfold DelLogger, bind. rewrite DelLogger_loop_absent by done.
    by rewrite Nat.eqb_refl.
  - intros Hin. destruct (DelLogger_present log adapterName world Hin) as [E1 E2].
    rewrite E1, E2. cbn [outputs set_outputs]. repeat split. apply filter_name_absent.
Qed.

(** The dispatcher of the example loses its file sink and keeps the console. *)
Lemma DelLogger_filters_witness :
  map name (outputs (fst (fst (DelLogger example_logger "file" example_sink_world))))
  = ["console"].
Proof.
  destruct (DelLogger_filters example_logger "file" example_sink_world) as [_ H].
  destruct H as (_ & -> & _); [compute_done|]. reflexivity.
Defined.

(** [setLogger] keeps the names of the sinks distinct: it refuses a name
    that is attached, without touching the world; when it succeeds the new
    sink is the last of the list and the others are as they were; when it
    fails the dispatcher is as it was. *)
Theorem setLogger_keeps_names_distinct (adapters : gmap string loggerType) (log : Logger)
    (logType : string) (config : jsonConfig) (world : World) :
  NoDup (map name (outputs log)) ->
  NoDup (map name (outputs (fst (fst (setLogger adapters log logType config world))))) /\
  (logType ∈ map name (outputs log) ->
   setLogger adapters log logType config world
   = ((log, Some ("logs:dumplicate log type is being set, logType " +:+ quote logType)),
      world)) /\
  (lookup_adapter logType adapters = None ->
   snd (fst (setLogger adapters log logType config world)) <> None /\
   snd (setLogger adapters log logType config world) = world) /\
  (snd (fst (setLogger adapters log logType config world)) = None ->
   (logType ∉ map name (outputs log)) /\
   exists s, fst (fst (setLogger adapters log logType config world))
             = set_outputs (outputs log ++ [mkNameLogger s logType]) log) /\
  (snd (fst (setLogger adapters log logType config world)) <> None ->
   fst (fst (setLogger adapters log logType config world)) = log).
Proof.
  intros Hnd. unfold setLogger, lookup_adapter.
  destruct (existsb _ (outputs log)) eqn:Ex.
  { apply existsb_name in Ex. unfold ret. cbn [fst snd]. repeat split; try done. }
  assert (Hn : logType ∉ map name (outputs log)).
  { intros H. apply existsb_name in H. congruence. }
  destruct (adapters !! logType) as [logFun|] eqn:Ea.
  2:{ unfold ret. cbn [fst snd]. repeat split; try done. }
  unfold bind. destruct (sink_Init (logFun tt) config world) as [[s [err|]] world1].
  - unfold ret. cbn [fst snd]. repeat split; try done.
  - unfold ret. cbn [fst snd outputs set_outputs]. repeat split; try done.
    + rewrite map_app. cbn [map name]. apply NoDup_app. split; [done|]. split.
      * intros x Hx Hx'. apply list_elem_of_singleton in Hx'. by subst.
      * apply NoDup_singleton.
    + by exists s.
Qed.

(** A second console sink is refused on a dispatcher that has one. *)
Lemma setLogger_keeps_names_distinct_witness :
  NoDup (map name (outputs (fst (fst (setLogger init_adapters example_logger "console"
                                        JsonEmpty example_sink_world))))).
Proof.
  apply (setLogger_keeps_names_distinct init_adapters example_logger "console" JsonEmpty
           example_sink_world).
  compute_done.
Defined.

(** A sink that [setLogger] attached is detached by [DelLogger] under the
    same name, and the list of sinks is then the one before. *)
Theorem setLogger_DelLogger (adapters : gmap string loggerType) (log log' : Logger)
    (logType : string) (config : jsonConfig) (world world' world'' : World) :
  setLogger adapters log logType config world = ((log', None), world') ->
  snd (fst (DelLogger log' logType world'')) = None /\
  fst (fst (DelLogger log' logType world'')) = log.
Proof.
  intros E. unfold setLogger in E.
  destruct (existsb _ (outputs log)) eqn:Ex; [discriminate|].
  assert (Hn : logType ∉ map name (outputs log)).
  { intros H. apply existsb_name in H. congruence. }
  destruct (adapters !! logType) as [logFun|]; [|discriminate].
  unfold bind in E. destruct (sink_Init (logFun tt) config world) as [[s [err|]] world1];
    [discriminate|]. unfold ret in E. simplify_eq.
  destruct (DelLogger_present (set_outputs (outputs log ++ [mkNameLogger s logType]) log)
              logType world'') as (-> & ->).
  { cbn [outputs set_outputs]. rewrite map_app. apply elem_of_app. right. by left. }
  split; [done|]. cbn [outputs set_outputs]. rewrite filter_app, filter_name_id by done.
  rewrite filter_cons_False by (cbn [name]; intros H; by apply H).
  rewrite filter_nil, app_nil_r. by destruct log.
Qed.

(** The console sink goes on the empty dispatcher and off again. *)
Lemma setLogger_DelLogger_witness :
  fst (fst (DelLogger (fst (fst (setLogger init_adapters empty_logger "console" JsonEmpty
                                   example_world)))
              "console" example_world))
  = empty_logger.
Proof.
  apply (setLogger_DelLogger init_adapters empty_logger _ "console" JsonEmpty example_world
           example_world example_world).
  reflexivity.
Defined.

(** * The queue *)




Section Facade.
Context (operand : Type) (fmt_Sprintf : string -> list operand -> string).



End Facade.



(** * Initialising the file sink *)

Lemma startLogger_config w world :
  let w' := fst (fst (startLogger w world)) in
  LogLevel w' = LogLevel w /\ fileNameOnly w' = fileNameOnly w /\
  MaxSize w' = MaxSize w /\ MaxTotalSize w' = MaxTotalSize w /\ MaxLines w' = MaxLines w /\
  MaxDays w' = MaxDays w /\ Rotate w' = Rotate w /\ Daily w' = Daily w.
Proof.
  cbv zeta. unfold startLogger, createLogFile, initFd, close_fileWriter, bind, ret.
  repeat (case_match; simplify_eq;
          cbn [fst snd LogLevel fileNameOnly MaxSize MaxTotalSize MaxLines MaxDays Rotate Daily
               set_fileWriter set_counters fileWriter] in * );
    repeat split.
Qed.

Lemma len_zero s : len s = 0 <-> s = EmptyString.
Proof. unfold len. destruct s; simpl; split; intros; try done; lia. Qed.


(** A sink that [Init] has set up holds an open handle on its file and
    counters that agree with the file, whether the file is new or was
    there; its level is the one its level name stands for, whatever the
    configuration says under [Level]; and its name is not empty. *)
Theorem Init_establishes_counters (w w' : fileLogWriter) (cfg : jsonConfig)
    (world world' : World) :
  Init w cfg world = ((w', None), world') -> file_fits w' world' ->
  counters_ok w' world' /\ Level w' = transLogLevel (LogLevel w') /\
  Filename w' <> EmptyString.
Proof.
  unfold Init. destruct (json_Unmarshal cfg w) as [w0 [err|]]; [intros [=]|].
  destruct (Z.eqb_spec (len (Filename w0)) 0) as [E0|E0]; [intros [=]|].
  cbv zeta. intros E Hfit.
  match type of E with startLogger ?x world = _ =>
    pose proof (startLogger_Level x world) as HL;
    pose proof (startLogger_Filename x world) as HF;
    pose proof (startLogger_config x world) as (HLL & _);
    pose proof (startLogger_counters x world w' world' E) as Hok
  end.
  rewrite E in HL, HF, HLL. cbn [fst Level Filename LogLevel] in HL, HF, HLL.
  split; [|split].
  - apply Hok. intros c m. cbn [Filename]. rewrite <- HF. apply Hfit.
  - by rewrite HL, HLL.
  - rewrite HF. intros H. apply E0. by apply len_zero.
Qed.

(** The sink of the example after its [Init]. *)
Lemma Init_establishes_counters_witness :
  counters_ok example_sink example_sink_world /\ Level example_sink = DEBUG.
Proof.
  destruct (Init_establishes_counters newFileWriter example_sink example_config example_world
              example_sink_world) as (H1 & H2 & _).
  - reflexivity.
  - intros c m H. vm_compute in H. injection H as <- _. reflexivity.
  - split; [exact H1|]. rewrite H2. reflexivity.
Defined.



(** * The names retention looks for *)

Lemma prefix_substring k s : String.prefix (substring 0 k s) s = true.
Proof.
  revert k. induction s as [|c s IH]; intros [|k]; cbn [substring String.prefix]; try done.
  destruct (ascii_dec c c); [apply IH|done].
Qed.

Lemma prefix_refl s : String.prefix s s = true.
Proof.
  induction s as [|c s IH]; cbn [String.prefix]; [done|]. by destruct (ascii_dec c c).
Qed.

Lemma prefix_app p s : String.prefix p (p +:+ s) = true.
Proof.
  induction p as [|c p IH]; [by destruct s|].
  change (String c p +:+ s) with (String c (p +:+ s)). cbn [String.prefix].
  by destruct (ascii_dec c c).
Qed.

Lemma HasPrefix_TrimSuffix s suf : strings_HasPrefix s (strings_TrimSuffix s suf) = true.
Proof.
  unfold strings_HasPrefix, strings_TrimSuffix.
  destruct (strings_HasSuffix s suf); [apply prefix_substring|apply prefix_refl].
Qed.

(** Retention takes a file for one of the sink's by the prefix
    [fileNameOnly].  After [Init] the sink's own file name has that prefix,
    and so have the names a rotation gives to the renamed file and to its
    archive: all of them count towards the total and can be removed. *)
Theorem retention_prefix_covers_own_files (w w' : fileLogWriter) (cfg : jsonConfig)
    (world world' : World) :
  Init w cfg world = ((w', None), world') ->
  strings_HasPrefix (filepath_Base (Filename w')) (fileNameOnly w') = true /\
  forall (when : Time) (world0 : World) (t : task),
    t ∈ drop (length (w_spawned world0)) (w_spawned (snd (doRotate w' when world0))) ->
    strings_HasPrefix (List.last (task_logName t) ".") (fileNameOnly w') = true /\
    strings_HasPrefix (List.last (task_zipName t) ".") (fileNameOnly w') = true.
Proof.
  intros E. split.
  - unfold Init in E. destruct (json_Unmarshal cfg w) as [w0 [err|]]; [discriminate|].
    destruct (len (Filename w0) =? 0); [discriminate|]. cbv zeta in E.
    match type of E with startLogger ?x world = _ =>
      pose proof (startLogger_Filename x world) as HF;
      pose proof (startLogger_config x world) as (_ & HN & _)
    end.
    rewrite E in HF, HN. cbn [fst Filename fileNameOnly] in HF, HN.
    rewrite HF, HN. apply HasPrefix_TrimSuffix.
  - clear. intros when world0 t Ht. unfold doRotate, bind in Ht.
    destruct (os_Lstat _ world0) as [[info|e] world1] eqn:E1.
    2:{ unfold ret in Ht. cbn [snd] in Ht.
        assert (w_spawned world1 = w_spawned world0) as Hs.
        { pose proof (keeps_os_Lstat w_spawned (fun _ _ => eq_refl) (path_of (Filename w'))
                        world0) as Hk. by rewrite E1 in Hk. }
        rewrite Hs, drop_all in Ht. by apply elem_of_nil in Ht. }
    assert (w_spawned world1 = w_spawned world0) as Hs1.
    { pose proof (keeps_os_Lstat w_spawned (fun _ _ => eq_refl) (path_of (Filename w'))
                    world0) as Hk. by rewrite E1 in Hk. }
    pose proof (File_close_fileWriter_keeps w_spawned (fun _ _ => eq_refl) w' world1) as Hs2.
    pose proof (close_fileWriter_Filename w' world1) as HF.
    destruct (close_fileWriter w' world1) as [w1 world2]. cbn [fst snd] in *. cbv zeta in Ht.
    match type of Ht with context [os_Rename ?p ?q world2] =>
      pose proof (keeps_os_Rename w_spawned (fun _ _ => eq_refl) (fun _ _ => eq_refl) p q
                    world2) as Hs3;
      destruct (os_Rename p q world2) as [rerr world3]
    end.
    cbn [snd] in Hs3.
    pose proof (File_startLogger_keeps w_spawned (fun _ _ => eq_refl) (fun _ _ => eq_refl)
                  (fun _ _ => eq_refl) w1 world3) as Hs4.
    destruct (startLogger w1 world3) as [[w2 serr] world4]. cbn [snd] in Hs4.
    unfold go_spawn in Ht.
    assert (Hsp : forall wd, w_spawned (snd ((match serr with
                | Some e => ret (w2, Some ("Rotate StartLogger: " +:+ e +:+ nl))
                | None => match rerr with
                          | Some e => ret (w2, Some ("Rotate: " +:+ e +:+ nl))
                          | None => ret (w2, None)
                          end
                end : M (fileLogWriter * option error)) wd)) = w_spawned wd)
      by (intros; destruct serr, rerr; reflexivity).
    rewrite Hsp in Ht. cbn [w_spawned set_spawned] in Ht.
    rewrite Hs4, Hs3, Hs2, Hs1, drop_app_length in Ht.
    apply list_elem_of_singleton in Ht. subst t. cbn [task_logName task_zipName].
    unfold filepath_Join. split; destruct (decide (filepath_Dir (Filename w1) <> []));
      rewrite ?last_last; cbn [List.last]; apply prefix_app.
Qed.

(** The sink of the example: [app.log] has the prefix [app]. *)
Lemma retention_prefix_covers_own_files_witness :
  strings_HasPrefix (filepath_Base (Filename example_sink)) (fileNameOnly example_sink) = true.
Proof.
  apply (retention_prefix_covers_own_files newFileWriter example_sink example_config
           example_world example_sink_world).
  reflexivity.
Defined.

(** * A sink that was closed *)

Lemma close_fileWriter_closed w world fd :
  fileWriter w = Some fd ->
  fileWriter (fst (close_fileWriter w world)) = Some (mkFile (f_path fd) true) /\
  w_fs (snd (close_fileWriter w world)) = w_fs world /\
  maxLinesCurLines (fst (close_fileWriter w world)) = maxLinesCurLines w /\
  maxSizeCurSize (fst (close_fileWriter w world)) = maxSizeCurSize w /\
  Rotate (fst (close_fileWriter w world)) = Rotate w /\
  Level (fst (close_fileWriter w world)) = Level w.
Proof.
  intros Hfd. unfold close_fileWriter. rewrite Hfd. unfold bind, File_Close, sys, ret.
  destruct fd as [p closed]. cbn [f_closed f_path].
  destruct closed; [|destruct (w_fault world _)]; cbn; done.
Qed.

(** After [Destroy] a sink that does not rotate writes no more: a record
    that passes its filter gets an error back, and neither the counters nor
    any file change. *)
Theorem write_after_Destroy_fails (w : fileLogWriter) (when : Time) (msg : string)
    (level : Z) (world : World) :
  has_handle w -> Rotate w = false -> Level w <= level ->
  let w1 := fst (Destroy w world) in
  let world1 := snd (Destroy w world) in
  snd (fst (WriteMsg w1 when msg level world1)) <> None /\
  maxLinesCurLines (fst (fst (WriteMsg w1 when msg level world1))) = maxLinesCurLines w /\
  maxSizeCurSize (fst (fst (WriteMsg w1 when msg level world1))) = maxSizeCurSize w /\
  w_fs (snd (WriteMsg w1 when msg level world1)) = w_fs world.
Proof.
  intros [fd Hfd] Hr Hl. cbv zeta. unfold Destroy.
  destruct (close_fileWriter_closed w world fd Hfd) as (Hc & Hfs & Hln & Hsz & Hrot & Hlv).
  destruct (close_fileWriter w world) as [w1 world1]. cbn [fst snd] in *.
  rewrite WriteMsg_at_level by lia. cbv zeta.
  unfold WriteMsg_rotate. rewrite Hrot, Hr. unfold ret.
  unfold WriteMsg_write, fileWriter_Write, bind. rewrite Hc.
  unfold File_Write, sys. cbn [f_closed f_path]. unfold ret. cbn [fst snd w_fs set_trace].
  done.
Qed.

(** The sink of the example with rotation off, closed and written to. *)
Lemma write_after_Destroy_fails_witness :
  let w := set_Rotate_off example_sink in
  snd (fst (WriteMsg (fst (Destroy w example_sink_world)) example_time "late" INFO
              (snd (Destroy w example_sink_world))))
  <> None.
Proof.
  cbv zeta.
  apply (write_after_Destroy_fails (set_Rotate_off example_sink) example_time "late" INFO
           example_sink_world).
  - exists (mkFile ["app.log"] false). vm_compute. reflexivity.
  - reflexivity.
  - vm_compute. discriminate.
Defined.

(** * Rotation moves the file *)

Lemma os_Rename_ok p q n world :
  no_faults world -> w_fs world !! p = Some n -> w_fs world !! q = None ->
  os_Rename p q world
  = (None, set_trace (w_trace world ++ [Ev (SysRename p q) true])
             (set_fs (<[q := n]> (delete p (w_fs world))) world)).
Proof. intros Hnf Hp Hq. unfold os_Rename, sys. by rewrite Hnf, Hp, Hq. Qed.

Lemma os_OpenFile_new p world :
  no_faults world -> w_fs world !! p = None ->
  os_OpenFile p world
  = (Ok (mkFile p false),
     set_trace (w_trace world ++ [Ev (SysOpenFile p) true])
       (set_fs (<[p := NFile "" (kernel_time world)]> (w_fs world)) world)).
Proof. intros Hnf Hp. unfold os_OpenFile, sys. by rewrite Hnf, Hp. Qed.

Lemma File_Close_closed f world :
  f_closed f = true ->
  File_Close f world
  = ((f, Some "close: file already closed"),
     set_trace (w_trace world ++ [Ev (SysClose (f_path f)) false]) world).
Proof. intros Hc. unfold File_Close, sys. by rewrite Hc. Qed.

Lemma initFd_fs w : keeps w_fs (initFd w).
Proof.
  intros world. unfold initFd, lines, bind, ret, File_Stat, os_Open, File_ReadAll, File_Close,
    time_Now, sys.
  repeat (case_match; simplify_eq; cbn [fst snd w_fs set_trace set_tick] in * ); reflexivity.
Qed.

Lemma startLogger_fs_other w world x :
  x <> path_of (Filename w) ->
  w_fs (snd (startLogger w world)) !! x = w_fs world !! x.
Proof.
  intros Hx. unfold startLogger, createLogFile, bind.
  assert (w_fs (snd (os_OpenFile (path_of (Filename w)) world)) !! x = w_fs world !! x) as H1.
  { unfold os_OpenFile, sys. repeat case_match; cbn [snd w_fs set_trace set_fs]; try done.
    by rewrite lookup_insert_ne. }
  destruct (os_OpenFile _ world) as [[file|e] world1]; cbn [snd] in H1; [|done].
  pose proof (close_fileWriter_fs w world1) as H2.
  destruct (close_fileWriter w world1) as [w1 world2]. cbn [snd] in H2.
  rewrite initFd_fs, H2. done.
Qed.

(** A rotation of an open sink, when no call is refused and the rotated
    name is free, loses nothing: the content of the file is under the
    rotated name, the sink holds a new and empty file under its own name
    with both counters at zero, every other file is as it was, and one
    goroutine is started to compress the rotated file. *)
Theorem doRotate_moves_content (w : fileLogWriter) (when : Time) (world : World)
    (fd : File) (c : string) (m : Time) :
  fileWriter w = Some fd -> f_closed fd = false -> f_path fd = path_of (Filename w) ->
  w_fs world !! path_of (Filename w) = Some (NFile c m) ->
  no_faults world ->
  w_fs world !! rotated_path w when ".log" = None ->
  snd (fst (doRotate w when world)) = None /\
  w_fs (snd (doRotate w when world)) !! rotated_path w when ".log" = Some (NFile c m) /\
  (exists m', w_fs (snd (doRotate w when world)) !! path_of (Filename w)
              = Some (NFile "" m')) /\
  fileWriter (fst (fst (doRotate w when world))) = Some (mkFile (path_of (Filename w)) false) /\
  maxLinesCurLines (fst (fst (doRotate w when world))) = 0 /\
  maxSizeCurSize (fst (fst (doRotate w when world))) = 0 /\
  w_spawned (snd (doRotate w when world))
  = w_spawned world ++ [CompressAndClean (rotated_path w when ".log")
                          (rotated_path w when ".zip")] /\
  (forall q, q <> path_of (Filename w) -> q <> rotated_path w when ".log" ->
             w_fs (snd (doRotate w when world)) !! q = w_fs world !! q).
Proof.
  intros Hfd Hopen Hp Hc Hnf Hfree.
  assert (Hne : rotated_path w when ".log" <> path_of (Filename w)) by congruence.
  destruct (doRotate w when world) as [[w' e] world'] eqn:Hrun. cbn [fst snd].
  unfold doRotate, bind in Hrun. rewrite (os_Lstat_ok _ (NFile c m)) in Hrun by done.
  unfold close_fileWriter at 1 in Hrun. rewrite Hfd in Hrun. unfold bind in Hrun.
  rewrite File_Close_ok in Hrun by (done || intros ?; apply Hnf).
  unfold ret at 1 in Hrun. cbn [fst] in Hrun. cbv zeta in Hrun.
  cbn [Filename set_fileWriter fileNameOnly] in Hrun.
  fold (rotated_path w when ".log") in Hrun. fold (rotated_path w when ".zip") in Hrun.
  rewrite (os_Rename_ok _ _ (NFile c m)) in Hrun by (done || intros ?; apply Hnf).
  match type of Hrun with context [startLogger ?x ?wd] =>
    set (w1 := x) in *; set (world3 := wd) in * end.
  assert (Hnf3 : no_faults world3) by (intros ?; apply Hnf).
  assert (Hp3 : w_fs world3 !! path_of (Filename w1) = None).
  { subst world3 w1. cbn [w_fs set_trace set_fs Filename set_fileWriter].
    rewrite lookup_insert_ne by done. apply lookup_delete_eq. }
  assert (Hq3 : w_fs world3 !! rotated_path w when ".log" = Some (NFile c m))
    by (subst world3; cbn [w_fs set_trace set_fs]; apply lookup_insert_eq).
  assert (Ho3 : forall q, q <> path_of (Filename w) -> q <> rotated_path w when ".log" ->
                          w_fs world3 !! q = w_fs world !! q).
  { intros q H1 H2. subst world3. cbn [w_fs set_trace set_fs].
    rewrite lookup_insert_ne by done. by rewrite lookup_delete_ne. }
  assert (Hs3 : w_spawned world3 = w_spawned world) by done.
  assert (HF1 : Filename w1 = Filename w) by done.
  clearbody world3 w1.
  destruct (startLogger_ok w1 EmptyString m world3 Hnf3 (or_intror Hp3))
    as (w2 & world4 & E & c' & m' & Hc' & Hle).
  pose proof (startLogger_counters w1 world3 w2 world4 E) as Hok.
  pose proof (startLogger_Filename w1 world3) as HF2.
  pose proof (File_startLogger_keeps w_spawned (fun _ _ => eq_refl) (fun _ _ => eq_refl)
                (fun _ _ => eq_refl) w1 world3) as Hs4.
  pose proof (fun x H => startLogger_fs_other w1 world3 x H) as Ho4.
  rewrite E in HF2, Hs4, Ho4, Hrun. cbn [fst snd] in *.
  assert (c' = EmptyString) as ->.
  { pose proof (len_nonneg c'). apply len_zero. unfold len in *. simpl in Hle. lia. }
  destruct Hok as (fd' & c2 & m2 & Hfd' & Hopen' & Hp' & Hc2 & Hsz & Hln).
  { intros c2 m2. rewrite Hc'. intros [= <- <-]. reflexivity. }
  rewrite Hp', HF2, Hc' in Hc2. simplify_eq.
  unfold go_spawn, ret in Hrun. simplify_eq. cbn [w_fs w_spawned set_spawned].
  assert (Ho4' : forall x, x <> path_of (Filename w) -> w_fs world4 !! x = w_fs world3 !! x)
    by (intros x Hx; apply Ho4; by rewrite HF1).
  clear Ho4. rename Ho4' into Ho4. rewrite HF1 in *.
  split; [done|]. split. { rewrite Ho4. 2: exact Hne. exact Hq3. } split; [eauto|].
  split.
  { rewrite Hfd'. f_equal. destruct fd' as [p' cl']. cbn [f_path f_closed] in *.
    subst. by rewrite HF2. }
  split; [done|]. split; [done|]. split; [by rewrite Hs4, Hs3|].
  intros q H1 H2. rewrite Ho4 by done. by apply Ho3.
Qed.

(** The sink of the example, rotated the day after its first record. *)
Lemma doRotate_moves_content_witness :
  w_fs (snd (doRotate written_sink next_day written_world)) !! ["app.2016-04-28-10-18-51.log"]
  = Some (NFile ("[2016-04-27 10:18:51.453993][7]started" +:+ nl) example_time) /\
  maxSizeCurSize (fst (fst (doRotate written_sink next_day written_world))) = 0.
Proof.
  destruct (doRotate_moves_content written_sink next_day written_world
              (mkFile ["app.log"] false)
              ("[2016-04-27 10:18:51.453993][7]started" +:+ nl) example_time)
    as (_ & H1 & _ & _ & _ & H2 & _).
  - vm_compute. reflexivity.
  - reflexivity.
  - vm_compute. reflexivity.
  - vm_compute. reflexivity.
  - intros c. reflexivity.
  - vm_compute. reflexivity.
  - split; [exact H1|exact H2].
Defined.

(** * Compression *)

Lemma os_Create_ok p world :
  no_faults world -> (forall m, w_fs world !! p <> Some (NDir m)) ->
  os_Create p world
  = (Ok (mkFile p false),
     set_trace (w_trace world ++ [Ev (SysCreate p) true])
       (set_fs (<[p := NFile "" (kernel_time world)]> (w_fs world)) world)).
Proof.
  intros Hnf Hp. unfold os_Create, sys. rewrite Hnf.
  destruct (w_fs world !! p) as [[c m|m]|] eqn:E; try done. by destruct (Hp m).
Qed.

Lemma os_Remove_ok p c m world :
  no_faults world -> w_fs world !! p = Some (NFile c m) ->
  os_Remove p world
  = (None, set_trace (w_trace world ++ [Ev (SysRemove p) true])
             (set_fs (delete p (w_fs world)) world)).
Proof. intros Hnf Hp. unfold os_Remove, sys. by rewrite Hnf, Hp. Qed.

Section Compression.
Variable gzip_encode : string -> string -> string.

(** When no call is refused and the name of the archive is not that of a
    directory, [compressFile] returns no error, the archive holds the gzip
    stream of the source's content under the source's base name, the source
    is gone and every other file is as it was. *)
Theorem compressFile_archives (source target : path) (world : World) (c : string) (m : Time) :
  no_faults world -> w_fs world !! source = Some (NFile c m) -> target <> source ->
  (forall m', w_fs world !! target <> Some (NDir m')) ->
  fst (compressFile gzip_encode source target world) = None /\
  (exists mt, w_fs (snd (compressFile gzip_encode source target world)) !! target
              = Some (NFile (gzip_encode (List.last source ".") c) mt)) /\
  w_fs (snd (compressFile gzip_encode source target world)) !! source = None /\
  (forall q, q <> source -> q <> target ->
             w_fs (snd (compressFile gzip_encode source target world)) !! q
             = w_fs world !! q).
Proof.
  intros Hnf Hs Hne Ht.
  destruct (compressFile gzip_encode source target world) as [res wf] eqn:Hrun.
  cbn [fst snd]. unfold compressFile in Hrun. cbv zeta in Hrun. unfold bind at 1 in Hrun.
  rewrite (os_Open_ok _ (NFile c m)) in Hrun by done.
  unfold bind at 1 in Hrun. rewrite os_Create_ok in Hrun by (done || intros ?; apply Hnf).
  cbv beta iota in Hrun. unfold bind at 1 in Hrun.
  match type of Hrun with context [File_ReadAll _ ?wd] => set (world2 := wd) in * end.
  assert (Hnf2 : no_faults world2) by (intros ?; apply Hnf).
  assert (Hs2 : w_fs world2 !! source = Some (NFile c m))
    by (subst world2; cbn [w_fs set_trace set_fs]; by rewrite lookup_insert_ne).
  assert (Ht2 : w_fs world2 !! target = Some (NFile "" (kernel_time
            (set_trace (w_trace world ++ [Ev (SysOpen source) true]) world))))
    by (subst world2; cbn [w_fs set_trace set_fs]; apply lookup_insert_eq).
  assert (Ho2 : forall q, q <> target -> w_fs world2 !! q = w_fs world !! q)
    by (intros q Hq; subst world2; cbn [w_fs set_trace set_fs]; by rewrite lookup_insert_ne).
  clearbody world2.
  rewrite (File_ReadAll_ok _ c m) in Hrun by done.
  unfold bind at 1 in Hrun.
  rewrite (File_Write_ok _ _ EmptyString _) in Hrun by (done || intros ?; apply Hnf2).
  unfold bind at 1 in Hrun.
  rewrite File_Close_ok in Hrun by (done || intros ?; apply Hnf2).
  unfold bind at 1 2 in Hrun.
  rewrite File_Close_ok in Hrun by (done || intros ?; apply Hnf2).
  unfold bind at 1 in Hrun.
  rewrite (os_Remove_ok _ c m) in Hrun.
  2:{ intros ?; apply Hnf2. }
  2:{ cbn [w_fs set_trace set_fs f_path]. by rewrite lookup_insert_ne. }
  unfold ret in Hrun. simplify_eq. cbn [w_fs set_trace set_fs f_path].
  split; [done|]. split; [|split].
  - eexists. rewrite lookup_delete_ne by done. apply lookup_insert_eq.
  - apply lookup_delete_eq.
  - intros q H1 H2. rewrite lookup_delete_ne, lookup_insert_ne by done. by apply Ho2.
Qed.

End Compression.

(** The rotated file of the example, with a free name for the archive. *)
Lemma compressFile_archives_witness :
  exists mt, w_fs (snd (compressFile example_gzip ["app.1.log"] ["app.2.zip"] blocked_world))
               !! ["app.2.zip"]
             = Some (NFile "app.1.log:old records" mt).
Proof.
  apply (compressFile_archives example_gzip ["app.1.log"] ["app.2.zip"] blocked_world
           "old records" example_time).
  - intros c. reflexivity.
  - vm_compute. reflexivity.
  - discriminate.
  - intros m' H. vm_compute in H. discriminate.
Defined.

(** * What retention touches *)

Lemma forEach_inv2 {A B : Type} (Inv : A -> World -> Prop) (f : A -> B -> M A) :
  (forall a b w, Inv a w -> Inv (fst (f a b w)) (snd (f a b w))) ->
  forall l a w, Inv a w -> Inv (fst (forEach f l a w)) (snd (forEach f l a w)).
Proof.
  intros Hf l. induction l as [|b l IH]; intros a w Ha; cbn [forEach]; [done|].
  unfold bind. specialize (Hf a b w Ha). destruct (f a b w) as [a' w']. by apply IH.
Qed.

Lemma os_Lstat_named q world info world1 :
  os_Lstat q world = (Ok info, world1) -> named_by_path (q, Some info).
Proof.
  unfold os_Lstat, sys. intros H. repeat case_match; simplify_eq.
  unfold named_by_path, info_of. by case_match.
Qed.

Lemma walk_inv2 {A : Type} (Inv : A -> World -> Prop)
    (fn : A -> path * option FileInfo -> M A) :
  (forall a v w, named_by_path v -> Inv a w -> Inv (fst (fn a v w)) (snd (fn a v w))) ->
  (forall a w q, Inv a w -> Inv a (snd (os_Lstat q w))) ->
  forall fuel q info a w,
    named_by_path (q, Some info) -> Inv a w ->
    Inv (fst (walk fuel fn q info a w)) (snd (walk fuel fn q info a w)).
Proof.
  intros Hf HL fuel. induction fuel as [|fuel IH]; intros q info a w Hv Ha; cbn [walk]; [done|].
  destruct (negb (fi_IsDir info)); [by apply Hf|].
  unfold bind, readDirNames.
  pose proof (Hf a (q, Some info) w Hv Ha) as Ha'. destruct (fn a (q, Some info) w) as [a' w'].
  cbn [fst snd] in Ha'.
  apply forEach_inv2; [|done]. intros a0 name0 w0 Ha0.
  pose proof (HL a0 w0 (filepath_Join q name0) Ha0) as HL0.
  destruct (os_Lstat (filepath_Join q name0) w0) as [[fileInfo|e] w1] eqn:E; cbn [snd] in HL0.
  - apply IH; [|done]. by eapply os_Lstat_named.
  - by apply Hf.
Qed.

Lemma filepath_Walk_inv2 {A : Type} (Inv : A -> World -> Prop)
    (fn : A -> path * option FileInfo -> M A) root a w :
  (forall a v w, named_by_path v -> Inv a w -> Inv (fst (fn a v w)) (snd (fn a v w))) ->
  (forall a w q, Inv a w -> Inv a (snd (os_Lstat q w))) ->
  Inv a w ->
  Inv (fst (filepath_Walk root fn a w)) (snd (filepath_Walk root fn a w)).
Proof.
  intros Hf HL Ha. unfold filepath_Walk, bind.
  pose proof (HL a w root Ha) as HL0.
  destruct (os_Lstat root w) as [[info|e] w1] eqn:E; cbn [snd] in HL0.
  - apply walk_inv2; try done. by eapply os_Lstat_named.
  - by apply Hf.
Qed.

Lemma os_Remove_other q p world :
  q <> p -> w_fs (snd (os_Remove q world)) !! p = w_fs world !! p.
Proof.
  intros Hne. unfold os_Remove, sys.
  repeat case_match; cbn [snd w_fs set_trace set_fs]; try done; by rewrite lookup_delete_ne.
Qed.

Lemma os_Lstat_fs q : keeps w_fs (os_Lstat q).
Proof. by apply keeps_os_Lstat. Qed.

Section Spared.
Variable w : fileLogWriter.
Variable p : path.
Variable n : node.
Hypothesis Hp : strings_HasPrefix (List.last p ".") (fileNameOnly w) = false.

Lemma walkFn_spares st v world :
  named_by_path v -> spared w p n st world ->
  spared w p n (fst (walkFn w st v world)) (snd (walkFn w st v world)).
Proof.
  intros Hv [Hst Hfs]. unfold walkFn. destruct v as [q [info|]]; [|by split].
  destruct (fi_IsDir info); [by split|].
  destruct (strings_HasPrefix (List.last q ".") (fileNameOnly w)) eqn:Hq; [|by split].
  cbn [negb]. unfold bind, time_Now. destruct (_ <? _).
  - assert (q <> p) as Hne by (intros ->; congruence).
    pose proof (os_Remove_other q p (set_tick (S (w_tick world)) world) Hne) as Hr.
    destruct (os_Remove q _) as [r world1]. cbn [snd] in Hr. unfold ret. cbn [fst snd].
    split; [done|]. by rewrite Hr.
  - unfold ret. cbn [fst snd]. split; [|done].
    intros k info' Hk. cbn [fileTimeMap] in Hk.
    destruct (decide (k = time_Format LOG_PATTERN (fi_ModTime info))) as [->|Hk'].
    + rewrite lookup_insert_eq in Hk. simplify_eq. cbn in Hv. by rewrite Hv.
    + rewrite lookup_insert_ne in Hk by done. by eapply Hst.
Qed.

Lemma deleteLoop_spares dir st keys acc world :
  names_have_prefix w st -> w_fs world !! p = Some n ->
  w_fs (snd (deleteLoop w dir st keys acc world)) !! p = Some n.
Proof.
  intros Hst. revert acc world. induction keys as [|k keys IH]; intros acc world Hfs;
    cbn [deleteLoop]; [done|].
  destruct (_ <? _); [done|].
  destruct (fileTimeMap st !! k) as [info|] eqn:Hk; [|done].
  unfold bind.
  assert (filepath_Join dir (fi_Name info) <> p) as Hne.
  { intros <-. unfold filepath_Join in Hp. rewrite last_last in Hp.
    rewrite (Hst k info Hk) in Hp. discriminate. }
  pose proof (os_Remove_other _ p world Hne) as Hr.
  destruct (os_Remove _ world) as [r world1]. cbn [snd] in Hr.
  apply IH. by rewrite Hr.
Qed.

Lemma deleteOldLog_spares world :
  w_fs world !! p = Some n -> w_fs (snd (deleteOldLog w world)) !! p = Some n.
Proof.
  intros Hfs. unfold deleteOldLog. cbv zeta. unfold bind.
  pose proof (filepath_Walk_inv2 (spared w p n) (walkFn w) (filepath_Dir (Filename w))
                (mkWalkState 0 ∅ []) world) as H.
  destruct (filepath_Walk _ _ _ world) as [st world1]. cbn [fst snd] in H.
  destruct H as [Hst Hfs1].
  - apply walkFn_spares.
  - intros a w0 q [H1 H2]. split; [done|]. by rewrite os_Lstat_fs.
  - split; [|done]. intros k info Hk. cbn in Hk. by rewrite lookup_empty in Hk.
  - unfold deleteOldLog_bySize. destruct (_ <=? _); [done|]. by apply deleteLoop_spares.
Qed.

End Spared.

(** ** The calls of retention *)

Lemma forEach_emits {A B : Type} (P : event -> Prop) (f : A -> B -> M A) l :
  (forall a b, emits P (f a b)) -> forall a, emits P (forEach f l a).
Proof.
  intros Hf. induction l as [|b l IH]; intros a; cbn [forEach]; [apply emits_ret|].
  apply emits_bind; [apply Hf|apply IH].
Qed.

Lemma walk_emits {A : Type} (P : event -> Prop) (fn : A -> path * option FileInfo -> M A) :
  (forall a v, emits P (fn a v)) -> (forall q ok, P (Ev (SysLstat q) ok)) ->
  forall fuel q info a, emits P (walk fuel fn q info a).
Proof.
  intros Hf HL fuel. induction fuel as [|fuel IH]; intros q info a; cbn [walk];
    [apply emits_ret|].
  destruct (negb (fi_IsDir info)); [apply Hf|].
  apply emits_bind; [by apply emits_silent|]. intros names.
  apply emits_bind; [apply Hf|]. intros a'.
  apply forEach_emits. intros a0 name0.
  apply emits_bind; [apply emits_os_Lstat; apply HL|].
  intros [fileInfo|e]; [apply IH|apply Hf].
Qed.

Lemma walkFn_emits w st v : emits (retention_event w) (walkFn w st v).
Proof.
  unfold walkFn. destruct v as [q [info|]].
  - destruct (fi_IsDir info); [apply emits_ret|].
    destruct (strings_HasPrefix (List.last q ".") (fileNameOnly w)) eqn:Hq;
      [|apply emits_ret].
    cbn [negb]. apply emits_bind; [by apply emits_silent|]. intros now.
    destruct (_ <? _); [|apply emits_ret].
    apply emits_bind; [|intros; apply emits_ret].
    apply emits_os_Remove. intros ok. exact Hq.
  - apply emits_bind; [by apply emits_silent|]. intros; apply emits_ret.
Qed.

Lemma deleteLoop_emits w dir st keys acc :
  names_have_prefix w st -> emits (retention_event w) (deleteLoop w dir st keys acc).
Proof.
  intros Hst. revert acc. induction keys as [|k keys IH]; intros acc; cbn [deleteLoop];
    [apply emits_ret|].
  destruct (_ <? _); [apply emits_ret|].
  destruct (fileTimeMap st !! k) as [info|] eqn:Hk; [|apply emits_ret].
  apply emits_bind; [|intros; apply IH].
  apply emits_os_Remove. intros ok. unfold retention_event. cbn [ev_call].
  unfold filepath_Join. rewrite last_last. by eapply Hst.
Qed.

Lemma walkFn_names w st v world :
  named_by_path v -> names_have_prefix w st ->
  names_have_prefix w (fst (walkFn w st v world)).
Proof.
  intros Hv Hst. unfold walkFn. destruct v as [q [info|]]; [|done].
  destruct (fi_IsDir info); [done|].
  destruct (strings_HasPrefix (List.last q ".") (fileNameOnly w)) eqn:Hq; [|done].
  cbn [negb]. unfold bind, time_Now. destruct (_ <? _).
  - by destruct (os_Remove q _).
  - unfold ret. cbn [fst]. intros k info' Hk. cbn [fileTimeMap] in Hk.
    destruct (decide (k = time_Format LOG_PATTERN (fi_ModTime info))) as [->|Hk'].
    + rewrite lookup_insert_eq in Hk. simplify_eq. cbn in Hv. by rewrite Hv.
    + rewrite lookup_insert_ne in Hk by done. by eapply Hst.
Qed.

(** Besides listing directories, retention calls nothing but [Lstat] and
    [Remove]; it removes only names that have the prefix of the sink, and so
    leaves every file and directory whose name lacks the prefix as it was,
    whatever calls are refused. *)
Theorem retention_spares_other_names (w : fileLogWriter) (world : World) :
  Forall (retention_event w) (new_events world (snd (deleteOldLog w world))) /\
  (forall (p : path) (n : node),
      w_fs world !! p = Some n ->
      strings_HasPrefix (List.last p ".") (fileNameOnly w) = false ->
      w_fs (snd (deleteOldLog w world)) !! p = Some n).
Proof.
  split; [|intros p n Hfs Hp; by apply deleteOldLog_spares].
  unfold deleteOldLog. cbv zeta. unfold bind.
  pose proof (filepath_Walk_inv2 (fun st _ => names_have_prefix w st) (walkFn w)
                (filepath_Dir (Filename w)) (mkWalkState 0 ∅ []) world) as Hst.
  assert (emits (retention_event w)
            (filepath_Walk (filepath_Dir (Filename w)) (walkFn w) (mkWalkState 0 ∅ []))) as Hw.
  { unfold filepath_Walk. apply emits_bind; [by apply emits_os_Lstat|].
    intros [info|e]; [|apply walkFn_emits].
    intros wd. apply walk_emits; [apply walkFn_emits|done]. }
  destruct (Hw world) as (evs1 & E1 & H1).
  destruct (filepath_Walk _ _ _ world) as [st world1]. cbn [fst snd] in *.
  assert (names_have_prefix w st) as Hn.
  { apply Hst.
    - intros. by apply walkFn_names.
    - done.
    - intros k info Hk. cbn in Hk. by rewrite lookup_empty in Hk. }
  assert (emits (retention_event w) (deleteOldLog_bySize w (filepath_Dir (Filename w)) st))
    as Hs.
  { unfold deleteOldLog_bySize. destruct (_ <=? _); [apply emits_ret|].
    by apply deleteLoop_emits. }
  destruct (Hs world1) as (evs2 & E2 & H2).
  unfold new_events. rewrite E2, E1, <- app_assoc, drop_app_length.
  by apply Forall_app.
Qed.

(** The subdirectory of the nested example does not have the prefix. *)
Lemma retention_spares_other_names_witness :
  w_fs (snd (deleteOldLog nested_sink nested_sink_world)) !! ["logs"; "sub"]
  = Some (NDir day24).
Proof.
  apply (retention_spares_other_names nested_sink nested_sink_world).
  - vm_compute. reflexivity.
  - vm_compute. reflexivity.
Defined.

(** * The age rule on a run *)

Lemma child_names_elem fs dir name n :
  fs !! (dir ++ [name]) = Some n -> name ∈ child_names fs dir.
Proof.
  intros H. unfold child_names. rewrite merge_sort_Permutation.
  apply list_elem_of_omap. exists (dir ++ [name]). split.
  - apply list_elem_of_fmap. exists (dir ++ [name], n). split; [done|].
    by apply elem_of_map_to_list.
  - rewrite removelast_last, last_last. rewrite decide_True; [done|].
    split; [|done]. by destruct dir.
Qed.

Lemma foldr_max_ge (l : list nat) x : x ∈ l -> (x <= foldr Nat.max 0 l)%nat.
Proof.
  induction l as [|y l IH]; [intros H; by apply elem_of_nil in H|].
  intros [->|H]%elem_of_cons; cbn [foldr]; [lia|]. specialize (IH H). lia.
Qed.

Lemma walk_fuel_ge fs p n : fs !! p = Some n -> (S (length p) <= walk_fuel fs)%nat.
Proof.
  intros H. unfold walk_fuel. apply le_n_S. apply foldr_max_ge.
  apply list_elem_of_fmap. exists (p, n). split; [done|]. by apply elem_of_map_to_list.
Qed.

(** [walk] with a property of the paths it visits that passes from a
    directory to its entries. *)
Lemma walk_inv3 {A : Type} (Inv : A -> World -> Prop) (V : path -> Prop)
    (fn : A -> path * option FileInfo -> M A) :
  (forall q name, V q -> V (filepath_Join q name)) ->
  (forall a v w, V (fst v) -> Inv a w -> Inv (fst (fn a v w)) (snd (fn a v w))) ->
  (forall a w q, Inv a w -> Inv a (snd (os_Lstat q w))) ->
  forall fuel q info a w,
    V q -> Inv a w -> Inv (fst (walk fuel fn q info a w)) (snd (walk fuel fn q info a w)).
Proof.
  intros HV Hf HL fuel. induction fuel as [|fuel IH]; intros q info a w Hq Ha; cbn [walk];
    [done|].
  destruct (negb (fi_IsDir info)); [by apply Hf|].
  unfold bind, readDirNames.
  pose proof (Hf a (q, Some info) w Hq Ha) as Ha'. destruct (fn a (q, Some info) w) as [a' w'].
  cbn [fst snd] in Ha'.
  apply forEach_inv2; [|done]. intros a0 name0 w0 Ha0.
  pose proof (HL a0 w0 (filepath_Join q name0) Ha0) as HL0.
  destruct (os_Lstat (filepath_Join q name0) w0) as [[fileInfo|e] w1] eqn:E; cbn [snd] in HL0.
  - apply IH; [by apply HV|done].
  - apply Hf; [by apply HV|done].
Qed.

Lemma forEach_reach {A B : Type} (Present Gone : World -> Prop) (f : A -> B -> M A) (x : B)
    `{!EqDecision B} :
  (forall a b w, Gone w -> Gone (snd (f a b w))) ->
  (forall a b w, b <> x -> Present w -> Present (snd (f a b w))) ->
  (forall a w, Present w -> Gone (snd (f a x w))) ->
  forall l a w, x ∈ l -> Present w -> Gone (snd (forEach f l a w)).
Proof.
  intros HG HP HX l. induction l as [|b l IH]; intros a w Hin Hw;
    [by apply elem_of_nil in Hin|].
  cbn [forEach]. unfold bind. destruct (decide (b = x)) as [->|Hne].
  - specialize (HX a w Hw). destruct (f a x w) as [a' w']. cbn [snd] in HX.
    pose proof (forEach_inv2 (fun _ w => Gone w) f (fun a b w H => HG a b w H) l a' w' HX).
    done.
  - specialize (HP a b w Hne Hw). destruct (f a b w) as [a' w']. cbn [snd] in HP.
    apply IH; [|done]. apply elem_of_cons in Hin as [->|Hin]; done.
Qed.

Lemma os_Remove_keeps_gone p q wd : gone p wd -> gone p (snd (os_Remove q wd)).
Proof.
  unfold gone. intros Hg. unfold os_Remove, sys.
  repeat case_match; cbn [snd w_fs set_trace set_fs]; try done.
  all: destruct (decide (q = p)) as [->|Hne];
    [apply lookup_delete_eq|by rewrite lookup_delete_ne].
Qed.

Section AgeRule.
Variable w : fileLogWriter.
Variable world : World.
Variable name : string.
Variable c : string.
Variable m : Time.
Hypothesis Hprefix : strings_HasPrefix name (fileNameOnly w) = true.
Hypothesis Hold : forall k,
  t_unix m < sub64 (t_unix (w_clock world k)) (mul64 ONE_DAY_SECONDS (MaxDays w)).

Lemma walkFn_keeps_gone st v wd :
  gone (filepath_Dir (Filename w) ++ [name]) wd ->
  gone (filepath_Dir (Filename w) ++ [name]) (snd (walkFn w st v wd)).
Proof.
  intros Hg. unfold walkFn. destruct v as [q [info|]]; [|done].
  destruct (fi_IsDir info); [done|]. destruct (negb _); [done|].
  unfold bind, time_Now. destruct (_ <? _); [|done].
  pose proof (os_Remove_keeps_gone _ q (set_tick (S (w_tick wd)) wd) Hg) as H.
  by destruct (os_Remove q _).
Qed.

Lemma walkFn_keeps_present st v wd :
  fst v <> filepath_Dir (Filename w) ++ [name] ->
  present (filepath_Dir (Filename w) ++ [name]) c m world wd ->
  present (filepath_Dir (Filename w) ++ [name]) c m world (snd (walkFn w st v wd)).
Proof.
  intros Hv (Hnf & Hfs & Hck). unfold walkFn. destruct v as [q [info|]]; [|done].
  cbn [fst] in Hv.
  destruct (fi_IsDir info); [done|]. destruct (negb _); [done|].
  unfold bind, time_Now. destruct (_ <? _); [|done].
  pose proof (os_Remove_other q _ (set_tick (S (w_tick wd)) wd) Hv) as Hr.
  pose proof (keeps_os_Remove w_fault (fun _ _ => eq_refl) (fun _ _ => eq_refl) q
                (set_tick (S (w_tick wd)) wd)) as Hf.
  pose proof (keeps_os_Remove w_clock (fun _ _ => eq_refl) (fun _ _ => eq_refl) q
                (set_tick (S (w_tick wd)) wd)) as Hc.
  destruct (os_Remove q _) as [r wd1]. cbn [snd] in *. unfold ret. cbn [snd].
  split; [intros call; rewrite Hf; apply Hnf|]. split; [by rewrite Hr|by rewrite Hc].
Qed.

Lemma walkFn_removes st info wd :
  info = info_of (filepath_Dir (Filename w) ++ [name]) (NFile c m) ->
  present (filepath_Dir (Filename w) ++ [name]) c m world wd ->
  gone (filepath_Dir (Filename w) ++ [name])
    (snd (walkFn w st (filepath_Dir (Filename w) ++ [name], Some info) wd)).
Proof.
  intros -> (Hnf & Hfs & Hck). unfold walkFn. cbn [info_of fi_IsDir fi_ModTime].
  rewrite last_last, Hprefix. cbn [negb]. unfold bind, time_Now.
  rewrite Hck. destruct (Z.ltb_spec (t_unix m)
    (sub64 (t_unix (w_clock world (w_tick wd))) (mul64 ONE_DAY_SECONDS (MaxDays w))));
    [|specialize (Hold (w_tick wd)); lia].
  rewrite (os_Remove_ok _ c m) by (done || intros ?; apply Hnf).
  unfold ret, gone. cbn [snd w_fs set_trace set_fs]. apply lookup_delete_eq.
Qed.

End AgeRule.

Lemma walk_S {A : Type} fuel (fn : A -> path * option FileInfo -> M A) p info a :
  walk (S fuel) fn p info a
  = (if negb (fi_IsDir info) then fn a (p, Some info)
     else
       bind (readDirNames p) (fun names =>
       bind (fn a (p, Some info)) (fun a =>
       forEach (fun a name =>
                  bind (os_Lstat (filepath_Join p name)) (fun r =>
                  match r with
                  | Err _ => fn a (filepath_Join p name, None)
                  | Ok fileInfo => walk fuel fn (filepath_Join p name) fileInfo a
                  end)) names a))).
Proof. reflexivity. Qed.

Lemma os_Lstat_keeps_present p c m world q wd :
  present p c m world wd -> present p c m world (snd (os_Lstat q wd)).
Proof.
  intros (Hnf & Hfs & Hck). unfold os_Lstat, sys. repeat case_match; cbn [snd]; by split.
Qed.

Lemma os_Lstat_keeps_gone p q wd : gone p wd -> gone p (snd (os_Lstat q wd)).
Proof. unfold gone. intros H. by rewrite os_Lstat_fs. Qed.

Lemma deleteLoop_keeps_gone w p dir st keys acc wd :
  gone p wd -> gone p (snd (deleteLoop w dir st keys acc wd)).
Proof.
  revert acc wd. induction keys as [|k keys IH]; intros acc wd Hg; cbn [deleteLoop]; [done|].
  destruct (_ <? _); [done|]. destruct (fileTimeMap st !! k) as [info|]; [|done].
  unfold bind. pose proof (os_Remove_keeps_gone p (filepath_Join dir (fi_Name info)) wd Hg) as H.
  destruct (os_Remove _ wd) as [r wd1]. by apply IH.
Qed.

Lemma not_prefix_snoc (q p : path) (x : string) :
  ~ q `prefix_of` p -> ~ (q ++ [x]) `prefix_of` p.
Proof. intros H [k Hk]. apply H. exists ([x] ++ k). by rewrite Hk, <- app_assoc. Qed.

(** A file of the sink's prefix that lies in the directory of the sink and
    is older than [MaxDays] days at every reading of the clock is gone
    after retention, whatever the budget, when no call is refused. *)
Theorem age_rule_removes_expired (w : fileLogWriter) (world : World) (name c : string)
    (m md : Time) :
  no_faults world ->
  w_fs world !! filepath_Dir (Filename w) = Some (NDir md) ->
  w_fs world !! (filepath_Dir (Filename w) ++ [name]) = Some (NFile c m) ->
  strings_HasPrefix name (fileNameOnly w) = true ->
  (forall k, t_unix m
             < sub64 (t_unix (w_clock world k)) (mul64 ONE_DAY_SECONDS (MaxDays w))) ->
  w_fs (snd (deleteOldLog w world)) !! (filepath_Dir (Filename w) ++ [name]) = None.
Proof.
  intros Hnf Hdir Hfile Hprefix Hold.
  set (dir := filepath_Dir (Filename w)) in *. set (p := dir ++ [name]) in *.
  unfold deleteOldLog. cbv zeta. fold dir. unfold bind.
  assert (Hwalk : gone p (snd (filepath_Walk dir (walkFn w) (mkWalkState 0 ∅ []) world))).
  { unfold filepath_Walk, bind. rewrite (os_Lstat_ok _ (NDir md)) by done.
    set (world1 := set_trace _ world).
    assert (Hpres : present p c m world world1) by (by split).
    pose proof (walk_fuel_ge (w_fs world1) p _ Hfile) as Hfuel.
    destruct (walk_fuel (w_fs world1)) as [|[|F]] eqn:EF;
      [lia|subst p; rewrite length_app in Hfuel; simpl in Hfuel; lia|].
    clearbody world1. rewrite walk_S. cbn [info_of fi_IsDir negb].
    unfold bind at 1, readDirNames. unfold bind at 1. rewrite walkFn_skips by (by left).
    apply (forEach_reach (present p c m world) (gone p) _ name).
    - intros a b wd Hg. unfold bind.
      pose proof (os_Lstat_keeps_gone p (filepath_Join dir b) wd Hg) as HL.
      destruct (os_Lstat _ wd) as [[fileInfo|e] wd1]; cbn [snd] in HL.
      + apply (walk_inv3 (fun _ x => gone p x) (fun _ => True)); try done.
        * intros. by apply walkFn_keeps_gone.
        * intros. by apply os_Lstat_keeps_gone.
      + by apply walkFn_keeps_gone.
    - intros a b wd Hb Hp. unfold bind.
      pose proof (os_Lstat_keeps_present p c m world (filepath_Join dir b) wd Hp) as HL.
      assert (HV : ~ filepath_Join dir b `prefix_of` p).
      { intros [k Hk]. subst p. unfold filepath_Join in Hk. rewrite <- app_assoc in Hk.
        apply app_inv_head in Hk. injection Hk as Hk _. by apply Hb. }
      destruct (os_Lstat _ wd) as [[fileInfo|e] wd1]; cbn [snd] in HL.
      + apply (walk_inv3 (fun _ x => present p c m world x) (fun q => ~ q `prefix_of` p));
          try done.
        * intros q x. apply not_prefix_snoc.
        * intros a0 v w0 Hv Hw0. apply walkFn_keeps_present; [|done].
          intros E. apply Hv. exists []. by rewrite app_nil_r.
        * intros. by apply os_Lstat_keeps_present.
      + apply walkFn_keeps_present; [|done]. cbn [fst].
        intros E. apply HV. exists []. by rewrite app_nil_r.
    - intros a wd Hp. unfold bind. destruct Hp as (Hnf' & Hfs' & Hck').
      rewrite (os_Lstat_ok _ (NFile c m)) by done. rewrite walk_S.
      cbn [info_of fi_IsDir negb].
      apply (walkFn_removes w world name c m Hprefix Hold a _ _ eq_refl). by split.
    - eapply child_names_elem. apply Hpres.
    - done. }
  destruct (filepath_Walk dir _ _ world) as [st wd]. cbn [snd] in Hwalk.
  unfold deleteOldLog_bySize. destruct (_ <=? _); [done|]. by apply deleteLoop_keeps_gone.
Qed.

(** A file of three weeks ago in the directory of the sink. *)
Lemma age_rule_removes_expired_witness :
  w_fs (snd (deleteOldLog aged_sink aged_sink_world)) !! ["logs"; "app.old.zip"] = None.
Proof.
  apply (age_rule_removes_expired aged_sink aged_sink_world "app.old.zip" "old" old_time day24).
  - intros c. reflexivity.
  - vm_compute. reflexivity.
  - vm_compute. reflexivity.
  - vm_compute. reflexivity.
  - intros k. vm_compute. reflexivity.
Defined.

(** * A write appends *)

(** A record that passes the filter of a sink with an open handle, when no
    rotation is due and no call is refused, is appended to the file: the
    content so far is kept and the line of the record follows it; no other
    file changes and no error is returned. *)
Theorem WriteMsg_appends (w : fileLogWriter) (when : Time) (msg : string) (level : Z)
    (world : World) (fd : File) (c : string) (m : Time) :
  fileWriter w = Some fd -> f_closed fd = false ->
  w_fs world !! f_path fd = Some (NFile c m) ->
  no_faults world -> Level w <= level ->
  Rotate w && needRotate w (len (record_line w when msg world)) (t_day when) = false ->
  snd (fst (WriteMsg w when msg level world)) = None /\
  (exists m', w_fs (snd (WriteMsg w when msg level world)) !! f_path fd
              = Some (NFile (c +:+ record_line w when msg world) m')) /\
  (forall q, q <> f_path fd ->
             w_fs (snd (WriteMsg w when msg level world)) !! q = w_fs world !! q).
Proof.
  intros Hfd Hopen Hc Hnf Hl Hrot.
  rewrite WriteMsg_at_level by done. cbv zeta. rewrite WriteMsg_rotate_no by done.
  unfold WriteMsg_write, fileWriter_Write, bind. rewrite Hfd.
  rewrite (File_Write_ok _ _ c m) by done. unfold ret. cbn [fst snd w_fs set_trace set_fs].
  split; [done|]. split.
  - eexists. apply lookup_insert_eq.
  - intros q Hq. by rewrite lookup_insert_ne.
Qed.

(** A second record on the sink of the example. *)
Lemma WriteMsg_appends_witness :
  exists m', w_fs (snd (WriteMsg written_sink example_time "again" WARN written_world))
               !! ["app.log"]
             = Some (NFile ("[2016-04-27 10:18:51.453993][7]started" +:+ nl +:+
                            "[2016-04-27 10:18:51.453993][7]again" +:+ nl) m').
Proof.
  destruct (WriteMsg_appends written_sink example_time "again" WARN written_world
              (mkFile ["app.log"] false)
              ("[2016-04-27 10:18:51.453993][7]started" +:+ nl) example_time)
    as (_ & (m' & H) & _).
  - vm_compute. reflexivity.
  - reflexivity.
  - vm_compute. reflexivity.
  - intros c. reflexivity.
  - vm_compute. discriminate.
  - vm_compute. reflexivity.
  - exists m'. exact H.
Defined.

(** * The console sink *)


(** * The keys of the size rule sort by time *)

Lemma compare_app_same_length (x y s s' : string) :
  String.length x = String.length y ->
  String.compare (x +:+ s) (y +:+ s')
  = match String.compare x y with Eq => String.compare s s' | o => o end.
Proof.
  revert y. induction x as [|c x IH]; intros [|d y] Hlen; try done.
  cbn [String.length] in Hlen.
  change (String.compare (String c (x +:+ s)) (String d (y +:+ s'))
          = match String.compare (String c x) (String d y) with
            | Eq => String.compare s s' | o => o end).
  cbn [String.compare]. destruct (Ascii.compare c d); try done.
  apply IH. lia.
Qed.

Lemma compare_same_head (c : ascii) (s s' : string) :
  String.compare (String c s) (String c s') = String.compare s s'.
Proof.
  cbn [String.compare]. unfold Ascii.compare. by rewrite N.compare_refl.
Qed.

Lemma lex_compare (a1 b1 a2 b2 : Z) :
  0 <= b1 < 100 -> 0 <= b2 < 100 ->
  (a1 * 100 + b1 ?= a2 * 100 + b2)
  = match a1 ?= a2 with Eq => b1 ?= b2 | o => o end.
Proof.
  intros H1 H2. destruct (Z.compare_spec a1 a2) as [->|Hlt|Hgt].
  - apply Z.add_compare_mono_l.
  - apply Z.compare_lt_iff. lia.
  - apply Z.compare_gt_iff. lia.
Qed.

Lemma two_digits_compare (a b : Z) :
  0 <= a < 100 -> 0 <= b < 100 ->
  String.compare (two_digits a) (two_digits b) = (a ?= b).
Proof.
  intros Ha Hb.
  pose (P := fun a b : Z =>
    bool_decide (String.compare (two_digits a) (two_digits b) = (a ?= b))).
  assert (H : P a b = true); [|by apply bool_decide_eq_true in H].
  revert b Hb.
  apply (forall_below (fun b => P a b) 100).
  revert a Ha.
  apply (forall_below
           (fun a => forallb (fun k => P a (Z.of_nat k)) (seq 0 (Z.to_nat 100))) 100).
  vm_compute. reflexivity.
Qed.

Lemma four_digits_split (z : Z) :
  0 <= z <= 9999 -> four_digits z = two_digits (z / 100) +:+ two_digits (z mod 100).
Proof.
  intros Hz. apply String.eqb_eq.
  apply (forall_below
           (fun z => String.eqb (four_digits z)
                       (two_digits (z / 100) +:+ two_digits (z mod 100))) 10000); [|lia].
  vm_compute. reflexivity.
Qed.

Lemma four_digits_compare (a b : Z) :
  0 <= a <= 9999 -> 0 <= b <= 9999 ->
  String.compare (four_digits a) (four_digits b) = (a ?= b).
Proof.
  intros Ha Hb. rewrite !four_digits_split by lia.
  rewrite compare_app_same_length by reflexivity.
  assert (0 <= a / 100 < 100 /\ 0 <= b / 100 < 100) as [Ha' Hb']
    by (split; split; (apply Z.div_pos; lia) || (apply Z.div_lt_upper_bound; lia)).
  pose proof (Z.mod_pos_bound a 100 eq_refl).
  pose proof (Z.mod_pos_bound b 100 eq_refl).
  rewrite !two_digits_compare by done.
  rewrite <- lex_compare by done.
  f_equal; rewrite Z.mul_comm; symmetry; apply Z.div_mod; lia.
Qed.

Lemma timeKey_fields (t : Time) :
  wf_time t ->
  time_Format LOG_PATTERN t
  = four_digits (t_year t) +:+ String "-" (two_digits (t_month t) +:+
    String "-" (two_digits (t_day t) +:+ String "-" (two_digits (t_hour t) +:+
    String "-" (two_digits (t_minute t) +:+ String "-" (two_digits (t_second t)))))).
Proof.
  intros (_ & Hy & Hmo & Hd & Hh & Hmi & Hs).
  change (time_Format LOG_PATTERN t)
    with (pad4 (t_year t) +:+ String "-" (pad2 (t_month t) +:+
          String "-" (pad2 (t_day t) +:+ String "-" (pad2 (t_hour t) +:+
          String "-" (pad2 (t_minute t) +:+ String "-" (pad2 (t_second t) +:+ "")))))).
  rewrite pad4_four_digits, !pad2_two_digits by lia.
  reflexivity.
Qed.

Lemma timeKey_compare (t1 t2 : Time) :
  wf_time t1 -> wf_time t2 ->
  String.compare (time_Format LOG_PATTERN t1) (time_Format LOG_PATTERN t2)
  = (civil_stamp t1 ?= civil_stamp t2).
Proof.
  intros H1 H2. rewrite !timeKey_fields by done.
  destruct H1 as (_ & Hy1 & Hmo1 & Hd1 & Hh1 & Hmi1 & Hs1).
  destruct H2 as (_ & Hy2 & Hmo2 & Hd2 & Hh2 & Hmi2 & Hs2).
  unfold civil_stamp.
  rewrite !lex_compare by lia.
  rewrite compare_app_same_length by reflexivity.
  rewrite four_digits_compare by lia.
  do 4 (rewrite compare_same_head, compare_app_same_length by reflexivity;
        rewrite two_digits_compare by lia).
  rewrite compare_same_head, two_digits_compare by lia.
  by repeat match goal with |- context [?a ?= ?b] => destruct (a ?= b) end.
Qed.

(** The keys under which the size rule files the logs, their modification
    times printed as year-month-day-hour-minute-second, sort as strings in
    the order of those times: one key is at most another exactly when its
    civil time is not later, so sorting the keys puts the oldest first; and
    two files get the same key exactly when they were modified within the
    same second. *)
Theorem retention_keys_sort_by_time (t1 t2 : Time) :
  wf_time t1 -> wf_time t2 ->
  (String.le (time_Format LOG_PATTERN t1) (time_Format LOG_PATTERN t2)
   <-> civil_stamp t1 <= civil_stamp t2) /\
  (time_Format LOG_PATTERN t1 = time_Format LOG_PATTERN t2
   <-> civil_stamp t1 = civil_stamp t2).
Proof.
  intros H1 H2. pose proof (timeKey_compare t1 t2 H1 H2) as Hc. split.
  - unfold String.le, String.leb. rewrite Hc.
    unfold Z.le. destruct (civil_stamp t1 ?= civil_stamp t2); cbn; intuition congruence.
  - rewrite <- Z.compare_eq_iff, <- Hc. split.
    + intros ->. clear. induction (time_Format LOG_PATTERN t2) as [|c s IH]; [done|].
      by rewrite compare_same_head.
    + apply String.compare_eq_iff.
Qed.

(** The last second of 2015 and the first of 2016. *)
Lemma retention_keys_sort_by_time_witness :
  String.le (time_Format LOG_PATTERN old_year) (time_Format LOG_PATTERN new_year) /\
  time_Format LOG_PATTERN old_year <> time_Format LOG_PATTERN new_year.
Proof.
  destruct (retention_keys_sort_by_time old_year new_year) as [Hle Heq].
  - vm_compute. intuition discriminate.
  - vm_compute. intuition discriminate.
  - split.
    + apply Hle. vm_compute. discriminate.
    + intros H. apply Heq in H. vm_compute in H. discriminate.
Defined.


